(** * Custom Connector Framework: job/connector lifecycle and sync reconciler

    A shallow embedding of the DynamoDB-backed DAOs
    ([custom_connectors_dao.py], [custom_connector_jobs_dao.py]), of the two
    Lambda handlers that drive the job state machine
    ([job_orchestrator_handler.py], [job_status_handler.py]) and of the
    builder kit's synchronisation code ([custom_connector_interface.py],
    [models/document.py]), followed by the properties of the specification
    that concern them.

    The DAOs talk to a store that other invocations use at the same time.
    Every call to an external service is therefore a step of a small
    state-and-exception monad whose environment (an [Oracle]) decides what
    the other invocations did to the tables before the call, whether the
    call fails, what the clock reads and what the batch service answers. *)

From Stdlib Require Import ZArith String Ascii List Lia.
From Stdlib Require Import DecimalString.
From stdpp Require Import base option gmap strings list.

Local Open Scope Z_scope.
Local Open Scope string_scope.

(** ** Tenants ([common/tenant.py]) *)

Record TenantContext := mkTenant { account_id : string; region : string }.

Definition get_arn_prefix (t : TenantContext) : string :=
  "arn:aws:ccf:" +:+ region t +:+ ":" +:+ account_id t.

Definition get_connector_arn (t : TenantContext) (connector_id : string) : string :=
  get_arn_prefix t +:+ ":custom-connector/" +:+ connector_id.

(** ** Stored items *)

Inductive ConnectorStatus := AVAILABLE | IN_USE.

Inductive JobStatus := STARTED | RUNNING | STOPPING | STOPPED | FAILED | SUCCEEDED.

#[global] Instance ConnectorStatus_eq_dec : EqDecision ConnectorStatus.
Proof. solve_decision. Defined.

#[global] Instance JobStatus_eq_dec : EqDecision JobStatus.
Proof. solve_decision. Defined.

(** [JobStatus.X.value] *)
Definition JobStatus_value (s : JobStatus) : string :=
  match s with
  | STARTED => "STARTED" | RUNNING => "RUNNING" | STOPPING => "STOPPING"
  | STOPPED => "STOPPED" | FAILED => "FAILED" | SUCCEEDED => "SUCCEEDED"
  end.

(** [ResourceRequirements]; the cpu is a [Decimal], kept as its text. *)
Record ResourceRequirements := mkResourceRequirements {
  cpu : string;
  memory : Z
}.

Record ContainerProperties := mkContainerProperties {
  execution_role_arn : string;
  image_uri : string;
  job_role_arn : string;
  resource_requirements : ResourceRequirements;
  timeout : Z
}.

(** [UpdateResourceRequirements] and [UpdateContainerProperties]: every field
    may be absent.  [model_dump()] of these is what [update_connector] stores,
    so this is also the shape of the stored [container_properties]
    attribute. *)
Record UpdateResourceRequirements := mkUpdateResourceRequirements {
  u_cpu : option string;
  u_memory : option Z
}.

Record UpdateContainerProperties := mkUpdateContainerProperties {
  u_execution_role_arn : option string;
  u_image_uri : option string;
  u_job_role_arn : option string;
  u_resource_requirements : option UpdateResourceRequirements;
  u_timeout : option Z
}.

(** [ContainerProperties.model_dump()] *)
Definition model_dump (p : ContainerProperties) : UpdateContainerProperties :=
  mkUpdateContainerProperties
    (Some (execution_role_arn p)) (Some (image_uri p)) (Some (job_role_arn p))
    (Some (mkUpdateResourceRequirements
             (Some (cpu (resource_requirements p)))
             (Some (memory (resource_requirements p)))))
    (Some (timeout p)).

(** [ContainerProperties.model_validate(item["container_properties"])]: every
    field of [ContainerProperties] is required and [timeout] has [ge=0]; a
    [None] where a value is required is a validation error. *)
Definition model_validate (d : UpdateContainerProperties) : option ContainerProperties :=
  match u_execution_role_arn d, u_image_uri d, u_job_role_arn d,
        u_resource_requirements d, u_timeout d with
  | Some e, Some i, Some j, Some r, Some t =>
      match u_cpu r, u_memory r with
      | Some c, Some m =>
          if (0 <=? t)%Z
          then Some (mkContainerProperties e i j (mkResourceRequirements c m) t)
          else None
      | _, _ => None
      end
  | _, _, _, _, _ => None
  end.

Record Checkpoint := mkCheckpoint {
  checkpoint_data : string;
  cp_created_at : string;
  cp_updated_at : string
}.

(** An item of the CustomConnectors table.  The key attributes
    ([custom_connector_arn_prefix], [connector_id]) are the key of the map
    that holds the item.  [version] and [checkpoint] are read with
    [item.get], so they may be absent. *)
Record ConnectorItem := mkConnectorItem {
  c_arn : string;
  c_name : string;
  c_description : option string;
  c_container_properties : UpdateContainerProperties;
  c_status : ConnectorStatus;
  c_created_at : string;
  c_updated_at : string;
  c_version : option Z;
  c_checkpoint : option Checkpoint
}.

(** An item of the CustomConnectorJobs table, keyed by
    ([custom_connector_arn_prefix], [job_id]). *)
Record JobItem := mkJobItem {
  j_connector_id : string;
  j_status : JobStatus;
  j_environment : list (string * string);
  j_created_at : string;
  j_updated_at : string;
  j_batch_job_id : option string;
  j_ttl : option string
}.

Abbreviation Key := (string * string)%type.

Record Tables := mkTables {
  connectors : gmap Key ConnectorItem;
  jobs : gmap Key JobItem
}.

(** ** Exceptions *)

Inductive Exn :=
| ClientError (code : string)          (* botocore, raised by a table call *)
| ConnectorDaoConflictError            (* custom_connectors_dao.DaoConflictError *)
| ConnectorDaoNotFoundError            (* custom_connectors_dao.DaoResourceNotFoundError *)
| ConnectorDaoInternalError            (* custom_connectors_dao.DaoInternalError *)
| DaoConflictError                     (* custom_connector_jobs_dao.DaoConflictError *)
| DaoResourceNotFoundError             (* custom_connector_jobs_dao.DaoResourceNotFoundError *)
| DaoInternalError                     (* custom_connector_jobs_dao.DaoInternalError *)
| ValidationError                      (* pydantic *)
| BadRequestError                      (* common.exceptions *)
| TypeError
| BatchError.                          (* any exception of the batch client *)

#[global] Instance Exn_eq_dec : EqDecision Exn.
Proof. solve_decision. Defined.

Definition ConditionalCheckFailedException : string := "ConditionalCheckFailedException".

(** ** What an invocation does to the outside world *)

Record JobDefinition := mkJobDefinition {
  jd_name : string;
  jd_image : string;
  jd_execution_role_arn : string;
  jd_job_role_arn : string;
  jd_environment : list (string * string);
  jd_vcpu : string;
  jd_memory : Z
}.

Inductive Effect :=
| ConnectorWritten (k : Key) (post : ConnectorItem)
| JobWritten (k : Key) (post : JobItem)
| RegisterJobDefinition (d : JobDefinition)
| SubmitJob (job_name : string) (job_definition : string) (attempt_seconds : Z)
| CancelJob (batch_job_id : string).

(** ** The environment of an invocation *)

Record Timestamp := mkTimestamp {
  isoformat : string;       (* now_dt.isoformat() *)
  epoch : Z                 (* int(now_dt.timestamp()) *)
}.

Record Oracle := mkOracle {
  (* what concurrent invocations did to the tables before the n-th call *)
  interfere : nat -> Tables -> Tables;
  (* the error code of the ClientError the n-th call ends in, if any *)
  fault : nat -> option string;
  (* datetime.now(UTC) *)
  clock : nat -> Timestamp;
  (* uuid.uuid4().hex[:12] *)
  uuid4 : nat -> string;
  (* batch_client.register_job_definition: the jobDefinitionArn, or an exception *)
  register_response : nat -> option string;
  (* batch_client.submit_job: the jobId, or an exception *)
  submit_response : nat -> option string;
  (* batch_client.cancel_job: does it return *)
  cancel_response : nat -> bool;
  (* common/env.py, set by the deployment *)
  AWS_BATCH_JOB_QUEUE : string;
  CUSTOM_CONNECTOR_API_ENDPOINT : string
}.

Record St := mkSt {
  tick : nat;
  tables : Tables;
  effects : list Effect
}.

Inductive Outcome (A : Type) :=
| Return (a : A)
| Raise (e : Exn).
Arguments Return {A} a.
Arguments Raise {A} e.

Definition M (A : Type) : Type := Oracle -> St -> Outcome A * St.

Definition ret {A} (a : A) : M A := fun _ st => (Return a, st).

Definition raise {A} (e : Exn) : M A := fun _ st => (Raise e, st).

Definition bind {A B} (m : M A) (f : A -> M B) : M B := fun o st =>
  match m o st with
  | (Return a, st') => f a o st'
  | (Raise e, st') => (Raise e, st')
  end.

(** [try: m except Exception as e: h e] *)
Definition try_except {A} (m : M A) (h : Exn -> M A) : M A := fun o st =>
  match m o st with
  | (Return a, st') => (Return a, st')
  | (Raise e, st') => h e o st'
  end.

Declare Scope dao_scope.
Delimit Scope dao_scope with dao.
Notation "x <- m ;; k" := (bind m (fun x => k))
  (at level 100, m at next level, right associativity) : dao_scope.
Notation "m ;;; k" := (bind m (fun _ => k))
  (at level 100, right associativity) : dao_scope.
Local Open Scope dao_scope.

(** Time passes and the other invocations act before each external call. *)
Definition enter (o : Oracle) (st : St) : St :=
  mkSt (S (tick st)) (interfere o (tick st) (tables st)) (effects st).

(** The tables as the [n]-th external call from tick [t] on finds them, as
    long as the invocation itself has written nothing in between. *)
Fixpoint seen (o : Oracle) (t : nat) (n : nat) (w : Tables) : Tables :=
  match n with
  | O => w
  | S n' => seen o (S t) n' (interfere o t w)
  end.

Definition now : M Timestamp := fun o st => (Return (clock o (tick st)), st).

Definition log (e : Effect) : M unit := fun _ st =>
  (Return tt, mkSt (tick st) (tables st) (effects st ++ [e])).

(** ** The DynamoDB calls the DAOs make

    The store is a collaborator; these definitions give the meaning of the
    calls as the DAOs use them.  Both condition expressions the DAOs attach
    to an update of an existing item ([version = :current_version] and
    [attribute_exists(job_id)]) are false on a missing item. *)

Definition set_connectors (w : Tables) (c : gmap Key ConnectorItem) : Tables :=
  mkTables c (jobs w).

Definition set_jobs (w : Tables) (j : gmap Key JobItem) : Tables :=
  mkTables (connectors w) j.

Definition connectors_get_item (k : Key) : M (option ConnectorItem) := fun o st =>
  let st1 := enter o st in
  match fault o (tick st) with
  | Some code => (Raise (ClientError code), st1)
  | None => (Return (connectors (tables st1) !! k), st1)
  end.

(** A conditional write of the connectors table: [update_item] with an
    update expression ([upd] applied to the stored item) or [put_item] of a
    whole item ([upd] constant). *)
Definition connectors_write_item (k : Key) (cond : ConnectorItem -> bool)
    (upd : ConnectorItem -> ConnectorItem) : M unit := fun o st =>
  let st1 := enter o st in
  match fault o (tick st) with
  | Some code => (Raise (ClientError code), st1)
  | None =>
      match connectors (tables st1) !! k with
      | Some stored =>
          if cond stored
          then (Return tt,
                mkSt (tick st1)
                     (set_connectors (tables st1) (<[k := upd stored]> (connectors (tables st1))))
                     (effects st1 ++ [ConnectorWritten k (upd stored)]))
          else (Raise (ClientError ConditionalCheckFailedException), st1)
      | None => (Raise (ClientError ConditionalCheckFailedException), st1)
      end
  end.

Definition jobs_get_item (k : Key) : M (option JobItem) := fun o st =>
  let st1 := enter o st in
  match fault o (tick st) with
  | Some code => (Raise (ClientError code), st1)
  | None => (Return (jobs (tables st1) !! k), st1)
  end.

(** [table.put_item(Item=item)] without a condition. *)
Definition jobs_put_item (k : Key) (item : JobItem) : M unit := fun o st =>
  let st1 := enter o st in
  match fault o (tick st) with
  | Some code => (Raise (ClientError code), st1)
  | None =>
      (Return tt,
       mkSt (tick st1)
            (set_jobs (tables st1) (<[k := item]> (jobs (tables st1))))
            (effects st1 ++ [JobWritten k item]))
  end.

(** [update_item] with [ConditionExpression="attribute_exists(job_id)"]. *)
Definition jobs_update_item (k : Key) (upd : JobItem -> JobItem) : M unit := fun o st =>
  let st1 := enter o st in
  match fault o (tick st) with
  | Some code => (Raise (ClientError code), st1)
  | None =>
      match jobs (tables st1) !! k with
      | Some stored =>
          (Return tt,
           mkSt (tick st1)
                (set_jobs (tables st1) (<[k := upd stored]> (jobs (tables st1))))
                (effects st1 ++ [JobWritten k (upd stored)]))
      | None => (Raise (ClientError ConditionalCheckFailedException), st1)
      end
  end.

(** ** CustomConnectorsDao ([common/storage/ddb/custom_connectors_dao.py]) *)

Definition with_status (i : ConnectorItem) (s : ConnectorStatus) : ConnectorItem :=
  mkConnectorItem (c_arn i) (c_name i) (c_description i) (c_container_properties i)
    s (c_created_at i) (c_updated_at i) (c_version i) (c_checkpoint i).

Definition with_version (i : ConnectorItem) (v : Z) : ConnectorItem :=
  mkConnectorItem (c_arn i) (c_name i) (c_description i) (c_container_properties i)
    (c_status i) (c_created_at i) (c_updated_at i) (Some v) (c_checkpoint i).

Definition with_updated_at (i : ConnectorItem) (t : string) : ConnectorItem :=
  mkConnectorItem (c_arn i) (c_name i) (c_description i) (c_container_properties i)
    (c_status i) (c_created_at i) t (c_version i) (c_checkpoint i).

Definition with_checkpoint (i : ConnectorItem) (c : option Checkpoint) : ConnectorItem :=
  mkConnectorItem (c_arn i) (c_name i) (c_description i) (c_container_properties i)
    (c_status i) (c_created_at i) (c_updated_at i) (c_version i) c.

Definition with_name (i : ConnectorItem) (n : string) : ConnectorItem :=
  mkConnectorItem (c_arn i) n (c_description i) (c_container_properties i)
    (c_status i) (c_created_at i) (c_updated_at i) (c_version i) (c_checkpoint i).

Definition with_description (i : ConnectorItem) (d : string) : ConnectorItem :=
  mkConnectorItem (c_arn i) (c_name i) (Some d) (c_container_properties i)
    (c_status i) (c_created_at i) (c_updated_at i) (c_version i) (c_checkpoint i).

Definition with_container_properties (i : ConnectorItem) (p : UpdateContainerProperties)
    : ConnectorItem :=
  mkConnectorItem (c_arn i) (c_name i) (c_description i) p
    (c_status i) (c_created_at i) (c_updated_at i) (c_version i) (c_checkpoint i).

Record GetConnectorRequest := mkGetConnectorRequest {
  gc_tenant_context : TenantContext;
  gc_connector_id : string
}.

Record GetConnectorResponse := mkGetConnectorResponse {
  r_connector_id : string;
  r_arn : string;
  r_name : string;
  r_created_at : string;
  r_updated_at : string;
  r_status : ConnectorStatus;
  r_container_properties : ContainerProperties;
  r_description : option string;
  r_checkpoint : option Checkpoint;
  r_version : Z
}.

Record UpdateConnectorStatusRequest := mkUpdateConnectorStatusRequest {
  ucs_tenant_context : TenantContext;
  ucs_connector_id : string;
  ucs_status : ConnectorStatus
}.

Record PutCheckpointRequest := mkPutCheckpointRequest {
  pc_tenant_context : TenantContext;
  pc_connector_id : string;
  pc_checkpoint_data : string
}.

Record DeleteCheckpointRequest := mkDeleteCheckpointRequest {
  dc_tenant_context : TenantContext;
  dc_connector_id : string
}.

Record UpdateConnectorRequest := mkUpdateConnectorRequest {
  uc_tenant_context : TenantContext;
  uc_connector_id : string;
  uc_name : option string;
  uc_description : option string;
  uc_container_properties : option UpdateContainerProperties
}.

Record UpdateConnectorResponse := mkUpdateConnectorResponse {
  ur_connector_id : string;
  ur_arn : string;
  ur_name : string;
  ur_created_at : string;
  ur_updated_at : string;
  ur_description : option string;
  ur_status : ConnectorStatus;
  ur_version : Z
}.

(** [except ClientError as error: h error.response["Error"]["Code"]]; any
    other exception passes through. *)
Definition except_ClientError {A} (m : M A) (h : string -> M A) : M A :=
  try_except m (fun e => match e with ClientError code => h code | _ => raise e end).

(** The handler shared by the version-checked writes. *)
Definition conflict_or_internal {A} (code : string) : M A :=
  if String.eqb code ConditionalCheckFailedException
  then raise ConnectorDaoConflictError
  else raise ConnectorDaoInternalError.

(** [ConditionExpression="version = :current_version"] *)
Definition version_is (current_version : Z) (stored : ConnectorItem) : bool :=
  bool_decide (c_version stored = Some current_version).

Definition get_connector (request : GetConnectorRequest) : M GetConnectorResponse :=
  let arn_prefix := get_arn_prefix (gc_tenant_context request) in
  response <- except_ClientError
                (connectors_get_item (arn_prefix, gc_connector_id request))
                (fun _ => raise ConnectorDaoInternalError) ;;
  match response with
  | None => raise ConnectorDaoNotFoundError
  | Some item =>
      match model_validate (c_container_properties item) with
      | None => raise ValidationError
      | Some props =>
          ret (mkGetConnectorResponse (gc_connector_id request) (c_arn item) (c_name item)
                 (c_created_at item) (c_updated_at item) (c_status item) props
                 (c_description item) (c_checkpoint item) (default 1 (c_version item)))
      end
  end.

Definition update_connector_status (request : UpdateConnectorStatusRequest) : M unit :=
  let arn_prefix := get_arn_prefix (ucs_tenant_context request) in
  let key := (arn_prefix, ucs_connector_id request) in
  now_dt <- now ;;
  let now_iso := isoformat now_dt in
  except_ClientError
    (response <- connectors_get_item key ;;
     match response with
     | None => raise ConnectorDaoNotFoundError
     | Some item =>
         let current_version := default 1 (c_version item) in
         let new_version := current_version + 1 in
         connectors_write_item key (version_is current_version)
           (fun stored =>
              with_updated_at (with_version (with_status stored (ucs_status request)) new_version)
                now_iso)
     end)
    conflict_or_internal.

Definition put_checkpoint (request : PutCheckpointRequest) : M unit :=
  let arn_prefix := get_arn_prefix (pc_tenant_context request) in
  let key := (arn_prefix, pc_connector_id request) in
  now_dt <- now ;;
  let now_iso := isoformat now_dt in
  let checkpoint_obj := mkCheckpoint (pc_checkpoint_data request) now_iso now_iso in
  except_ClientError
    (response <- connectors_get_item key ;;
     match response with
     | None => raise ConnectorDaoNotFoundError
     | Some item =>
         let current_version := default 1 (c_version item) in
         let new_version := current_version + 1 in
         connectors_write_item key (version_is current_version)
           (fun stored =>
              with_updated_at (with_version (with_checkpoint stored (Some checkpoint_obj)) new_version)
                now_iso)
     end)
    conflict_or_internal.

Definition delete_checkpoint (request : DeleteCheckpointRequest) : M unit :=
  let arn_prefix := get_arn_prefix (dc_tenant_context request) in
  let key := (arn_prefix, dc_connector_id request) in
  now_dt <- now ;;
  let now_iso := isoformat now_dt in
  except_ClientError
    (response <- connectors_get_item key ;;
     match response with
     | None => raise ConnectorDaoNotFoundError
     | Some item =>
         match c_checkpoint item with
         | None => raise ConnectorDaoNotFoundError
         | Some _ =>
             let current_version := default 1 (c_version item) in
             let new_version := current_version + 1 in
             connectors_write_item key (version_is current_version)
               (fun stored =>
                  with_updated_at (with_version (with_checkpoint stored None) new_version) now_iso)
         end
     end)
    conflict_or_internal.

Definition update_connector (request : UpdateConnectorRequest) : M UpdateConnectorResponse :=
  let arn_prefix := get_arn_prefix (uc_tenant_context request) in
  let key := (arn_prefix, uc_connector_id request) in
  now_dt <- now ;;
  let now_iso := isoformat now_dt in
  except_ClientError
    (response <- connectors_get_item key ;;
     match response with
     | None => raise ConnectorDaoNotFoundError
     | Some item =>
         let current_version := default 1 (c_version item) in
         let new_version := current_version + 1 in
         let item := match uc_name request with
                     | Some n => with_name item n
                     | None => item
                     end in
         let item := match uc_description request with
                     | Some d => with_description item d
                     | None => item
                     end in
         let item := match uc_container_properties request with
                     | Some p => with_container_properties item p
                     | None => item
                     end in
         let item := with_updated_at item now_iso in
         let item := with_version item new_version in
         except_ClientError
           (connectors_write_item key (version_is current_version) (fun _ => item))
           conflict_or_internal ;;;
         ret (mkUpdateConnectorResponse (uc_connector_id request) (c_arn item) (c_name item)
                (c_created_at item) (c_updated_at item) (c_description item) (c_status item)
                new_version)
     end)
    (fun _ => raise ConnectorDaoInternalError).

(** The four operations that mutate a stored connector. *)
Inductive ConnectorMutation :=
| UpdateConnectorStatus (request : UpdateConnectorStatusRequest)
| UpdateConnector (request : UpdateConnectorRequest)
| PutCheckpoint (request : PutCheckpointRequest)
| DeleteCheckpoint (request : DeleteCheckpointRequest).

Definition mutate (m : ConnectorMutation) : M unit :=
  match m with
  | UpdateConnectorStatus request => update_connector_status request
  | UpdateConnector request => update_connector request ;;; ret tt
  | PutCheckpoint request => put_checkpoint request
  | DeleteCheckpoint request => delete_checkpoint request
  end.

Definition mutation_key (m : ConnectorMutation) : Key :=
  match m with
  | UpdateConnectorStatus r => (get_arn_prefix (ucs_tenant_context r), ucs_connector_id r)
  | UpdateConnector r => (get_arn_prefix (uc_tenant_context r), uc_connector_id r)
  | PutCheckpoint r => (get_arn_prefix (pc_tenant_context r), pc_connector_id r)
  | DeleteCheckpoint r => (get_arn_prefix (dc_tenant_context r), dc_connector_id r)
  end.

(** The [version] attribute stored under a key, if the item and the
    attribute exist. *)
Definition stored_version (w : Tables) (k : Key) : option Z :=
  match connectors w !! k with
  | Some item => c_version item
  | None => None
  end.

(** The operation finds its connector and gets as far as its conditional
    write: [delete_checkpoint] gives up before when there is no checkpoint. *)
Definition reaches_write (m : ConnectorMutation) (w : Tables) : Prop :=
  match connectors w !! mutation_key m with
  | None => False
  | Some item =>
      match m with
      | DeleteCheckpoint _ => is_Some (c_checkpoint item)
      | _ => True
      end
  end.


(** ** CustomConnectorJobsDao ([common/storage/ddb/custom_connector_jobs_dao.py]) *)

Record StartJobRequest := mkStartJobRequest {
  sj_tenant_context : TenantContext;
  sj_connector_id : string;
  sj_environment : list (string * string)
}.

Record StartJobResponse := mkStartJobResponse {
  sr_job_id : string;
  sr_connector_id : string;
  sr_status : JobStatus;
  sr_created_at : string
}.

Record UpdateJobStatusRequest := mkUpdateJobStatusRequest {
  uj_tenant_context : TenantContext;
  uj_connector_id : string;
  uj_job_id : string;
  uj_status : JobStatus;
  uj_batch_job_id : option string
}.

(** [_TTL_DAYS_AFTER_STOP] *)
Definition _TTL_DAYS_AFTER_STOP : Z := 7.

(** [timedelta(days=d)] in seconds *)
Definition days_in_seconds (d : Z) : Z := d * 86400.

(** [str(n)] of an integer *)
Definition str (n : Z) : string := NilZero.string_of_int (Z.to_int n).

Definition fresh_uuid : M string := fun o st => (Return (uuid4 o (tick st)), st).

Definition _verify_connector_exists (tenant_context : TenantContext) (connector_id : string)
    : M unit :=
  try_except
    (get_connector (mkGetConnectorRequest tenant_context connector_id) ;;; ret tt)
    (fun e => match e with
              | ConnectorDaoNotFoundError => raise DaoResourceNotFoundError
              | ConnectorDaoInternalError => raise DaoInternalError
              | _ => raise e
              end).

Definition start_job (request : StartJobRequest) : M StartJobResponse :=
  (* Step 1: verify existence and availability *)
  connector_info <-
    try_except
      (get_connector (mkGetConnectorRequest (sj_tenant_context request) (sj_connector_id request)))
      (fun e => match e with
                | ConnectorDaoNotFoundError => raise DaoResourceNotFoundError
                | ConnectorDaoInternalError => raise DaoInternalError
                | _ => raise e
                end) ;;
  if negb (bool_decide (r_status connector_info = AVAILABLE))
  then raise DaoConflictError
  else
    (* Step 2: mark connector as IN_USE *)
    try_except
      (update_connector_status
         (mkUpdateConnectorStatusRequest (sj_tenant_context request) (sj_connector_id request) IN_USE))
      (fun e => match e with
                | ConnectorDaoNotFoundError => raise DaoResourceNotFoundError
                | ConnectorDaoInternalError => raise DaoInternalError
                | _ => raise e
                end) ;;;
    (* Step 3: insert a new job record *)
    now_dt <- now ;;
    let now_iso := isoformat now_dt in
    hex <- fresh_uuid ;;
    let job_id := "ccj-" +:+ hex in
    let arn_prefix := get_arn_prefix (sj_tenant_context request) in
    let item := mkJobItem (sj_connector_id request) STARTED (sj_environment request)
                  now_iso now_iso None None in
    except_ClientError
      (jobs_put_item (arn_prefix, job_id) item)
      (fun _ =>
         (* roll back connector status to AVAILABLE on failure *)
         try_except
           (update_connector_status
              (mkUpdateConnectorStatusRequest (sj_tenant_context request)
                 (sj_connector_id request) AVAILABLE))
           (fun _ => ret tt) ;;;
         raise DaoInternalError) ;;;
    ret (mkStartJobResponse job_id (sj_connector_id request) STARTED now_iso).

(** The [UpdateExpression] that step 3 of [update_job_status] builds:
    [#status] and [updated_at] always, [batch_job_id] when the request has
    one, [#ttl] when [expires_at] was computed. *)
Definition apply_job_update (status : JobStatus) (updated_at : string)
    (batch_job_id : option string) (ttl : option string) (stored : JobItem) : JobItem :=
  mkJobItem (j_connector_id stored) status (j_environment stored) (j_created_at stored)
    updated_at
    (match batch_job_id with Some b => Some b | None => j_batch_job_id stored end)
    (match ttl with Some t => Some t | None => j_ttl stored end).

Definition update_job_status (request : UpdateJobStatusRequest) : M unit :=
  (* Step 1: verify existence *)
  _verify_connector_exists (uj_tenant_context request) (uj_connector_id request) ;;;
  let arn_prefix := get_arn_prefix (uj_tenant_context request) in
  let key := (arn_prefix, uj_job_id request) in
  (* Step 2: retrieve current job status *)
  response <- except_ClientError (jobs_get_item key) (fun _ => raise DaoInternalError) ;;
  match response with
  | None => raise DaoResourceNotFoundError
  | Some item =>
      let current_status := j_status item in
      if bool_decide (current_status = STOPPED) || bool_decide (current_status = FAILED)
      then raise DaoConflictError
      else
        (* Step 3: apply update *)
        now_dt <- now ;;
        let now_iso := isoformat now_dt in
        let '(ttl, mark_available) :=
          match uj_status request with
          | STOPPED | FAILED | SUCCEEDED =>
              let expires_at := epoch now_dt + days_in_seconds _TTL_DAYS_AFTER_STOP in
              (Some (str expires_at), true)
          | _ => (None, false)
          end in
        except_ClientError
          (jobs_update_item key
             (apply_job_update (uj_status request) now_iso (uj_batch_job_id request) ttl))
          (fun code =>
             if String.eqb code ConditionalCheckFailedException
             then raise DaoResourceNotFoundError
             else raise DaoInternalError) ;;;
        (* Step 4: if terminal, mark connector AVAILABLE *)
        if mark_available
        then
          try_except
            (update_connector_status
               (mkUpdateConnectorStatusRequest (uj_tenant_context request)
                  (uj_connector_id request) AVAILABLE))
            (fun e => match e with
                      | ConnectorDaoNotFoundError => ret tt
                      | ConnectorDaoInternalError => raise DaoInternalError
                      | _ => raise e
                      end)
        else ret tt
  end.

(** ** [TenantContext.from_arn_prefix]

    [re.match(r"arn:aws:ccf:([^:]+):(\d+)", arn_prefix)]: the literal head, a
    non-empty run of characters other than a colon, a colon, and a non-empty
    run of decimal digits; what follows the digits is not looked at.

    A [string] holds the UTF-8 encoding of the Python [str].  The pattern is
    a [str] pattern, so [\d] matches every decimal digit of Unicode
    (category Nd), not only [0-9]; which code points above ASCII are such
    digits is a matter of the Unicode database of the Python runtime. *)

Class UnicodeData := {
  (* unicodedata.category(chr(code_point)) == "Nd", asked for code points
     above ASCII *)
  is_decimal : N -> bool
}.

Fixpoint span (p : ascii -> bool) (s : string) : string * string :=
  match s with
  | EmptyString => (EmptyString, EmptyString)
  | String c rest =>
      if p c
      then let '(taken, remaining) := span p rest in (String c taken, remaining)
      else (EmptyString, s)
  end.

Fixpoint strip_prefix (p s : string) : option string :=
  match p, s with
  | EmptyString, _ => Some s
  | String a p', String b s' => if Ascii.eqb a b then strip_prefix p' s' else None
  | String _ _, EmptyString => None
  end.

(** [\d] on a code point. *)
Definition is_digit `{UnicodeData} (code_point : N) : bool :=
  if (code_point <? 128)%N
  then (48 <=? code_point)%N && (code_point <=? 57)%N
  else is_decimal code_point.

Definition byte (c : ascii) : N := N_of_ascii c.

(** A byte [10xxxxxx], which continues a code point. *)
Definition continuation (c : ascii) : bool := (128 <=? byte c)%N && (byte c <? 192)%N.

(** [(\d+)] without its demand for one digit at least: the longest run of
    decimal digits at the head of the text, code point by code point (one
    to four bytes each), and what follows it. *)
Fixpoint span_digits `{UnicodeData} (s : string) : string * string :=
  match s with
  | EmptyString => (EmptyString, EmptyString)
  | String b0 r0 =>
      let stop := (EmptyString, s) in
      if (byte b0 <? 128)%N then
        if is_digit (byte b0)
        then let '(taken, remaining) := span_digits r0 in (String b0 taken, remaining)
        else stop
      else if (byte b0 <? 194)%N then stop
      else if (byte b0 <? 224)%N then
        match r0 with
        | String b1 r1 =>
            if continuation b1 && is_digit ((byte b0 - 192) * 64 + (byte b1 - 128))%N
            then let '(taken, remaining) := span_digits r1 in
                 (String b0 (String b1 taken), remaining)
            else stop
        | _ => stop
        end
      else if (byte b0 <? 240)%N then
        match r0 with
        | String b1 (String b2 r2) =>
            if continuation b1 && continuation b2
               && is_digit (((byte b0 - 224) * 64 + (byte b1 - 128)) * 64 + (byte b2 - 128))%N
            then let '(taken, remaining) := span_digits r2 in
                 (String b0 (String b1 (String b2 taken)), remaining)
            else stop
        | _ => stop
        end
      else
        match r0 with
        | String b1 (String b2 (String b3 r3)) =>
            if continuation b1 && continuation b2 && continuation b3
               && is_digit ((((byte b0 - 240) * 64 + (byte b1 - 128)) * 64 + (byte b2 - 128)) * 64
                            + (byte b3 - 128))%N
            then let '(taken, remaining) := span_digits r3 in
                 (String b0 (String b1 (String b2 (String b3 taken))), remaining)
            else stop
        | _ => stop
        end
  end.

Definition match_arn_prefix `{UnicodeData} (arn_prefix : string) : option TenantContext :=
  match strip_prefix "arn:aws:ccf:" arn_prefix with
  | None => None
  | Some rest =>
      match span (fun c => negb (Ascii.eqb c ":")) rest with
      | (String c r, String _ after) =>
          match span_digits after with
          | (String d a, _) => Some (mkTenant (String d a) (String c r))
          | (EmptyString, _) => None
          end
      | _ => None
      end
  end.

Definition from_arn_prefix `{UnicodeData} (arn_prefix : string) : M TenantContext :=
  match match_arn_prefix arn_prefix with
  | None => raise BadRequestError
  | Some tenant_context => ret tenant_context
  end.

(** ** Job orchestrator ([job_orchestrator_handler.py]) *)

(** The [new_image] of a stream record of the jobs table; every attribute is
    read with [new_image.get]. *)
Record JobImage := mkJobImage {
  img_job_id : option string;
  img_connector_id : option string;
  img_custom_connector_arn_prefix : option string;
  img_status : option string;
  img_batch_job_id : option string;
  img_environment : option (list (string * string))
}.

Record DynamoDBRecord := mkDynamoDBRecord {
  new_image : option JobImage
}.

Record JobStartContext := mkJobStartContext {
  ctx_job_id : string;
  ctx_connector_id : string;
  ctx_custom_connector_arn_prefix : string;
  ctx_environment : list (string * string);
  ctx_tenant_context : TenantContext
}.

Definition getenv_api_endpoint : M string := fun o st => (Return (CUSTOM_CONNECTOR_API_ENDPOINT o), st).
Definition getenv_job_queue : M string := fun o st => (Return (AWS_BATCH_JOB_QUEUE o), st).

Definition register_job_definition (d : JobDefinition) : M string := fun o st =>
  let st1 := enter o st in
  let st2 := mkSt (tick st1) (tables st1) (effects st1 ++ [RegisterJobDefinition d]) in
  match register_response o (tick st) with
  | Some job_definition_arn => (Return job_definition_arn, st2)
  | None => (Raise BatchError, st2)
  end.

Definition submit_job (job_name job_queue job_definition : string) (attempt_seconds : Z)
    : M string := fun o st =>
  let st1 := enter o st in
  let st2 := mkSt (tick st1) (tables st1)
               (effects st1 ++ [SubmitJob job_name job_definition attempt_seconds]) in
  match submit_response o (tick st) with
  | Some job_id => (Return job_id, st2)
  | None => (Raise BatchError, st2)
  end.

Definition cancel_job (batch_job_id : string) : M unit := fun o st =>
  let st1 := enter o st in
  let st2 := mkSt (tick st1) (tables st1) (effects st1 ++ [CancelJob batch_job_id]) in
  if cancel_response o (tick st) then (Return tt, st2) else (Raise BatchError, st2).

Definition handle_job_start (context : JobStartContext) : M unit :=
  try_except
    ((* get connector details *)
     connector <- get_connector
                    (mkGetConnectorRequest (ctx_tenant_context context) (ctx_connector_id context)) ;;
     let container_props := r_container_properties connector in
     api_endpoint <- getenv_api_endpoint ;;
     let environment :=
       ([ ("CUSTOM_CONNECTOR_JOB_ID", ctx_job_id context);
         ("CUSTOM_CONNECTOR_FRAMEWORK_CUSTOM_CONNECTOR_ID", ctx_connector_id context);
         ("CUSTOM_CONNECTOR_FRAMEWORK_CUSTOM_CONNECTOR_ARN", r_arn connector);
         ("CUSTOM_CONNECTOR_FRAMEWORK_CUSTOM_CONNECTOR_ARN_PREFIX",
          ctx_custom_connector_arn_prefix context);
         ("AWS_REGION", region (ctx_tenant_context context));
         ("CUSTOM_CONNECTOR_FRAMEWORK_API_ENDPOINT", api_endpoint) ]
       ++ ctx_environment context)%list in
     (* register job definition *)
     job_definition_arn <-
       register_job_definition
         (mkJobDefinition (ctx_job_id context) (image_uri container_props)
            (execution_role_arn container_props) (job_role_arn container_props)
            environment
            (cpu (resource_requirements container_props))
            (memory (resource_requirements container_props))) ;;
     job_queue <- getenv_job_queue ;;
     batch_job_id <-
       submit_job (ctx_job_id context) job_queue job_definition_arn (timeout container_props) ;;
     (* update job status to RUNNING with batch job id *)
     update_job_status
       (mkUpdateJobStatusRequest (ctx_tenant_context context) (ctx_connector_id context)
          (ctx_job_id context) RUNNING (Some batch_job_id)))
    (fun _ =>
       try_except
         (update_job_status
            (mkUpdateJobStatusRequest (ctx_tenant_context context) (ctx_connector_id context)
               (ctx_job_id context) FAILED None) ;;;
          update_connector_status
            (mkUpdateConnectorStatusRequest (ctx_tenant_context context)
               (ctx_connector_id context) AVAILABLE))
         (fun _ => ret tt)).

Definition handle_job_stop (job_id connector_id : string) (batch_job_id : option string)
    (tenant_context : TenantContext) : M unit :=
  match batch_job_id with
  | Some (String c b) =>
      let batch_job_id := String c b in
      try_except
        (cancel_job batch_job_id)
        (fun _ =>
           try_except
             (update_job_status
                (mkUpdateJobStatusRequest tenant_context connector_id job_id FAILED
                   (Some batch_job_id)) ;;;
              update_connector_status
                (mkUpdateConnectorStatusRequest tenant_context connector_id AVAILABLE))
             (fun _ => ret tt))
  | _ => ret tt
  end.

Definition record_handler `{UnicodeData} (record : DynamoDBRecord) : M unit :=
  match new_image record with
  | None => ret tt
  | Some new_image =>
      let job_id := img_job_id new_image in
      let connector_id := img_connector_id new_image in
      let custom_connector_arn_prefix := img_custom_connector_arn_prefix new_image in
      let status := img_status new_image in
      let batch_job_id := img_batch_job_id new_image in
      let environment := default [] (img_environment new_image) in
      match job_id, connector_id, custom_connector_arn_prefix, status with
      | Some (String a1 s1), Some (String a2 s2), Some (String a3 s3), Some (String a4 s4) =>
          let job_id := String a1 s1 in
          let connector_id := String a2 s2 in
          let custom_connector_arn_prefix := String a3 s3 in
          let status := String a4 s4 in
          tenant_context <- from_arn_prefix custom_connector_arn_prefix ;;
          (* handle job based on status *)
          if String.eqb status (JobStatus_value STARTED)
          then handle_job_start
                 (mkJobStartContext job_id connector_id custom_connector_arn_prefix
                    environment tenant_context)
          else if String.eqb status (JobStatus_value STOPPING)
          then handle_job_stop job_id connector_id batch_job_id tenant_context
          else ret tt
      | _, _, _, _ =>
          (* not all([job_id, connector_id, custom_connector_arn_prefix, status]) *)
          ret tt
      end
  end.

(** ** External completion handler ([job_status_handler.py]) *)

Record BatchEventDetail := mkBatchEventDetail {
  ev_jobName : option string;
  ev_status : option string;
  ev_container_environment : list (string * string)
}.

(** [{item["name"]: item["value"] for item in container_env}]: a later entry
    replaces an earlier one of the same name. *)
Definition env_dict (container_env : list (string * string)) : gmap string string :=
  fold_left (fun env item => <[item.1 := item.2]> env) container_env ∅.

(** Lines 66-76 of [process_batch_event]: the job status a batch status is
    mapped to, given the status the handler has just read for the job. *)
Definition map_batch_status (batch_job_status : string) (current_status : option JobStatus)
    : option JobStatus :=
  if String.eqb batch_job_status "SUCCEEDED" then Some SUCCEEDED
  else if String.eqb batch_job_status "FAILED"
  then if bool_decide (current_status = Some STOPPING) then Some STOPPED else Some FAILED
  else None.

Definition process_batch_event `{UnicodeData} (event_detail : BatchEventDetail) : M unit :=
  match ev_jobName event_detail, ev_status event_detail with
  | Some (String c n), Some batch_job_status =>
      let batch_job_id := String c n in
      if negb (String.eqb batch_job_status "SUCCEEDED" || String.eqb batch_job_status "FAILED")
      then ret tt
      else
        let env := env_dict (ev_container_environment event_detail) in
        let connector_id := env !! "CUSTOM_CONNECTOR_FRAMEWORK_CUSTOM_CONNECTOR_ID" in
        let connector_arn_prefix := env !! "CUSTOM_CONNECTOR_FRAMEWORK_CUSTOM_CONNECTOR_ARN_PREFIX" in
        match connector_arn_prefix with
        | None => raise TypeError
        | Some connector_arn_prefix =>
            tenant_context <- from_arn_prefix connector_arn_prefix ;;
            (* get the current job status to check if it was in STOPPING state *)
            job_item <- jobs_get_item (connector_arn_prefix, batch_job_id) ;;
            let current_status := j_status <$> job_item in
            match map_batch_status batch_job_status current_status with
            | None => ret tt
            | Some job_status =>
                match connector_id with
                | None => raise ValidationError
                | Some connector_id =>
                    update_job_status
                      (mkUpdateJobStatusRequest tenant_context connector_id batch_job_id
                         job_status (Some batch_job_id)) ;;;
                    (* make connector available again *)
                    update_connector_status
                      (mkUpdateConnectorStatusRequest tenant_context connector_id AVAILABLE)
                end
            end
        end
  | _, _ => ret tt
  end.

(** ** Documents ([models/document.py], [models/qbusiness.py]) *)

Inductive AccessType := ALLOW | DENY.
Inductive MembershipType := INDEX | DATASOURCE.
Inductive MemberRelation := AND | OR.

Record PrincipalUser := mkPrincipalUser {
  pu_access : AccessType;
  pu_id : option string;
  pu_membership_type : option MembershipType
}.

Record PrincipalGroup := mkPrincipalGroup {
  pg_access : AccessType;
  pg_name : option string;
  pg_membership_type : option MembershipType
}.

Record Principal := mkPrincipal {
  p_user : option PrincipalUser;
  p_group : option PrincipalGroup
}.

Record AccessControl := mkAccessControl {
  member_relation : MemberRelation;
  principals : list Principal
}.

(** [attributes] is a dict: what the code does with it (equality, sorted
    JSON dump) depends on the mapping only, so it is a finite map here. *)
Record DocumentMetadata := mkDocumentMetadata {
  title : string;
  source_uri : option string;
  last_updated_at : string;
  created_at : string;
  attributes : gmap string string;
  access_control_list : list AccessControl
}.

Record DocumentFile := mkDocumentFile {
  file_path : string
}.

Record Document := mkDocument {
  id : string;
  file : DocumentFile;
  metadata : DocumentMetadata
}.

(** JSON values, as [json.loads] returns them. *)
#[local] Set Warnings "-register-all".
Inductive json :=
| JNull
| JString (s : string)
| JArray (items : list json)
| JObject (members : list (string * json)).

(** A field of a model dump under [exclude_none=True]: present when it has a
    value. *)
Definition field (name : string) (value : option json) : list (string * json) :=
  match value with
  | Some v => [(name, v)]
  | None => []
  end.

Definition dump_AccessType (a : AccessType) : json :=
  JString (match a with ALLOW => "ALLOW" | DENY => "DENY" end).

Definition dump_MembershipType (m : MembershipType) : json :=
  JString (match m with INDEX => "INDEX" | DATASOURCE => "DATASOURCE" end).

Definition dump_MemberRelation (r : MemberRelation) : json :=
  JString (match r with AND => "AND" | OR => "OR" end).

Definition dump_PrincipalUser (u : PrincipalUser) : json :=
  JObject (field "access" (Some (dump_AccessType (pu_access u)))
           ++ field "id" (JString <$> pu_id u)
           ++ field "membership_type" (dump_MembershipType <$> pu_membership_type u))%list.

Definition dump_PrincipalGroup (g : PrincipalGroup) : json :=
  JObject (field "access" (Some (dump_AccessType (pg_access g)))
           ++ field "name" (JString <$> pg_name g)
           ++ field "membership_type" (dump_MembershipType <$> pg_membership_type g))%list.

Definition dump_Principal (p : Principal) : json :=
  JObject (field "user" (dump_PrincipalUser <$> p_user p)
           ++ field "group" (dump_PrincipalGroup <$> p_group p))%list.

Definition dump_AccessControl (a : AccessControl) : json :=
  JObject (field "member_relation" (Some (dump_MemberRelation (member_relation a)))
           ++ field "principals" (Some (JArray (dump_Principal <$> principals a))))%list.

(** The fields of [DocumentMetadata], in declaration order, each with its
    dumped value ([None] for a Python [None]). *)
Definition metadata_fields (m : DocumentMetadata) : list (string * option json) :=
  [ ("title", Some (JString (title m)));
    ("source_uri", JString <$> source_uri m);
    ("last_updated_at", Some (JString (last_updated_at m)));
    ("created_at", Some (JString (created_at m)));
    ("attributes",
     Some (JObject ((fun kv : string * string => (kv.1, JString kv.2))
                      <$> map_to_list (attributes m))));
    ("access_control_list", Some (JArray (dump_AccessControl <$> access_control_list m))) ].

(** [json.loads(self.metadata.model_dump_json(exclude=..., exclude_none=True))] *)
Definition model_dump_json (m : DocumentMetadata) (exclude : list string) : json :=
  JObject
    (flat_map (fun f : string * option json =>
                 if bool_decide (f.1 ∈ exclude) then [] else field f.1 f.2)
       (metadata_fields m)).

(** What the builder kit takes from its platform: the hash and JSON
    libraries, the local file system and content-type sniffing, the S3
    configuration.  File contents are kept abstract ([Bytes] with a size). *)
Record Platform := mkPlatform {
  Bytes : Type;
  size_of : Bytes -> Z;
  (* open(path, "rb").read() *)
  read_bytes : string -> Bytes;
  (* Path(path).suffix *)
  suffix : string -> string;
  (* hashlib.sha256(b).hexdigest() of file contents *)
  sha256_file : Bytes -> string;
  (* hashlib.sha256(s.encode()).hexdigest() *)
  sha256_text : string -> string;
  (* json.dumps(v, sort_keys=True) *)
  json_dumps_sorted : json -> string;
  (* DocumentFile.infer_content_type: the content type, or
     UnsupportedDocumentError *)
  infer_content_type : DocumentFile -> option string;
  (* the bucket, when both an S3 client and a bucket are configured *)
  s3_bucket : option string;
  (* does put_object of this key succeed *)
  s3_put_object : string -> bool
}.

(** [DocumentFile.get_size] *)
Definition get_size (P : Platform) (f : DocumentFile) : Z :=
  size_of P (read_bytes P (file_path f)).

(** [Document.get_checksum] *)
Definition get_checksum (P : Platform) (doc : Document) : string :=
  let metadata :=
    json_dumps_sorted P (model_dump_json (metadata doc) ["last_updated_at"; "created_at"]) in
  let data := id doc +:+ "+" +:+ metadata in
  let data := data +:+ "+" +:+ sha256_file P (read_bytes P (file_path (file doc))) in
  sha256_text P data.

(** ** The checksum ledger as the client sees it ([ccf_client.py]) *)

Record CCFDocument := mkCCFDocument {
  document_id : string;
  checksum : string;
  ccf_created_at : string;
  ccf_updated_at : string
}.

(** [range(i, stop, step)] for a positive step; [fuel] bounds the number of
    elements. *)
Fixpoint range_from (fuel i stop step : nat) : list nat :=
  match fuel with
  | O => []
  | S fuel => if (i <? stop)%nat then i :: range_from fuel (i + step) stop step else []
  end.

(** [range(0, stop, step)] *)
Definition range0 (stop step : nat) : list nat := range_from stop 0 stop step.

Definition BATCH_PUT_DOCUMENT_MAX_SIZE : nat := 10.
Definition BATCH_DELETE_DOCUMENT_MAX_SIZE : nat := 10.

(** The slices [documents[i : i + size]] for [i] in
    [range(0, len(documents), size)]. *)
Definition slices {A} (size : nat) (documents : list A) : list (list A) :=
  (fun i => take size (drop i documents)) <$> range0 (length documents) size.

(** [CCFClient.batch_put_documents]: the document lists of the requests it
    makes, in order, for the items of [document_checksums]. *)
Definition ccf_put_requests (document_checksums : list (string * string))
    : list (list (string * string)) :=
  slices BATCH_PUT_DOCUMENT_MAX_SIZE document_checksums.

(** [CCFClient.batch_delete_documents]: the id lists of the requests it
    makes, in order. *)
Definition ccf_delete_requests (document_ids : list string) : list (list string) :=
  slices BATCH_DELETE_DOCUMENT_MAX_SIZE document_ids.

(** [batch_put_documents] of the documents DAO, which serves one request
    of the client: every document of the request is put as a whole item,
    stamped with the time of that call. *)
Definition dao_batch_put_documents (now_iso : string) (documents : list (string * string))
    (ledger : gmap string CCFDocument) : gmap string CCFDocument :=
  fold_left (fun l doc => <[doc.1 := mkCCFDocument doc.1 doc.2 now_iso now_iso]> l)
    documents ledger.

(** The requests of [CCFClient.batch_put_documents] one after the other,
    the [n]-th served at [clock n]. *)
Fixpoint ccf_put_loop (clock : nat -> string) (n : nat)
    (requests : list (list (string * string))) (ledger : gmap string CCFDocument)
    : gmap string CCFDocument :=
  match requests with
  | [] => ledger
  | batch :: rest => ccf_put_loop clock (S n) rest (dao_batch_put_documents (clock n) batch ledger)
  end.

(** [CCFClient.batch_put_documents] when every call succeeds, on the items
    of [document_checksums] in the order of the dict. *)
Definition ccf_batch_put_documents (clock : nat -> string)
    (document_checksums : list (string * string)) (ledger : gmap string CCFDocument)
    : gmap string CCFDocument :=
  ccf_put_loop clock 0 (ccf_put_requests document_checksums) ledger.

(** [CCFClient.batch_delete_documents] when every call succeeds: request by
    request, the documents DAO deletes the ids of the request. *)
Definition ccf_batch_delete_documents (document_ids : list string)
    (ledger : gmap string CCFDocument) : gmap string CCFDocument :=
  fold_left (fun l batch => fold_left (fun l' doc_id => delete doc_id l') batch l)
    (ccf_delete_requests document_ids) ledger.

(** ** Synchronisation ([custom_connector_interface.py]) *)

Definition PUT_MAX_DOCS : Z := 10.
Definition PUT_MAX_TOTAL_SIZE : Z := 10 * 1024 * 1024.
Definition PUT_MAX_SINGLE_SIZE : Z := 50 * 1024 * 1024.
Definition DELETE_MAX_DOCS : Z := 10.

Inductive DocumentContent (B : Type) :=
| Blob (blob : B)
| S3 (bucket key : string).
Arguments Blob {B} blob.
Arguments S3 {B} bucket key.

Record DocumentAttribute := mkDocumentAttribute {
  da_name : string;
  da_stringValue : option string
}.

Record QBusinessDocument (B : Type) := mkQBusinessDocument {
  q_id : string;
  q_title : string;
  q_contentType : string;
  q_content : DocumentContent B;
  q_attributes : list DocumentAttribute;
  q_accessConfiguration : option (list AccessControl * MemberRelation)
}.
Arguments mkQBusinessDocument {B}.
Arguments q_id {B}.
Arguments q_title {B}.
Arguments q_contentType {B}.
Arguments q_content {B}.
Arguments q_attributes {B}.
Arguments q_accessConfiguration {B}.

(** [{doc.id: doc.get_checksum() for doc in docs}]: a later document
    replaces an earlier one of the same id. *)
Definition checksums_of (P : Platform) (docs : list Document) : gmap string string :=
  fold_left (fun m doc => <[id doc := get_checksum P doc]> m) docs ∅.

(** [d[k] = v] on a dict kept as the list of its items, in the order of
    insertion: a key that is there keeps its place. *)
Fixpoint dict_setitem (d : list (string * string)) (k v : string) : list (string * string) :=
  match d with
  | [] => [(k, v)]
  | (k', v') :: rest =>
      if String.eqb k k' then (k, v) :: rest else (k', v') :: dict_setitem rest k v
  end.

(** [{doc.id: doc.get_checksum() for doc in docs}.items()] *)
Definition checksum_items (P : Platform) (docs : list Document) : list (string * string) :=
  fold_left (fun d doc => dict_setitem d (id doc) (get_checksum P doc)) docs [].

(** The filter of [sync] (lines 130-137): a document is kept when its id is
    not in the ledger or the ledger's checksum differs from
    [current_checksums[doc.id]]. *)
Definition docs_to_sync (P : Platform) (current_docs : list Document)
    (ccf_docs : gmap string CCFDocument) : list Document :=
  let current_checksums := checksums_of P current_docs in
  List.filter
    (fun doc =>
       match ccf_docs !! id doc with
       | None => true
       | Some entry => negb (bool_decide (Some (checksum entry) = current_checksums !! id doc))
       end)
    current_docs.

(** [_handle_large_document] *)
Definition _handle_large_document (P : Platform) (doc : Document) : option (string * string) :=
  match s3_bucket P with
  | None => None
  | Some bucket =>
      let key := "qbusiness-docs/" +:+ id doc +:+ suffix P (file_path (file doc)) in
      if s3_put_object P key then Some (bucket, key) else None
  end.

Inductive Prepared (B : Type) :=
| Raised                                  (* the exception is re-raised *)
| Skipped                                 (* return None *)
| Ready (prepared_doc : QBusinessDocument B).
Arguments Raised {B}.
Arguments Skipped {B}.
Arguments Ready {B} prepared_doc.

(** [_prepare_document_for_upload].  [DocumentContent] demands exactly one
    of [blob] and [s3] by their truth values, so an empty blob, the content
    of an empty file, makes its constructor raise [ValueError]; the method
    logs and re-raises. *)
Definition _prepare_document_for_upload (P : Platform) (doc : Document)
    : Prepared (Bytes P) :=
  match infer_content_type P (file doc) with
  | None => Raised
  | Some content_type =>
      let file_size := get_size P (file doc) in
      if (PUT_MAX_SINGLE_SIZE <? file_size)%Z then Skipped
      else
        let finish (content : DocumentContent (Bytes P)) :=
          let attributes :=
            ([mkDocumentAttribute "_source_uri" (source_uri (metadata doc))]
            ++ (if String.eqb (last_updated_at (metadata doc)) EmptyString then []
                else [mkDocumentAttribute "_last_updated_at"
                        (Some (last_updated_at (metadata doc)))])
            ++ (if String.eqb (created_at (metadata doc)) EmptyString then []
                else [mkDocumentAttribute "_created_at" (Some (created_at (metadata doc)))])
            ++ ((fun kv : string * string => mkDocumentAttribute kv.1 (Some kv.2))
                  <$> map_to_list (attributes (metadata doc))))%list in
          let access_config :=
            match access_control_list (metadata doc) with
            | [] => None
            | acl => Some (acl, AND)
            end in
          Ready (mkQBusinessDocument (id doc) (title (metadata doc)) content_type content
                   attributes access_config) in
        if (PUT_MAX_TOTAL_SIZE <? file_size)%Z
        then
          (* for large documents (>10MB), upload to S3 *)
          match _handle_large_document P doc with
          | None => Skipped
          | Some (bucket, key) => finish (S3 bucket key)
          end
        else
          (* for smaller documents, include content directly *)
          let blob := read_bytes P (file_path (file doc)) in
          if (size_of P blob =? 0)%Z then Raised else finish (Blob blob)
  end.

(** [_batch_put_documents]: the batches handed to
    [_qbusiness_batch_put_documents], in order, and whether the loop ran to
    its end ([false]: an exception of the preparation left it).
    [_qbusiness_batch_put_documents] catches everything, so a dispatch never
    ends the loop. *)
Fixpoint batch_put_loop (P : Platform) (documents : list Document)
    (batch : list (QBusinessDocument (Bytes P))) (size_accumulator : Z)
    : list (list (QBusinessDocument (Bytes P))) * bool :=
  match documents with
  | [] =>
      (* send any remaining documents *)
      (match batch with [] => [] | _ => [batch] end, true)
  | doc :: rest =>
      match _prepare_document_for_upload P doc with
      | Raised => ([], false)
      | Skipped => batch_put_loop P rest batch size_accumulator
      | Ready prepared_doc =>
          let file_size := get_size P (file doc) in
          let batch := (batch ++ [prepared_doc])%list in
          let size_accumulator := size_accumulator + file_size in
          (* send batch when size limits are reached *)
          if (Z.of_nat (length batch) =? PUT_MAX_DOCS)%Z
             || (PUT_MAX_TOTAL_SIZE <=? size_accumulator)%Z
          then
            let '(sent, finished) := batch_put_loop P rest [] 0 in
            (batch :: sent, finished)
          else batch_put_loop P rest batch size_accumulator
      end
  end.

Definition _batch_put_documents (P : Platform) (documents : list Document)
    : list (list (QBusinessDocument (Bytes P))) * bool :=
  batch_put_loop P documents [] 0.

(** The ledger a run of [sync] with a CCF client leaves when every call of
    a service succeeds: the selected documents are uploaded and their
    checksums put, request by request; then the ids of the delete list are
    removed.  An exception of the upload loop ends the run before the
    ledger is touched. *)
Definition sync_ledger (P : Platform) (clock : nat -> string) (documents_to_add : list Document)
    (documents_to_delete : list string) (ledger : gmap string CCFDocument)
    : gmap string CCFDocument :=
  let current_docs := docs_to_sync P documents_to_add ledger in
  let delete ledger :=
    match documents_to_delete with
    | [] => ledger
    | _ => ccf_batch_delete_documents documents_to_delete ledger
    end in
  match current_docs with
  | [] => delete ledger
  | _ =>
      if (_batch_put_documents P current_docs).2
      then delete (ccf_batch_put_documents clock (checksum_items P current_docs) ledger)
      else ledger
  end.

(** The inline payload of a dispatched batch: the bytes of its blobs. *)
Definition payload_size (P : Platform) (batch : list (QBusinessDocument (Bytes P))) : Z :=
  fold_right (fun d acc =>
                match q_content d with
                | Blob b => size_of P b + acc
                | S3 _ _ => acc
                end) 0 batch.

(** ** Vocabulary of the properties *)

(** The version-checked write every mutation of a connector ends in. *)
Definition locked_write (k : Key) (cv : Z) (upd : ConnectorItem -> ConnectorItem) : M unit :=
  except_ClientError (connectors_write_item k (version_is cv) upd) conflict_or_internal.


(** The update a mutation hands to its conditional write, given the item
    it has read. *)
Definition mutation_update (m : ConnectorMutation) (now_iso : string) (item : ConnectorItem)
    : ConnectorItem -> ConnectorItem :=
  let new_version := default 1 (c_version item) + 1 in
  match m with
  | UpdateConnectorStatus q => fun stored =>
      with_updated_at (with_version (with_status stored (ucs_status q)) new_version) now_iso
  | UpdateConnector q => fun _ =>
      let item := match uc_name q with Some n => with_name item n | None => item end in
      let item := match uc_description q with Some d => with_description item d | None => item end in
      let item := match uc_container_properties q with
                  | Some p => with_container_properties item p
                  | None => item
                  end in
      with_version (with_updated_at item now_iso) new_version
  | PutCheckpoint q => fun stored =>
      with_updated_at
        (with_version
           (with_checkpoint stored (Some (mkCheckpoint (pc_checkpoint_data q) now_iso now_iso)))
           new_version)
        now_iso
  | DeleteCheckpoint q => fun stored =>
      with_updated_at (with_version (with_checkpoint stored None) new_version) now_iso
  end.


(** The connector lookup that opens [update_job_status] and [start_job]
    succeeds: the call goes through, the connector is there and its stored
    container properties pass validation. *)
Definition connector_found (o : Oracle) (st : St) (k : Key) : Prop :=
  fault o (tick st) = None /\
  exists item props,
    connectors (interfere o (tick st) (tables st)) !! k = Some item /\
    model_validate (c_container_properties item) = Some props.

(** ** Sample data

    An environment in which nothing else happens and every call succeeds,
    a tenant, and a well-formed connector, used to run the model. *)

Definition quiet : Oracle :=
  mkOracle (fun _ w => w) (fun _ => None)
    (fun _ => mkTimestamp "2025-01-01T00:00:00+00:00" 1735689600)
    (fun _ => "0123456789ab") (fun _ => Some "arn:jobdef") (fun _ => Some "batch-1")
    (fun _ => true) "queue" "https://api".

(** The decimal digits above ASCII as the Unicode database of Python 3.11
    has them (Unicode 14.0), as ranges of code points. *)
Definition Nd_above_ascii : list (N * N) :=
  [(1632, 1641); (1776, 1785); (1984, 1993); (2406, 2415); (2534, 2543); (2662, 2671);
    (2790, 2799); (2918, 2927); (3046, 3055); (3174, 3183); (3302, 3311); (3430, 3439);
    (3558, 3567); (3664, 3673); (3792, 3801); (3872, 3881); (4160, 4169); (4240, 4249);
    (6112, 6121); (6160, 6169); (6470, 6479); (6608, 6617); (6784, 6793); (6800, 6809);
    (6992, 7001); (7088, 7097); (7232, 7241); (7248, 7257); (42528, 42537);
    (43216, 43225); (43264, 43273); (43472, 43481); (43504, 43513); (43600, 43609);
    (44016, 44025); (65296, 65305); (66720, 66729); (68912, 68921); (69734, 69743);
    (69872, 69881); (69942, 69951); (70096, 70105); (70384, 70393); (70736, 70745);
    (70864, 70873); (71248, 71257); (71360, 71369); (71472, 71481); (71904, 71913);
    (72016, 72025); (72784, 72793); (73040, 73049); (73120, 73129); (92768, 92777);
    (92864, 92873); (93008, 93017); (120782, 120831); (123200, 123209); (123632, 123641);
    (125264, 125273); (130032, 130041) ]%N.

#[global] Instance unicode_14_0 : UnicodeData :=
  {| is_decimal code_point :=
       existsb (fun r : N * N => (r.1 <=? code_point)%N && (code_point <=? r.2)%N)
         Nd_above_ascii |}.

Definition tenant0 : TenantContext := mkTenant "123456789012" "us-east-1".

Definition prefix0 : string := "arn:aws:ccf:us-east-1:123456789012".

Definition props0 : ContainerProperties :=
  mkContainerProperties "arn:role" "uri" "arn:job" (mkResourceRequirements "1" 2048) 3600.

Definition connector0 : ConnectorItem :=
  mkConnectorItem "arn:aws:ccf:us-east-1:123456789012:custom-connector/cc-1" "test" None
    (model_dump props0) AVAILABLE "2024-12-31T00:00:00+00:00" "2024-12-31T00:00:00+00:00"
    (Some 1) None.

Definition job0 (status : JobStatus) : JobItem :=
  mkJobItem "cc-1" status [] "2024-12-31T00:00:00+00:00" "2024-12-31T00:00:00+00:00" None None.

(** One connector [cc-1] in the given status and one job [ccj-1] of it. *)
Definition world0 (c : ConnectorStatus) (j : JobStatus) : St :=
  mkSt 0
    (mkTables {[ (prefix0, "cc-1") := with_status connector0 c ]}
              {[ (prefix0, "ccj-1") := job0 j ]})
    [].

(** Another invocation writes the connector (version 5) between the first
    and the second storage call. *)
Definition racing : Oracle :=
  mkOracle
    (fun n w =>
       if Nat.eqb n 1
       then set_connectors w (<[(prefix0, "cc-1") := with_version connector0 5]> (connectors w))
       else w)
    (fault quiet) (clock quiet) (uuid4 quiet) (register_response quiet)
    (submit_response quiet) (cancel_response quiet)
    (AWS_BATCH_JOB_QUEUE quiet) (CUSTOM_CONNECTOR_API_ENDPOINT quiet).

(** The job [ccj-1] in the given status, its connector deleted. *)
Definition orphan0 (j : JobStatus) : St :=
  mkSt 0 (mkTables ∅ {[ (prefix0, "ccj-1") := job0 j ]}) [].

(** Two connectors in use, [cc-1] and [cc-2], and the job [ccj-1], which
    belongs to [cc-1]. *)
Definition world_two (j : JobStatus) : St :=
  mkSt 0
    (mkTables {[ (prefix0, "cc-1") := with_status connector0 IN_USE;
                 (prefix0, "cc-2") :=
                   mkConnectorItem "arn:aws:ccf:us-east-1:123456789012:custom-connector/cc-2"
                     "other" None (model_dump props0) IN_USE "2024-12-31T00:00:00+00:00"
                     "2024-12-31T00:00:00+00:00" (Some 1) None ]}
              {[ (prefix0, "ccj-1") := job0 j ]})
    [].


(** Another invocation deletes the connector before the fourth storage
    call. *)
Definition vanishing : Oracle :=
  mkOracle
    (fun n w =>
       if Nat.eqb n 3
       then set_connectors w (delete (prefix0, "cc-1") (connectors w))
       else w)
    (fault quiet) (clock quiet) (uuid4 quiet) (register_response quiet)
    (submit_response quiet) (cancel_response quiet)
    (AWS_BATCH_JOB_QUEUE quiet) (CUSTOM_CONNECTOR_API_ENDPOINT quiet).

(** Whatever an operation adds to the record of effects satisfies [P]. *)
Definition emits {A} (P : Effect -> Prop) (m : M A) : Prop :=
  forall o st, exists l, effects (m o st).2 = (effects st ++ l)%list /\ Forall P l.

(** A job write carries the given status; other effects are not
    constrained. *)
Definition job_written_as (s : JobStatus) (e : Effect) : Prop :=
  match e with
  | JobWritten _ post => j_status post = s
  | _ => True
  end.

(** No effect is a write of the jobs table. *)
Definition not_a_job_write (e : Effect) : Prop :=
  match e with
  | JobWritten _ _ => False
  | _ => True
  end.

(** A completion notification of the batch service for job [ccj-1]: the
    container failed. *)
Definition completion0 : BatchEventDetail :=
  mkBatchEventDetail (Some "ccj-1") (Some "FAILED")
    [ ("CUSTOM_CONNECTOR_JOB_ID", "ccj-1");
      ("CUSTOM_CONNECTOR_FRAMEWORK_CUSTOM_CONNECTOR_ID", "cc-1");
      ("CUSTOM_CONNECTOR_FRAMEWORK_CUSTOM_CONNECTOR_ARN_PREFIX", prefix0) ].

(** A stream record of the jobs table whose new image carries the given
    status for job [ccj-1] of connector [cc-1]. *)
Definition record0 (status : string) : DynamoDBRecord :=
  mkDynamoDBRecord
    (Some (mkJobImage (Some "ccj-1") (Some "cc-1") (Some prefix0) (Some status) None (Some []))).

(** A platform whose files are known by their size only: every file holds 6
    MiB, every content type is recognised, S3 is not configured.  The hash of
    a text is the text itself, every file hashes to [f] and every JSON value
    prints as [{}]. *)
Definition platform0 : Platform :=
  mkPlatform Z (fun b => b) (fun _ => 6 * 1024 * 1024) (fun _ => ".txt")
    (fun _ => "f") (fun s => s) (fun _ => "{}") (fun _ => Some "PLAIN_TEXT") None
    (fun _ => false).

(** The same platform with every file empty. *)
Definition platform_empty : Platform :=
  mkPlatform Z (fun b => b) (fun _ => 0) (fun _ => ".txt")
    (fun _ => "f") (fun s => s) (fun _ => "{}") (fun _ => Some "PLAIN_TEXT") None
    (fun _ => false).

(** The file of document [b] is empty, every other file has 6 MiB. *)
Definition platform_mixed : Platform :=
  mkPlatform Z (fun b => b)
    (fun path => if String.eqb path "/tmp/b.txt" then 0 else 6 * 1024 * 1024)
    (fun _ => ".txt") (fun _ => "f") (fun s => s) (fun _ => "{}")
    (fun _ => Some "PLAIN_TEXT") None (fun _ => false).

Definition document0 (doc_id : string) : Document :=
  mkDocument doc_id (mkDocumentFile ("/tmp/" +:+ doc_id +:+ ".txt"))
    (mkDocumentMetadata doc_id None "2025-01-01T00:00:00+00:00" "2025-01-01T00:00:00+00:00" ∅ []).

(** [document0] touched later: only the timestamps differ. *)
Definition document0_touched (doc_id : string) : Document :=
  mkDocument doc_id (mkDocumentFile ("/tmp/" +:+ doc_id +:+ ".txt"))
    (mkDocumentMetadata doc_id None "2025-06-30T12:00:00+00:00" "2025-06-30T12:00:00+00:00" ∅ []).

(** A ledger in which [a] and [b] are recorded with the checksum
    [platform0] gives every document. *)
Definition ledger0 : gmap string CCFDocument :=
  {[ "a" := mkCCFDocument "a" "a+{}+f" "2025-01-01T00:00:00+00:00" "2025-01-01T00:00:00+00:00";
     "b" := mkCCFDocument "b" "b+{}+f" "2025-01-01T00:00:00+00:00" "2025-01-01T00:00:00+00:00" ]}.

(** ** More of the connectors DAO *)

Record CreateConnectorRequest := mkCreateConnectorRequest {
  cr_tenant_context : TenantContext;
  cr_name : string;
  cr_description : option string;
  cr_container_properties : ContainerProperties
}.

Record CreateConnectorResponse := mkCreateConnectorResponse {
  crr_connector_id : string;
  crr_arn : string;
  crr_name : string;
  crr_created_at : string;
  crr_updated_at : string;
  crr_status : ConnectorStatus;
  crr_version : Z
}.

Record DeleteConnectorRequest := mkDeleteConnectorRequest {
  del_tenant_context : TenantContext;
  del_connector_id : string
}.

Record GetCheckpointRequest := mkGetCheckpointRequest {
  gcp_tenant_context : TenantContext;
  gcp_connector_id : string
}.

(** [put_item] with [ConditionExpression="attribute_not_exists(connector_id)"]. *)
Definition connectors_put_new_item (k : Key) (item : ConnectorItem) : M unit := fun o st =>
  let st1 := enter o st in
  match fault o (tick st) with
  | Some code => (Raise (ClientError code), st1)
  | None =>
      match connectors (tables st1) !! k with
      | Some _ => (Raise (ClientError ConditionalCheckFailedException), st1)
      | None =>
          (Return tt,
           mkSt (tick st1)
                (set_connectors (tables st1) (<[k := item]> (connectors (tables st1))))
                (effects st1 ++ [ConnectorWritten k item]))
      end
  end.

(** [delete_item] with
    [ConditionExpression="attribute_exists(connector_id) AND #st <> :inuse"].
    A delete is read off the tables; the record of effects lists writes and
    batch calls. *)
Definition connectors_delete_item (k : Key) : M unit := fun o st =>
  let st1 := enter o st in
  match fault o (tick st) with
  | Some code => (Raise (ClientError code), st1)
  | None =>
      match connectors (tables st1) !! k with
      | Some stored =>
          if negb (bool_decide (c_status stored = IN_USE))
          then (Return tt,
                mkSt (tick st1)
                     (set_connectors (tables st1) (delete k (connectors (tables st1))))
                     (effects st1))
          else (Raise (ClientError ConditionalCheckFailedException), st1)
      | None => (Raise (ClientError ConditionalCheckFailedException), st1)
      end
  end.

Definition create_connector (request : CreateConnectorRequest) : M CreateConnectorResponse :=
  now_dt <- now ;;
  let now_iso := isoformat now_dt in
  hex <- fresh_uuid ;;
  let connector_id := "cc-" +:+ hex in
  let arn := get_connector_arn (cr_tenant_context request) connector_id in
  let item :=
    mkConnectorItem arn (cr_name request) (cr_description request)
      (model_dump (cr_container_properties request)) AVAILABLE now_iso now_iso (Some 1) None in
  except_ClientError
    (connectors_put_new_item (get_arn_prefix (cr_tenant_context request), connector_id) item)
    (fun code =>
       if String.eqb code ConditionalCheckFailedException
       then raise ConnectorDaoConflictError
       else raise ConnectorDaoInternalError) ;;;
  ret (mkCreateConnectorResponse connector_id arn (cr_name request) now_iso now_iso AVAILABLE 1).

Definition delete_connector (request : DeleteConnectorRequest) : M unit :=
  let arn_prefix := get_arn_prefix (del_tenant_context request) in
  except_ClientError
    (connectors_delete_item (arn_prefix, del_connector_id request))
    (fun code =>
       if String.eqb code ConditionalCheckFailedException
       then
         (* either it did not exist, or it existed with status IN_USE *)
         try_except
           (get_connector
              (mkGetConnectorRequest (del_tenant_context request) (del_connector_id request)) ;;;
            (* the get succeeded: the delete failed because of IN_USE *)
            raise ConnectorDaoConflictError)
           (fun e => match e with
                     | ConnectorDaoNotFoundError => raise ConnectorDaoNotFoundError
                     | _ => raise e
                     end)
       else raise ConnectorDaoInternalError).

Definition get_checkpoint (request : GetCheckpointRequest) : M Checkpoint :=
  let arn_prefix := get_arn_prefix (gcp_tenant_context request) in
  response <- except_ClientError
                (connectors_get_item (arn_prefix, gcp_connector_id request))
                (fun _ => raise ConnectorDaoInternalError) ;;
  match response with
  | None => raise ConnectorDaoNotFoundError
  | Some item =>
      match c_checkpoint item with
      | None => raise ConnectorDaoNotFoundError
      | Some checkpoint =>
          ret (mkCheckpoint (checkpoint_data checkpoint) (cp_created_at checkpoint)
                 (cp_updated_at checkpoint))
      end
  end.

(** Every character of a string passes a test. *)
Fixpoint string_forall (p : ascii -> bool) (s : string) : bool :=
  match s with
  | EmptyString => true
  | String c rest => p c && string_forall p rest
  end.

(** The digits [0] to [9]. *)
Definition is_ascii_digit (c : ascii) : bool :=
  let n := nat_of_ascii c in (48 <=? n)%nat && (n <=? 57)%nat.

(** A tenant as AWS has them: a non-empty region without a colon, a
    non-empty account id made of the digits [0] to [9]. *)
Definition well_formed_tenant (t : TenantContext) : Prop :=
  region t <> EmptyString /\
  string_forall (fun c => negb (Ascii.eqb c ":")) (region t) = true /\
  account_id t <> EmptyString /\
  string_forall is_ascii_digit (account_id t) = true.

(** Nothing else touches the tables while the invocation runs. *)
Definition undisturbed (o : Oracle) : Prop := forall n w, interfere o n w = w.

(** Every storage call is answered. *)
Definition unfailing (o : Oracle) : Prop := forall n, fault o n = None.

(** No connector, no job. *)
Definition empty_world : St := mkSt 0 (mkTables ∅ ∅) [].

Definition create0 : CreateConnectorRequest :=
  mkCreateConnectorRequest tenant0 "test" (Some "a connector") props0.

(** The [n]-th storage call is throttled; nothing else goes wrong. *)
Definition failing_at (n : nat) : Oracle :=
  mkOracle (interfere quiet)
    (fun m => if Nat.eqb m n then Some "ProvisionedThroughputExceededException" else None)
    (clock quiet) (uuid4 quiet) (register_response quiet)
    (submit_response quiet) (cancel_response quiet)
    (AWS_BATCH_JOB_QUEUE quiet) (CUSTOM_CONNECTOR_API_ENDPOINT quiet).

(** What the handlers' compensation may leave behind: the job written as
    FAILED and the connector written as AVAILABLE, and no call of the batch
    service. *)
Definition compensation_write (e : Effect) : Prop :=
  match e with
  | JobWritten _ post => j_status post = FAILED
  | ConnectorWritten _ post => c_status post = AVAILABLE
  | _ => False
  end.

(** A stream record is one the orchestrator acts on: every required field
    of the new image is there and not empty, and the status is STARTED or
    STOPPING. *)
Definition present (field : option string) : bool :=
  match field with
  | Some (String _ _) => true
  | _ => false
  end.

Definition actionable (image : JobImage) : bool :=
  present (img_job_id image) && present (img_connector_id image)
  && present (img_custom_connector_arn_prefix image)
  && (bool_decide (img_status image = Some "STARTED")
      || bool_decide (img_status image = Some "STOPPING")).

(** The batch service refuses every call; storage works. *)
Definition batch_down : Oracle :=
  mkOracle (interfere quiet) (fault quiet) (clock quiet) (uuid4 quiet)
    (fun _ => None) (fun _ => None) (fun _ => false)
    (AWS_BATCH_JOB_QUEUE quiet) (CUSTOM_CONNECTOR_API_ENDPOINT quiet).

(** The start of job [ccj-1] of connector [cc-1]. *)
Definition context0 : JobStartContext :=
  mkJobStartContext "ccj-1" "cc-1" prefix0 [] tenant0.

(** ** More of the builder kit *)

(** [_batch_delete_documents]: the batches of document ids handed to
    [_qbusiness_batch_delete_documents], in order.  That call catches every
    exception, so the loop always runs to its end. *)
Fixpoint batch_delete_loop (document_ids : list string) (batch : list string)
    : list (list string) :=
  match document_ids with
  | [] =>
      (* send any remaining documents *)
      match batch with [] => [] | _ => [batch] end
  | doc_id :: rest =>
      let batch := (batch ++ [doc_id])%list in
      if (Z.of_nat (length batch) =? DELETE_MAX_DOCS)%Z
      then batch :: batch_delete_loop rest []
      else batch_delete_loop rest batch
  end.

Definition _batch_delete_documents (document_ids : list string) : list (list string) :=
  batch_delete_loop document_ids [].

(** The documents of an input that [_prepare_document_for_upload] turns
    into an upload, in the order of the input. *)
Definition prepared_of (P : Platform) (documents : list Document)
    : list (QBusinessDocument (Bytes P)) :=
  omap (fun doc => match _prepare_document_for_upload P doc with
                   | Ready prepared_doc => Some prepared_doc
                   | _ => None
                   end) documents.

(** The ledger records the document with its present checksum. *)
Definition recorded (P : Platform) (ccf_docs : gmap string CCFDocument) (doc : Document) : bool :=
  bool_decide (checksum <$> ccf_docs !! id doc = Some (get_checksum P doc)).

(** ** Content types ([types.py]) *)

Module ContentType.
Inductive t :=
| PDF | HTML | XML | XSLT | MD | CSV | MS_EXCEL | JSON | RTF | PPT | MS_WORD | PLAIN_TEXT.

Definition members : list t :=
  [PDF; HTML; XML; XSLT; MD; CSV; MS_EXCEL; JSON; RTF; PPT; MS_WORD; PLAIN_TEXT].
End ContentType.

Module FileExtension.
Inductive t :=
| PDF | HTML | HTM | XML | XSLT | XSL | MD | MARKDOWN | CSV | XLSX | XLS | JSON | RTF
| PPTX | PPT | DOCX | DOC | TXT.

#[global] Instance eq_dec : EqDecision t.
Proof. solve_decision. Defined.

Definition value (e : t) : string :=
  match e with
  | PDF => "pdf" | HTML => "html" | HTM => "htm" | XML => "xml" | XSLT => "xslt"
  | XSL => "xsl" | MD => "md" | MARKDOWN => "markdown" | CSV => "csv" | XLSX => "xlsx"
  | XLS => "xls" | JSON => "json" | RTF => "rtf" | PPTX => "pptx" | PPT => "ppt"
  | DOCX => "docx" | DOC => "doc" | TXT => "txt"
  end.

Definition members : list t :=
  [PDF; HTML; HTM; XML; XSLT; XSL; MD; MARKDOWN; CSV; XLSX; XLS; JSON; RTF; PPTX; PPT;
   DOCX; DOC; TXT].

(** [FileExtension(s)]: the member of that value; [None] is the
    [ValueError]. *)
Definition of_value (s : string) : option t :=
  List.find (fun e => String.eqb (value e) s) members.
End FileExtension.

Module MimeType.
Inductive t :=
| PDF | HTML | HTML_APP | XML | XML_APP | XSLT | MARKDOWN | MARKDOWN_X | CSV | CSV_APP
| EXCEL | EXCEL_OPENXML | JSON | RTF | RTF_TEXT | POWERPOINT | POWERPOINT_OPENXML
| WORD | WORD_OPENXML | PLAIN_TEXT.

#[global] Instance eq_dec : EqDecision t.
Proof. solve_decision. Defined.

Definition value (m : t) : string :=
  match m with
  | PDF => "application/pdf"
  | HTML => "text/html"
  | HTML_APP => "application/html"
  | XML => "text/xml"
  | XML_APP => "application/xml"
  | XSLT => "application/xslt+xml"
  | MARKDOWN => "text/markdown"
  | MARKDOWN_X => "text/x-markdown"
  | CSV => "text/csv"
  | CSV_APP => "application/csv"
  | EXCEL => "application/vnd.ms-excel"
  | EXCEL_OPENXML => "application/vnd.openxmlformats-officedocument.spreadsheetml.sheet"
  | JSON => "application/json"
  | RTF => "application/rtf"
  | RTF_TEXT => "text/rtf"
  | POWERPOINT => "application/vnd.ms-powerpoint"
  | POWERPOINT_OPENXML =>
      "application/vnd.openxmlformats-officedocument.presentationml.presentation"
  | WORD => "application/msword"
  | WORD_OPENXML => "application/vnd.openxmlformats-officedocument.wordprocessingml.document"
  | PLAIN_TEXT => "text/plain"
  end.

Definition members : list t :=
  [PDF; HTML; HTML_APP; XML; XML_APP; XSLT; MARKDOWN; MARKDOWN_X; CSV; CSV_APP; EXCEL;
   EXCEL_OPENXML; JSON; RTF; RTF_TEXT; POWERPOINT; POWERPOINT_OPENXML; WORD; WORD_OPENXML;
   PLAIN_TEXT].

(** [MimeType(s)] *)
Definition of_value (s : string) : option t :=
  List.find (fun m => String.eqb (value m) s) members.
End MimeType.

(** [str.lower()], on ASCII text. *)
Definition lower_ascii (c : ascii) : ascii :=
  let n := nat_of_ascii c in
  if (65 <=? n)%nat && (n <=? 90)%nat then ascii_of_nat (n + 32) else c.

Fixpoint lower (s : string) : string :=
  match s with
  | EmptyString => EmptyString
  | String c rest => String (lower_ascii c) (lower rest)
  end.

(** [s.lstrip(".")] *)
Fixpoint lstrip_dot (s : string) : string :=
  match s with
  | String c rest => if Ascii.eqb c "." then lstrip_dot rest else s
  | EmptyString => EmptyString
  end.

(** [d[k]] on a dict written as a literal; [None] is the [KeyError]. *)
Fixpoint getitem {K V} `{EqDecision K} (d : list (K * V)) (k : K) : option V :=
  match d with
  | [] => None
  | (k', v) :: rest => if decide (k = k') then Some v else getitem rest k
  end.

Module DocumentTypeMapper.
Definition EXTENSION_TO_CONTENT_TYPE : list (FileExtension.t * ContentType.t) :=
  [ (FileExtension.PDF, ContentType.PDF);
    (FileExtension.HTML, ContentType.HTML);
    (FileExtension.HTM, ContentType.HTML);
    (FileExtension.XML, ContentType.XML);
    (FileExtension.XSLT, ContentType.XSLT);
    (FileExtension.XSL, ContentType.XSLT);
    (FileExtension.MD, ContentType.MD);
    (FileExtension.MARKDOWN, ContentType.MD);
    (FileExtension.CSV, ContentType.CSV);
    (FileExtension.XLSX, ContentType.MS_EXCEL);
    (FileExtension.XLS, ContentType.MS_EXCEL);
    (FileExtension.JSON, ContentType.JSON);
    (FileExtension.RTF, ContentType.RTF);
    (FileExtension.PPTX, ContentType.PPT);
    (FileExtension.PPT, ContentType.PPT);
    (FileExtension.DOCX, ContentType.MS_WORD);
    (FileExtension.DOC, ContentType.MS_WORD);
    (FileExtension.TXT, ContentType.PLAIN_TEXT) ].

Definition MIME_TO_CONTENT_TYPE : list (MimeType.t * ContentType.t) :=
  [ (MimeType.PDF, ContentType.PDF);
    (MimeType.HTML, ContentType.HTML);
    (MimeType.HTML_APP, ContentType.HTML);
    (MimeType.XML, ContentType.XML);
    (MimeType.XML_APP, ContentType.XML);
    (MimeType.XSLT, ContentType.XSLT);
    (MimeType.MARKDOWN, ContentType.MD);
    (MimeType.MARKDOWN_X, ContentType.MD);
    (MimeType.CSV, ContentType.CSV);
    (MimeType.CSV_APP, ContentType.CSV);
    (MimeType.EXCEL, ContentType.MS_EXCEL);
    (MimeType.EXCEL_OPENXML, ContentType.MS_EXCEL);
    (MimeType.JSON, ContentType.JSON);
    (MimeType.RTF, ContentType.RTF);
    (MimeType.RTF_TEXT, ContentType.RTF);
    (MimeType.POWERPOINT, ContentType.PPT);
    (MimeType.POWERPOINT_OPENXML, ContentType.PPT);
    (MimeType.WORD, ContentType.MS_WORD);
    (MimeType.WORD_OPENXML, ContentType.MS_WORD);
    (MimeType.PLAIN_TEXT, ContentType.PLAIN_TEXT) ].

(** [None] is the [UnsupportedDocumentError] both the [ValueError] of the
    enumeration and the [KeyError] of the table are turned into. *)
Definition get_content_type_from_extension (extension : string) : option ContentType.t :=
  match FileExtension.of_value (lstrip_dot (lower extension)) with
  | Some file_ext => getitem EXTENSION_TO_CONTENT_TYPE file_ext
  | None => None
  end.

Definition get_content_type_from_mime (mime_type : string) : option ContentType.t :=
  match MimeType.of_value (lower mime_type) with
  | Some mime => getitem MIME_TO_CONTENT_TYPE mime
  | None => None
  end.
End DocumentTypeMapper.

(** [DocumentFile.infer_content_type] ([document.py]), given what
    [filetype.guess] found in the file ([kind.mime], or no kind), what
    [mimetypes.guess_type] says of the path, and the suffix of the path.
    [None] is the [UnsupportedDocumentError]. *)
Definition DocumentFile_infer_content_type (kind : option string) (guess_type : option string)
    (path_suffix : string) : option ContentType.t :=
  let by_extension :=
    DocumentTypeMapper.get_content_type_from_extension (lstrip_dot (lower path_suffix)) in
  let by_mime mime_type :=
    match DocumentTypeMapper.get_content_type_from_mime mime_type with
    | Some content_type => Some content_type
    | None =>
        (* if mime type lookup fails, try extension-based lookup *)
        by_extension
    end in
  match kind with
  | Some mime_type => by_mime mime_type
  | None =>
      (* fall back to mimetypes based on extension *)
      match guess_type with
      | Some (String c rest) => by_mime (String c rest)
      | _ =>
          (* last resort: try to determine from extension directly *)
          by_extension
      end
  end.

(** ** [JsonSerializer] ([utils.py]) *)

(** The values [_convert_enum_to_str] tells apart: a member of an
    enumeration with its [.value], a list, a dict, and anything else. *)
Inductive pyvalue (Leaf : Type) :=
| PyEnum (member_value : pyvalue Leaf)
| PyList (items : list (pyvalue Leaf))
| PyDict (items : list (string * pyvalue Leaf))
| PyOther (leaf : Leaf).
Arguments PyEnum {Leaf} member_value.
Arguments PyList {Leaf} items.
Arguments PyDict {Leaf} items.
Arguments PyOther {Leaf} leaf.

Fixpoint _convert_enum_to_str {Leaf} (value : pyvalue Leaf) : pyvalue Leaf :=
  match value with
  | PyEnum member_value => member_value
  | PyList items => PyList (List.map _convert_enum_to_str items)
  | PyDict items =>
      PyDict (List.map (fun kv => let '(key, val) := kv in (key, _convert_enum_to_str val)) items)
  | PyOther _ => value
  end.

Definition serialize {Leaf} (value : pyvalue Leaf) : list (string * pyvalue Leaf) :=
  match _convert_enum_to_str value with
  | PyDict result => result
  | _ => []
  end.

(** No member of an enumeration occurs in a value. *)
Fixpoint enum_free {Leaf} (value : pyvalue Leaf) : bool :=
  match value with
  | PyEnum _ => false
  | PyList items => forallb enum_free items
  | PyDict items => forallb (fun kv => let '(_, val) := kv in enum_free val) items
  | PyOther _ => true
  end.

(** The members of enumerations that occur in a value have plain values
    (for [class E(str, Enum)], strings). *)
Fixpoint plain_enums {Leaf} (value : pyvalue Leaf) : bool :=
  match value with
  | PyEnum member_value => enum_free member_value
  | PyList items => forallb plain_enums items
  | PyDict items => forallb (fun kv => let '(_, val) := kv in plain_enums val) items
  | PyOther _ => true
  end.

Section pyvalue_induction.
Context {Leaf : Type} (P : pyvalue Leaf -> Prop).
Hypothesis HEnum : forall member_value, P member_value -> P (PyEnum member_value).
Hypothesis HList : forall items, Forall P items -> P (PyList items).
Hypothesis HDict : forall items, Forall (fun kv => P kv.2) items -> P (PyDict items).
Hypothesis HOther : forall leaf, P (PyOther leaf).

Fixpoint pyvalue_induction (value : pyvalue Leaf) : P value :=
  match value with
  | PyEnum member_value => HEnum member_value (pyvalue_induction member_value)
  | PyList items =>
      HList items
        ((fix go (l : list (pyvalue Leaf)) : Forall P l :=
            match l return Forall P l with
            | [] => @List.Forall_nil _ P
            | x :: rest => @List.Forall_cons _ P x rest (pyvalue_induction x) (go rest)
            end) items)
  | PyDict items =>
      HDict items
        ((fix go (l : list (string * pyvalue Leaf)) : Forall (fun kv => P kv.2) l :=
            match l return Forall (fun kv => P kv.2) l with
            | [] => @List.Forall_nil _ (fun kv => P kv.2)
            | (k, x) :: rest =>
                @List.Forall_cons _ (fun kv => P kv.2) (k, x) rest (pyvalue_induction x)
                  (go rest)
            end) items)
  | PyOther leaf => HOther leaf
  end.
End pyvalue_induction.

(** * Properties *)

(** ** The monad *)

Lemma bind_Return {A B} (m : M A) (f : A -> M B) o st a st1 :
  m o st = (Return a, st1) -> bind m f o st = f a o st1.
Proof. unfold bind. by intros ->. Qed.

(** ** Optimistic locking of connectors *)

Lemma locked_write_spec k cv upd o st :
  (forall s, c_version (upd s) = Some (cv + 1)) ->
  let w := interfere o (tick st) (tables st) in
  match locked_write k cv upd o st with
  | (Return _, st') =>
      stored_version w k = Some cv /\ stored_version (tables st') k = Some (cv + 1)
  | (Raise e, st') =>
      tables st' = w /\ effects st' = effects st /\
      (e = ConnectorDaoConflictError \/ e = ConnectorDaoInternalError) /\
      (fault o (tick st) = None ->
       e = ConnectorDaoConflictError /\ stored_version w k <> Some cv)
  end.
Proof.
  intros Hupd w.
  unfold locked_write, except_ClientError, try_except, connectors_write_item, stored_version.
  cbn. fold w.
  destruct (fault o (tick st)) as [code|] eqn:Hf; cbn.
  { unfold conflict_or_internal. destruct (String.eqb code _); cbn; naive_solver. }
  destruct (connectors w !! k) as [stored|] eqn:Hk; cbn.
  - unfold version_is. case_bool_decide as Hv; cbn.
    + rewrite lookup_insert_eq. auto.
    + repeat split; auto.
  - repeat split; auto.
Qed.

Lemma mutation_update_version m now_iso item s :
  c_version (mutation_update m now_iso item s) = Some (default 1 (c_version item) + 1).
Proof. by destruct m. Qed.

(** What a mutation comes to once its read has returned an item: the
    version-checked write, run in the state the read leaves. *)
Lemma mutate_after_read m o st item :
  fault o (tick st) = None ->
  connectors (interfere o (tick st) (tables st)) !! mutation_key m = Some item ->
  (match m with DeleteCheckpoint _ => is_Some (c_checkpoint item) | _ => True end) ->
  mutate m o st
  = locked_write (mutation_key m) (default 1 (c_version item))
      (mutation_update m (isoformat (clock o (tick st))) item) o (enter o st).
Proof.
  intros Hf Hk Hcp.
  destruct m as [q|q|q|q]; cbn in Hk |- *.
  - unfold update_connector_status, locked_write, except_ClientError, try_except, bind, now,
      connectors_get_item. cbn. rewrite Hf. cbn. rewrite Hk. reflexivity.
  - unfold update_connector, locked_write, except_ClientError, try_except, bind, now,
      connectors_get_item. cbn. rewrite Hf. cbn. rewrite Hk.
    match goal with |- context [connectors_write_item ?k ?c ?u o ?s] =>
      destruct (connectors_write_item k c u o s) as [[[]|e] s1] end; cbn.
    + reflexivity.
    + destruct e; cbn; try reflexivity.
      unfold conflict_or_internal. destruct (String.eqb _ _); cbn; reflexivity.
  - unfold put_checkpoint, locked_write, except_ClientError, try_except, bind, now,
      connectors_get_item. cbn. rewrite Hf. cbn. rewrite Hk. reflexivity.
  - destruct Hcp as [cp Hcp].
    unfold delete_checkpoint, locked_write, except_ClientError, try_except, bind, now,
      connectors_get_item. cbn. rewrite Hf. cbn. rewrite Hk, Hcp. reflexivity.
Qed.

Lemma mutate_read_fails m o st st' :
  fault o (tick st) <> None \/
  ~ reaches_write m (interfere o (tick st) (tables st)) ->
  mutate m o st <> (Return tt, st').
Proof.
  unfold reaches_write.
  intros H.
  destruct m as [q|q|q|q]; cbn in H |- *.
  all: unfold update_connector_status, update_connector, put_checkpoint, delete_checkpoint,
         except_ClientError, try_except, bind, now, connectors_get_item; cbn.
  all: destruct (fault o (tick st)) as [code|]; cbn;
         [ unfold conflict_or_internal; try destruct (String.eqb code _); cbn; discriminate |].
  all: destruct H as [H|H]; [done|].
  all: destruct (connectors _ !! _) as [item|]; cbn; [|discriminate].
  all: try (exfalso; by apply H).
  destruct (c_checkpoint item); cbn; [|discriminate].
  exfalso. apply H. eauto.
Qed.

Lemma reaches_write_dec m w : {reaches_write m w} + {~ reaches_write m w}.
Proof.
  unfold reaches_write. destruct (connectors w !! mutation_key m) as [item|]; [|right; tauto].
  destruct m; try (left; exact I).
  destruct (c_checkpoint item); [left; eauto | right; by intros [??]].
Qed.

Lemma reaches_write_item m w :
  reaches_write m w ->
  exists item, connectors w !! mutation_key m = Some item /\
    stored_version w (mutation_key m) = c_version item /\
    match m with DeleteCheckpoint _ => is_Some (c_checkpoint item) | _ => True end.
Proof.
  unfold reaches_write, stored_version.
  destruct (connectors w !! mutation_key m) as [item|]; [|done].
  intros H. exists item. split; [done|]. split; [done|]. exact H.
Qed.

(** C2. Every successful mutating operation on a connector
    ([update_connector_status], [update_connector], [put_checkpoint],
    [delete_checkpoint]) finds, at the time of its conditional write, the
    version it has read and leaves that version plus one; and when the
    version stored at the time of the write is not the one read, the
    operation ends in the connectors DAO's [DaoConflictError] and writes
    nothing.  The tables at the time of the read and of the write are those
    the first and the second storage call find ([seen]); other invocations
    may have changed them in between. *)
Theorem connector_version_optimistic_lock (m : ConnectorMutation) (o : Oracle) (st : St) :
  let k := mutation_key m in
  let at_read := seen o (tick st) 1 (tables st) in
  let at_write := seen o (tick st) 2 (tables st) in
  let read_version := default 1 (stored_version at_read k) in
  (forall st', mutate m o st = (Return tt, st') ->
     stored_version at_write k = Some read_version /\
     stored_version (tables st') k = Some (read_version + 1)) /\
  (reaches_write m at_read ->
   fault o (tick st) = None -> fault o (S (tick st)) = None ->
   stored_version at_write k <> Some read_version ->
   exists st', mutate m o st = (Raise ConnectorDaoConflictError, st') /\
               tables st' = at_write /\ effects st' = effects st).
Proof.
  intros k at_read at_write read_version. cbn in at_read, at_write.
  split.
  - intros st' Hrun.
    destruct (fault o (tick st)) as [code|] eqn:Hf.
    { exfalso. eapply mutate_read_fails; [|exact Hrun]. left. by rewrite Hf. }
    destruct (reaches_write_dec m at_read) as [Hr|Hr].
    2:{ exfalso. eapply mutate_read_fails; [|exact Hrun]. by right. }
    destruct (reaches_write_item _ _ Hr) as (item & Hk & Hv & Hcp).
    rewrite (mutate_after_read m o st item Hf Hk Hcp) in Hrun.
    pose proof (locked_write_spec k (default 1 (c_version item))
                  (mutation_update m (isoformat (clock o (tick st))) item) o (enter o st)
                  (mutation_update_version m _ item)) as Hw.
    fold k in Hrun. rewrite Hrun in Hw. cbn in Hw.
    unfold read_version. fold k in Hv. rewrite Hv. exact Hw.
  - intros Hr Hf Hf2 Hstale.
    destruct (reaches_write_item _ _ Hr) as (item & Hk & Hv & Hcp).
    rewrite (mutate_after_read m o st item Hf Hk Hcp).
    pose proof (locked_write_spec k (default 1 (c_version item))
                  (mutation_update m (isoformat (clock o (tick st))) item) o (enter o st)
                  (mutation_update_version m _ item)) as Hw.
    fold k. fold k in Hv. unfold read_version in Hstale. rewrite Hv in Hstale.
    destruct (locked_write _ _ _ _ _) as [[[]|e] st'].
    + cbn in Hw. destruct Hw as [Hw _]. by destruct Hstale.
    + cbn in Hw. destruct Hw as (Ht & He & _ & Hc).
      destruct (Hc Hf2) as [-> _]. exists st'. by repeat split.
Qed.


Lemma connector_version_optimistic_lock_witness :
  let m := UpdateConnectorStatus (mkUpdateConnectorStatusRequest tenant0 "cc-1" IN_USE) in
  (stored_version (tables (mutate m quiet (world0 AVAILABLE STARTED)).2) (prefix0, "cc-1")
   = Some 2) /\
  (exists st', mutate m racing (world0 AVAILABLE STARTED) = (Raise ConnectorDaoConflictError, st')).
Proof.
  intros m. split.
  - pose proof (proj1 (connector_version_optimistic_lock m quiet (world0 AVAILABLE STARTED))
                  (mutate m quiet (world0 AVAILABLE STARTED)).2) as H.
    apply H. vm_compute. reflexivity.
  - destruct (proj2 (connector_version_optimistic_lock m racing (world0 AVAILABLE STARTED)))
      as (st' & H & _).
    + vm_compute. exact I.
    + reflexivity.
    + reflexivity.
    + vm_compute. discriminate.
    + exists st'. exact H.
Defined.

(** ** The job ledger *)

Lemma get_connector_eq request o st :
  get_connector request o st
  = (match fault o (tick st) with
     | Some _ => Raise ConnectorDaoInternalError
     | None =>
         match connectors (interfere o (tick st) (tables st))
               !! (get_arn_prefix (gc_tenant_context request), gc_connector_id request) with
         | None => Raise ConnectorDaoNotFoundError
         | Some item =>
             match model_validate (c_container_properties item) with
             | None => Raise ValidationError
             | Some props =>
                 Return (mkGetConnectorResponse (gc_connector_id request) (c_arn item)
                           (c_name item) (c_created_at item) (c_updated_at item)
                           (c_status item) props (c_description item) (c_checkpoint item)
                           (default 1 (c_version item)))
             end
         end
     end, enter o st).
Proof.
  unfold get_connector, bind, except_ClientError, try_except, connectors_get_item. cbn.
  destruct (fault o (tick st)); cbn; [done|].
  destruct (connectors _ !! _) as [item|]; cbn; [|done].
  by destruct (model_validate _).
Qed.

Lemma _verify_connector_exists_spec tenant_context connector_id o st :
  match _verify_connector_exists tenant_context connector_id o st with
  | (Return _, st') =>
      st' = enter o st /\ connector_found o st (get_arn_prefix tenant_context, connector_id)
  | (Raise e, st') =>
      st' = enter o st /\ ~ connector_found o st (get_arn_prefix tenant_context, connector_id)
  end.
Proof.
  unfold _verify_connector_exists, try_except, bind, connector_found.
  rewrite get_connector_eq. cbn.
  destruct (fault o (tick st)); cbn; [split; [done|]; by intros [? _]|].
  destruct (connectors _ !! _) as [item|]; cbn.
  2:{ split; [done|]. by intros (_ & ? & ? & ? & _). }
  destruct (model_validate _) as [props|] eqn:Hv; cbn.
  - split; [done|]. split; [done|]. eauto.
  - split; [done|]. intros (_ & ? & ? & [= <-] & ?). congruence.
Qed.

Lemma jobs_get_item_eq k o st :
  jobs_get_item k o st
  = (match fault o (tick st) with
     | Some code => Raise (ClientError code)
     | None => Return (jobs (interfere o (tick st) (tables st)) !! k)
     end, enter o st).
Proof. unfold jobs_get_item. by destruct (fault o (tick st)). Qed.

(** C1 (as amended). A call to [update_job_status] for a job that it finds
    in status STOPPED or FAILED never returns normally and writes nothing:
    the tables are left as the other invocations made them.  Whenever the
    connector lookup of step 1 succeeds and the read of the job goes
    through, the exception is the jobs DAO's [DaoConflictError]. *)
Theorem update_job_status_terminal_conflict
    (request : UpdateJobStatusRequest) (o : Oracle) (st : St) (item : JobItem) :
  let key := (get_arn_prefix (uj_tenant_context request), uj_job_id request) in
  jobs (seen o (tick st) 2 (tables st)) !! key = Some item ->
  j_status item = STOPPED \/ j_status item = FAILED ->
  exists e st',
    update_job_status request o st = (Raise e, st') /\
    effects st' = effects st /\
    tables st' = seen o (tick st) (tick st' - tick st) (tables st) /\
    (connector_found o st (get_arn_prefix (uj_tenant_context request), uj_connector_id request) ->
     fault o (S (tick st)) = None ->
     e = DaoConflictError).
Proof.
  intros key Hjob Hterm. cbn in Hjob.
  unfold update_job_status. unfold bind at 1.
  pose proof (_verify_connector_exists_spec (uj_tenant_context request)
                (uj_connector_id request) o st) as Hv.
  destruct (_verify_connector_exists _ _ o st) as [[[]|e] st1].
  2:{ destruct Hv as [-> Hn]. exists e, (enter o st). cbn.
      replace (S (tick st) - tick st)%nat with 1%nat by lia. cbn. by repeat split. }
  destruct Hv as [-> Hfound].
  unfold bind at 1, except_ClientError, try_except. rewrite jobs_get_item_eq. cbn.
  destruct (fault o (S (tick st))) as [code|] eqn:Hf2; cbn.
  { eexists _, _. split; [reflexivity|]. cbn.
    replace (S (S (tick st)) - tick st)%nat with 2%nat by lia. cbn. by repeat split. }
  fold key. rewrite Hjob.
  assert (bool_decide (j_status item = STOPPED) || bool_decide (j_status item = FAILED) = true)
    as ->.
  { destruct Hterm as [-> | ->]; reflexivity. }
  eexists _, _. split; [reflexivity|]. cbn.
  replace (S (S (tick st)) - tick st)%nat with 2%nat by lia. cbn. by repeat split.
Qed.

Lemma update_job_status_terminal_conflict_witness :
  exists e st',
    update_job_status (mkUpdateJobStatusRequest tenant0 "cc-1" "ccj-1" RUNNING None)
      quiet (world0 AVAILABLE STOPPED) = (Raise e, st') /\
    e = DaoConflictError.
Proof.
  destruct (update_job_status_terminal_conflict
              (mkUpdateJobStatusRequest tenant0 "cc-1" "ccj-1" RUNNING None)
              quiet (world0 AVAILABLE STOPPED) (job0 STOPPED))
    as (e & st' & Hrun & _ & _ & He).
  - reflexivity.
  - left. reflexivity.
  - exists e, st'. split; [exact Hrun|]. apply He.
    + split; [reflexivity|]. exists (with_status connector0 AVAILABLE), props0.
      split; reflexivity.
    + reflexivity.
Defined.

(** C1 as stated fails on the code.  A job stored as SUCCEEDED is not
    guarded: an update to RUNNING returns normally and changes the stored
    status.  And for a STOPPED job whose connector has been deleted the call
    ends in [DaoResourceNotFoundError], not in a conflict. *)
Lemma update_job_status_terminal_counterexample :
  let request := mkUpdateJobStatusRequest tenant0 "cc-1" "ccj-1" RUNNING None in
  let run := update_job_status request quiet (world0 AVAILABLE SUCCEEDED) in
  (run.1 = Return tt /\
   j_status <$> jobs (tables run.2) !! (prefix0, "ccj-1") = Some RUNNING) /\
  (update_job_status request quiet (orphan0 STOPPED)).1 = Raise DaoResourceNotFoundError.
Proof. vm_compute. repeat split. Qed.




(** C10. A call to [update_job_status] with new status STARTED, RUNNING or
    STOPPING that returns normally has made exactly one write: the job item
    as the update found it ([stored]) with [status] and [updated_at]
    replaced and [batch_job_id] replaced only when the request carries one.
    The [ttl] is the stored one, so is every other attribute, and the
    connectors table is as the other invocations left it. *)
Theorem update_job_status_non_terminal_frame
    (request : UpdateJobStatusRequest) (o : Oracle) (st st' : St) :
  let key := (get_arn_prefix (uj_tenant_context request), uj_job_id request) in
  let at_write := seen o (tick st) 3 (tables st) in
  uj_status request = STARTED \/ uj_status request = RUNNING \/ uj_status request = STOPPING ->
  update_job_status request o st = (Return tt, st') ->
  exists stored,
    jobs at_write !! key = Some stored /\
    let written :=
      mkJobItem (j_connector_id stored) (uj_status request) (j_environment stored)
        (j_created_at stored) (isoformat (clock o (2 + tick st)))
        (match uj_batch_job_id request with
         | Some b => Some b
         | None => j_batch_job_id stored
         end)
        (j_ttl stored) in
    effects st' = (effects st ++ [JobWritten key written])%list /\
    tables st' = mkTables (connectors at_write) (<[key := written]> (jobs at_write)).
Proof.
  intros key at_write Hnew. cbn in at_write.
  unfold update_job_status. unfold bind at 1.
  pose proof (_verify_connector_exists_spec (uj_tenant_context request)
                (uj_connector_id request) o st) as Hv.
  destruct (_verify_connector_exists _ _ o st) as [[[]|e] st1]; [|discriminate].
  destruct Hv as [-> _].
  unfold bind at 1, except_ClientError at 1, try_except at 1. rewrite jobs_get_item_eq. cbn.
  destruct (fault o (S (tick st))) as [code|]; cbn; [discriminate|].
  fold key.
  destruct (jobs _ !! key) as [item|]; cbn; [|discriminate].
  destruct (bool_decide (j_status item = STOPPED) || bool_decide (j_status item = FAILED));
    cbn; [discriminate|].
  assert (match uj_status request with
          | STOPPED | FAILED | SUCCEEDED =>
              (Some (str (epoch (clock o (S (S (tick st))))
                          + days_in_seconds _TTL_DAYS_AFTER_STOP)), true)
          | _ => (None, false)
          end = (None : option string, false)) as Hm.
  { by destruct Hnew as [-> | [-> | ->]]. }
  unfold bind, now, except_ClientError, try_except, jobs_update_item. cbn.
  rewrite Hm. cbn.
  destruct (fault o (S (S (tick st)))) as [code|]; cbn.
  { destruct (String.eqb code _); cbn; discriminate. }
  fold at_write.
  destruct (jobs at_write !! key) as [stored|]; cbn; [|discriminate].
  intros [= <-]. exists stored. split; [reflexivity|]. cbn. split; reflexivity.
Qed.

Lemma update_job_status_non_terminal_frame_witness :
  let request := mkUpdateJobStatusRequest tenant0 "cc-1" "ccj-1" RUNNING (Some "batch-1") in
  let st := world0 IN_USE STARTED in
  let st' := (update_job_status request quiet st).2 in
  exists stored,
    jobs (tables st) !! (prefix0, "ccj-1") = Some stored /\
    effects st'
    = [JobWritten (prefix0, "ccj-1")
         (mkJobItem (j_connector_id stored) RUNNING (j_environment stored) (j_created_at stored)
            "2025-01-01T00:00:00+00:00" (Some "batch-1") (j_ttl stored))] /\
    connectors (tables st') = connectors (tables st).
Proof.
  intros request st st'.
  destruct (update_job_status_non_terminal_frame request quiet st st')
    as (stored & H1 & H2 & H3).
  - right; left; reflexivity.
  - vm_compute. reflexivity.
  - exists stored. split; [exact H1|]. split; [exact H2|]. rewrite H3. reflexivity.
Defined.

(** The cases of [update_connector_status]. *)
Lemma update_connector_status_cases request o s :
  let k := (get_arn_prefix (ucs_tenant_context request), ucs_connector_id request) in
  let at_read := interfere o (tick s) (tables s) in
  let at_write := interfere o (S (tick s)) at_read in
  match update_connector_status request o s with
  | (Return _, s') =>
      fault o (tick s) = None /\ is_Some (connectors at_read !! k) /\
      fault o (S (tick s)) = None /\
      stored_version at_write k = Some (default 1 (stored_version at_read k)) /\
      exists stored,
        connectors at_write !! k = Some stored /\
        let written :=
          with_updated_at
            (with_version (with_status stored (ucs_status request))
               (default 1 (stored_version at_read k) + 1))
            (isoformat (clock o (tick s))) in
        effects s' = (effects s ++ [ConnectorWritten k written])%list /\
        tables s' = mkTables (<[k := written]> (connectors at_write)) (jobs at_write)
  | (Raise e, s') =>
      effects s' = effects s /\
      match e with
      | ConnectorDaoNotFoundError =>
          fault o (tick s) = None /\ connectors at_read !! k = None
      | ConnectorDaoConflictError | ConnectorDaoInternalError =>
          fault o (tick s) <> None \/
          (is_Some (connectors at_read !! k) /\
           (fault o (S (tick s)) <> None \/
            stored_version at_write k <> Some (default 1 (stored_version at_read k))))
      | _ => False
      end
  end.
Proof.
  intros k at_read at_write.
  unfold update_connector_status, bind at 1, now. cbn.
  unfold except_ClientError, try_except, bind, connectors_get_item. cbn.
  destruct (fault o (tick s)) as [code|] eqn:Hf; cbn.
  { unfold conflict_or_internal. destruct (String.eqb code _); cbn; split; auto. }
  fold k at_read. unfold stored_version.
  destruct (connectors at_read !! k) as [item|] eqn:Hk; cbn; [|by auto].
  unfold connectors_write_item. cbn.
  destruct (fault o (S (tick s))) as [code|] eqn:Hf2; cbn.
  { unfold conflict_or_internal. destruct (String.eqb code _); cbn; split; auto;
      right; split; eauto. }
  fold at_read at_write.
  destruct (connectors at_write !! k) as [stored|] eqn:Hk2; cbn.
  - unfold version_is. case_bool_decide as Hv; cbn.
    + do 4 (split; [by eauto|]). exists stored. by repeat split.
    + split; [done|]. right. split; [eauto|]. right. congruence.
  - split; [done|]. right. split; [eauto|]. right. congruence.
Qed.

(** C4 (as amended). A call to [update_job_status] with new status STOPPED, FAILED or
    SUCCEEDED whose steps 1 to 3 go through, on a job it finds neither
    STOPPED nor FAILED, writes the job with [ttl] set to the decimal text of
    the clock's epoch seconds plus 7 days; then it flips the connector named
    in the request: when the connector is no longer there the call returns
    without a further write; when the flip's conditional write goes through
    the connector is written with status AVAILABLE and the call returns; any
    other outcome of the flip (a failing storage call, a version changed
    under it) makes the call raise.  The connector that is flipped is the
    one the request names; the [connector_id] stored with the job is not
    looked at. *)
Theorem update_job_status_terminal_effects
    (request : UpdateJobStatusRequest) (o : Oracle) (st : St) (item stored : JobItem) :
  let t := tick st in
  let key := (get_arn_prefix (uj_tenant_context request), uj_job_id request) in
  let ckey := (get_arn_prefix (uj_tenant_context request), uj_connector_id request) in
  let now_dt := clock o (2 + t) in
  let written :=
    mkJobItem (j_connector_id stored) (uj_status request) (j_environment stored)
      (j_created_at stored) (isoformat now_dt)
      (match uj_batch_job_id request with
       | Some b => Some b
       | None => j_batch_job_id stored
       end)
      (Some (str (epoch now_dt + 7 * 86400))) in
  let at_write := seen o t 3 (tables st) in
  let after_job_write := mkTables (connectors at_write) (<[key := written]> (jobs at_write)) in
  let flip_read := interfere o (3 + t) after_job_write in
  let flip_write := interfere o (4 + t) flip_read in
  uj_status request = STOPPED \/ uj_status request = FAILED \/ uj_status request = SUCCEEDED ->
  connector_found o st ckey ->
  fault o (1 + t) = None ->
  jobs (seen o t 2 (tables st)) !! key = Some item ->
  j_status item <> STOPPED -> j_status item <> FAILED ->
  fault o (2 + t) = None ->
  jobs at_write !! key = Some stored ->
  exists r st' rest,
    update_job_status request o st = (r, st') /\
    effects st' = (effects st ++ JobWritten key written :: rest)%list /\
    (fault o (3 + t) = None -> connectors flip_read !! ckey = None ->
     r = Return tt /\ rest = []) /\
    (forall c,
       fault o (3 + t) = None -> connectors flip_read !! ckey = Some c ->
       fault o (4 + t) = None ->
       stored_version flip_write ckey = Some (default 1 (c_version c)) ->
       exists c',
         r = Return tt /\ rest = [ConnectorWritten ckey c'] /\
         c_status c' = AVAILABLE /\ connectors (tables st') !! ckey = Some c') /\
    (fault o (3 + t) <> None \/
     (is_Some (connectors flip_read !! ckey) /\
      (fault o (4 + t) <> None \/
       stored_version flip_write ckey <> Some (default 1 (stored_version flip_read ckey)))) ->
     exists e, r = Raise e /\ rest = []).
Proof.
  intros t key ckey now_dt written at_write after_job_write flip_read flip_write.
  intros Hnew Hfound Hf1 Hitem Hs1 Hs2 Hf2 Hstored.
  cbn in at_write, Hitem, Hf1, Hf2, flip_read, flip_write, now_dt |- *.
  unfold update_job_status. unfold bind at 1.
  pose proof (_verify_connector_exists_spec (uj_tenant_context request)
                (uj_connector_id request) o st) as Hv.
  destruct (_verify_connector_exists _ _ o st) as [[[]|e] st1].
  2:{ by destruct Hv as [_ Hn]. }
  destruct Hv as [-> _].
  unfold bind at 1, except_ClientError at 1, try_except at 1. rewrite jobs_get_item_eq. cbn.
  fold t. rewrite Hf1. cbn. fold key. rewrite Hitem.
  rewrite (bool_decide_eq_false_2 _ Hs1), (bool_decide_eq_false_2 _ Hs2). cbn.
  assert (match uj_status request with
          | STOPPED | FAILED | SUCCEEDED =>
              (Some (str (epoch (clock o (S (S t))) + days_in_seconds _TTL_DAYS_AFTER_STOP)),
               true)
          | _ => (None, false)
          end = (Some (str (epoch now_dt + 7 * 86400)), true)) as Hm.
  { by destruct Hnew as [-> | [-> | ->]]. }
  unfold bind at 1, now. cbn. fold t. rewrite Hm.
  unfold except_ClientError at 1, try_except at 1, jobs_update_item. cbn.
  fold t. rewrite Hf2. cbn. fold at_write. rewrite Hstored. cbn.
  fold now_dt. fold written. unfold set_jobs. cbn. fold after_job_write.
  unfold try_except.
  pose proof (update_connector_status_cases
                (mkUpdateConnectorStatusRequest (uj_tenant_context request)
                   (uj_connector_id request) AVAILABLE) o
                (mkSt (S (S (S t))) after_job_write (effects st ++ [JobWritten key written])))
    as Hflip.
  cbv zeta in Hflip.
  cbn [ucs_tenant_context ucs_connector_id ucs_status tick tables effects] in Hflip.
  fold ckey flip_read flip_write in Hflip.
  destruct (update_connector_status _ o _) as [[[]|e] st4].
  - destruct Hflip as (Hg1 & [c0 Hg2] & Hg3 & Hg4 & cstored & Hcs & Heff & Htab).
    eexists _, _, _. split; [reflexivity|]. rewrite Heff. cbn.
    rewrite <- app_assoc. cbn. split; [reflexivity|].
    split; [intros _ Hnone; congruence|].
    split.
    + intros c _ _ _ _. eexists. split; [reflexivity|]. split; [reflexivity|].
      split; [reflexivity|]. rewrite Htab. cbn. apply lookup_insert_eq.
    + intros [Hbad | (_ & [Hbad | Hbad])]; congruence.
  - destruct Hflip as [Heff Hcase].
    assert (Hrest : effects st4 = (effects st ++ [JobWritten key written])%list) by exact Heff.
    destruct e; try done.
    + (* conflict *)
      eexists _, _, []. split; [reflexivity|]. split; [exact Hrest|].
      split; [|split].
      * intros Hf Hn. destruct Hcase as [?|([? Hc] & _)]; congruence.
      * intros c Hf Hc Hf' Hv. exfalso.
        destruct Hcase as [?|(_ & [?|Hbad])]; try congruence.
        apply Hbad. rewrite Hv. unfold stored_version. by rewrite Hc.
      * intros _. eauto.
    + (* not found *)
      destruct Hcase as [Hf Hn].
      eexists _, _, []. split; [reflexivity|]. split; [exact Hrest|].
      split; [done|]. split.
      * intros c _ Hc. congruence.
      * intros [?|([? Hc] & _)]; congruence.
    + (* internal *)
      eexists _, _, []. split; [reflexivity|]. split; [exact Hrest|].
      split; [|split].
      * intros Hf Hn. destruct Hcase as [?|([? Hc] & _)]; congruence.
      * intros c Hf Hc Hf' Hv. exfalso.
        destruct Hcase as [?|(_ & [?|Hbad])]; try congruence.
        apply Hbad. rewrite Hv. unfold stored_version. by rewrite Hc.
      * intros _. eauto.
Qed.

Lemma update_job_status_terminal_effects_witness :
  let request := mkUpdateJobStatusRequest tenant0 "cc-1" "ccj-1" SUCCEEDED (Some "batch-1") in
  (exists st',
     update_job_status request quiet (world0 IN_USE RUNNING) = (Return tt, st') /\
     c_status <$> connectors (tables st') !! (prefix0, "cc-1") = Some AVAILABLE /\
     j_ttl <$> jobs (tables st') !! (prefix0, "ccj-1") = Some (Some "1736294400")) /\
  (exists st',
     update_job_status request vanishing (world0 IN_USE RUNNING) = (Return tt, st') /\
     connectors (tables st') !! (prefix0, "cc-1") = None).
Proof.
  intros request. split.
  - destruct (update_job_status_terminal_effects request quiet (world0 IN_USE RUNNING)
                (job0 RUNNING) (job0 RUNNING))
      as (r & st' & rest & Hrun & _ & _ & Hflip & _).
    + right; right; reflexivity.
    + split; [reflexivity|]. exists (with_status connector0 IN_USE), props0.
      split; reflexivity.
    + reflexivity.
    + reflexivity.
    + discriminate.
    + discriminate.
    + reflexivity.
    + reflexivity.
    + destruct (Hflip (with_status connector0 IN_USE)) as (c' & -> & _ & Hc & Hl);
        [reflexivity..|].
      exists st'. split; [exact Hrun|].
      replace st' with (update_job_status request quiet (world0 IN_USE RUNNING)).2
        by (by rewrite Hrun).
      vm_compute. split; reflexivity.
  - destruct (update_job_status_terminal_effects request vanishing (world0 IN_USE RUNNING)
                (job0 RUNNING) (job0 RUNNING))
      as (r & st' & rest & Hrun & _ & Hgone & _ & _).
    + right; right; reflexivity.
    + split; [reflexivity|]. exists (with_status connector0 IN_USE), props0.
      split; reflexivity.
    + reflexivity.
    + reflexivity.
    + discriminate.
    + discriminate.
    + reflexivity.
    + reflexivity.
    + destruct Hgone as [-> _]; [reflexivity..|].
      exists st'. split; [exact Hrun|].
      replace st' with (update_job_status request vanishing (world0 IN_USE RUNNING)).2
        by (by rewrite Hrun).
      vm_compute. reflexivity.
Defined.

(** C4 as stated fails on the code in two ways.  When the connector has
    gone before the call, the update to SUCCEEDED is not made at all: step 1
    raises not-found, and the job keeps its status and gets no TTL.  And the
    connector that is made AVAILABLE is the one named in the request, not
    the owner of the job: for job [ccj-1] of [cc-1], a request that names
    [cc-2] releases [cc-2] and leaves [cc-1] IN_USE. *)
Lemma update_job_status_terminal_effects_counterexample :
  (let request := mkUpdateJobStatusRequest tenant0 "cc-1" "ccj-1" SUCCEEDED None in
   let run := update_job_status request quiet (orphan0 RUNNING) in
   run.1 = Raise DaoResourceNotFoundError /\
   jobs (tables run.2) !! (prefix0, "ccj-1") = Some (job0 RUNNING) /\
   j_ttl (job0 RUNNING) = None) /\
  (let request := mkUpdateJobStatusRequest tenant0 "cc-2" "ccj-1" SUCCEEDED None in
   let run := update_job_status request quiet (world_two RUNNING) in
   run.1 = Return tt /\
   j_connector_id <$> jobs (tables run.2) !! (prefix0, "ccj-1") = Some "cc-1" /\
   j_status <$> jobs (tables run.2) !! (prefix0, "ccj-1") = Some SUCCEEDED /\
   c_status <$> connectors (tables run.2) !! (prefix0, "cc-1") = Some IN_USE /\
   c_status <$> connectors (tables run.2) !! (prefix0, "cc-2") = Some AVAILABLE).
Proof. vm_compute. repeat split. Qed.


(** ** Effects of the operations *)

Create HintDb emits discriminated.

Lemma emits_ret {A} P (a : A) : emits P (ret a).
Proof. intros o st. exists []. by rewrite app_nil_r. Qed.

Lemma emits_raise {A} P e : emits P (@raise A e).
Proof. intros o st. exists []. by rewrite app_nil_r. Qed.

Lemma emits_bind {A B} P (m : M A) (f : A -> M B) :
  emits P m -> (forall a, emits P (f a)) -> emits P (bind m f).
Proof.
  intros Hm Hf o st. unfold bind.
  destruct (Hm o st) as (l1 & H1 & HP1).
  destruct (m o st) as [[a|e] st1]; cbn in *.
  - destruct (Hf a o st1) as (l2 & H2 & HP2).
    exists (l1 ++ l2)%list. rewrite H2, H1, app_assoc. split; [done|].
    by apply Forall_app.
  - eauto.
Qed.

Lemma emits_try_except {A} P (m : M A) (h : Exn -> M A) :
  emits P m -> (forall e, emits P (h e)) -> emits P (try_except m h).
Proof.
  intros Hm Hh o st. unfold try_except.
  destruct (Hm o st) as (l1 & H1 & HP1).
  destruct (m o st) as [[a|e] st1]; cbn in *.
  - eauto.
  - destruct (Hh e o st1) as (l2 & H2 & HP2).
    exists (l1 ++ l2)%list. rewrite H2, H1, app_assoc. split; [done|].
    by apply Forall_app.
Qed.

Lemma emits_except_ClientError {A} P (m : M A) (h : string -> M A) :
  emits P m -> (forall c, emits P (h c)) -> emits P (except_ClientError m h).
Proof.
  intros Hm Hh. apply emits_try_except; [done|].
  intros []; auto using emits_raise.
Qed.

Lemma emits_now P : emits P now.
Proof. intros o st. exists []. by rewrite app_nil_r. Qed.

Lemma emits_conflict_or_internal {A} P c : emits P (@conflict_or_internal A c).
Proof. unfold conflict_or_internal. destruct (String.eqb c _); apply emits_raise. Qed.

Lemma emits_connectors_get_item P k : emits P (connectors_get_item k).
Proof.
  intros o st. exists []. rewrite app_nil_r. unfold connectors_get_item.
  by destruct (fault o (tick st)).
Qed.

Lemma emits_jobs_get_item P k : emits P (jobs_get_item k).
Proof.
  intros o st. exists []. rewrite app_nil_r. unfold jobs_get_item.
  by destruct (fault o (tick st)).
Qed.

Lemma emits_connectors_write_item (P : Effect -> Prop) k cond upd :
  (forall post, P (ConnectorWritten k post)) -> emits P (connectors_write_item k cond upd).
Proof.
  intros HP o st. unfold connectors_write_item.
  destruct (fault o (tick st)); cbn; [exists []; by rewrite app_nil_r|].
  destruct (connectors _ !! k) as [stored|]; cbn; [|exists []; by rewrite app_nil_r].
  destruct (cond stored); cbn; [|exists []; by rewrite app_nil_r].
  eexists [_]. split; [reflexivity|]. by repeat constructor.
Qed.

Lemma emits_jobs_update_item (P : Effect -> Prop) k upd :
  (forall stored, P (JobWritten k (upd stored))) -> emits P (jobs_update_item k upd).
Proof.
  intros HP o st. unfold jobs_update_item.
  destruct (fault o (tick st)); cbn; [exists []; by rewrite app_nil_r|].
  destruct (jobs _ !! k) as [stored|]; cbn; [|exists []; by rewrite app_nil_r].
  eexists [_]. split; [reflexivity|]. by repeat constructor.
Qed.

#[local] Hint Resolve emits_ret emits_raise emits_bind emits_try_except
  emits_except_ClientError emits_now emits_conflict_or_internal
  emits_connectors_get_item emits_jobs_get_item : emits.

Lemma emits_get_connector P request : emits P (get_connector request).
Proof.
  unfold get_connector.
  apply emits_bind; [auto with emits|].
  intros [item|]; [|auto with emits].
  destruct (model_validate _); auto with emits.
Qed.

Lemma emits_update_connector_status (P : Effect -> Prop) request :
  (forall k post, P (ConnectorWritten k post)) -> emits P (update_connector_status request).
Proof.
  intros HP. unfold update_connector_status.
  apply emits_bind; [auto with emits|]. intros now_dt.
  apply emits_except_ClientError; [|auto with emits].
  apply emits_bind; [auto with emits|].
  intros [item|]; [|auto with emits].
  by apply emits_connectors_write_item.
Qed.

Lemma emits__verify_connector_exists P t c : emits P (_verify_connector_exists t c).
Proof.
  unfold _verify_connector_exists.
  apply emits_try_except.
  - apply emits_bind; [apply emits_get_connector | auto with emits].
  - intros []; auto with emits.
Qed.

(** Every job write of [update_job_status] carries the requested status,
    and it writes no job but the one the request names. *)
Lemma emits_update_job_status request :
  emits (job_written_as (uj_status request)) (update_job_status request).
Proof.
  unfold update_job_status.
  apply emits_bind; [apply emits__verify_connector_exists|]. intros _.
  apply emits_bind; [auto with emits|].
  intros [item|]; [|auto with emits].
  destruct (_ || _); [auto with emits|].
  apply emits_bind; [auto with emits|]. intros now_dt.
  destruct (match uj_status request with
            | STOPPED | FAILED | SUCCEEDED => _
            | _ => _
            end) as [ttl mark_available].
  apply emits_bind.
  - apply emits_except_ClientError.
    + by apply emits_jobs_update_item.
    + intros c. destruct (String.eqb c _); auto with emits.
  - intros _. destruct mark_available; [|auto with emits].
    apply emits_try_except.
    + by apply emits_update_connector_status.
    + intros []; auto with emits.
Qed.

(** A call of [update_job_status] that returns has written the job. *)
Lemma update_job_status_Return_writes request o st st' :
  update_job_status request o st = (Return tt, st') ->
  exists post l,
    effects st'
    = (effects st
       ++ JobWritten (get_arn_prefix (uj_tenant_context request), uj_job_id request) post
       :: l)%list /\
    j_status post = uj_status request.
Proof.
  unfold update_job_status. unfold bind at 1.
  pose proof (_verify_connector_exists_spec (uj_tenant_context request)
                (uj_connector_id request) o st) as Hv.
  destruct (_verify_connector_exists _ _ o st) as [[[]|e] st1]; [|discriminate].
  destruct Hv as [-> _].
  unfold bind at 1, except_ClientError at 1, try_except at 1. rewrite jobs_get_item_eq. cbn.
  destruct (fault o (S (tick st))) as [code|]; cbn; [discriminate|].
  destruct (jobs _ !! _) as [item|]; cbn; [|discriminate].
  destruct (_ || _); cbn; [discriminate|].
  unfold bind at 1, now. cbn.
  destruct (match uj_status request with
            | STOPPED | FAILED | SUCCEEDED => _
            | _ => _
            end) as [ttl mark_available].
  unfold except_ClientError at 1, try_except at 1, jobs_update_item. cbn.
  destruct (fault o (S (S (tick st)))) as [code|]; cbn.
  { destruct (String.eqb code _); cbn; discriminate. }
  destruct (jobs _ !! _) as [stored|]; cbn; [|discriminate].
  destruct mark_available.
  - match goal with |- try_except ?m ?h o ?s = _ -> _ =>
      destruct (emits_try_except (fun _ => True) m h) with (o := o) (st := s)
        as (l & Hl & _)
    end.
    + apply emits_update_connector_status. done.
    + intros []; auto with emits.
    + intros Hrun. rewrite Hrun in Hl. cbn in Hl. rewrite Hl.
      eexists _, l. rewrite <- app_assoc. cbn. split; reflexivity.
  - cbn. intros [= <-]. cbn. eexists _, []. split; reflexivity.
Qed.

(** ** The external completion handler *)

(** C6. For a completion notification with status SUCCEEDED or FAILED the
    handler writes the job with status SUCCEEDED in the first case and, in
    the second, with FAILED unless the status it has just read for the job
    is STOPPING, in which case it writes STOPPED: no job write of the
    invocation carries another status, and an invocation that returns has
    made that write. *)
Theorem process_batch_event_status_mapping `{UnicodeData}
    (event_detail : BatchEventDetail) (o : Oracle) (st : St)
    (job_name batch_status connector_arn_prefix : string) :
  ev_jobName event_detail = Some job_name -> job_name <> EmptyString ->
  ev_status event_detail = Some batch_status ->
  batch_status = "SUCCEEDED" \/ batch_status = "FAILED" ->
  env_dict (ev_container_environment event_detail)
    !! "CUSTOM_CONNECTOR_FRAMEWORK_CUSTOM_CONNECTOR_ARN_PREFIX" = Some connector_arn_prefix ->
  let observed :=
    j_status <$> jobs (seen o (tick st) 1 (tables st)) !! (connector_arn_prefix, job_name) in
  let expected :=
    if String.eqb batch_status "SUCCEEDED" then SUCCEEDED
    else if bool_decide (observed = Some STOPPING) then STOPPED else FAILED in
  exists r st' l,
    process_batch_event event_detail o st = (r, st') /\
    effects st' = (effects st ++ l)%list /\
    Forall (job_written_as expected) l /\
    (r = Return tt -> exists k post, k.2 = job_name /\ JobWritten k post ∈ l).
Proof.
  intros Hname Hne Hstatus Hbatch Hprefix observed expected. cbn in observed.
  unfold process_batch_event. rewrite Hname, Hstatus.
  destruct job_name as [|c n]; [done|].
  assert (negb (String.eqb batch_status "SUCCEEDED" || String.eqb batch_status "FAILED") = false)
    as ->.
  { by destruct Hbatch as [-> | ->]. }
  rewrite Hprefix.
  unfold from_arn_prefix.
  destruct (match_arn_prefix connector_arn_prefix) as [tenant_context|].
  2:{ exists (Raise BadRequestError), st, []. rewrite app_nil_r. by repeat split. }
  rewrite (bind_Return (ret tenant_context) _ o st tenant_context st) by reflexivity.
  unfold bind at 1. rewrite jobs_get_item_eq.
  destruct (fault o (tick st)) as [code|].
  { eexists _, _, []. split; [reflexivity|]. cbn. rewrite app_nil_r. by repeat split. }
  fold observed.
  assert (map_batch_status batch_status observed = Some expected) as ->.
  { unfold map_batch_status, expected. destruct Hbatch as [-> | ->]; cbn; [done|].
    by destruct (bool_decide _). }
  destruct (env_dict _ !! "CUSTOM_CONNECTOR_FRAMEWORK_CUSTOM_CONNECTOR_ID") as [connector_id|].
  2:{ eexists _, _, []. split; [reflexivity|]. cbn. rewrite app_nil_r. by repeat split. }
  set (request := mkUpdateJobStatusRequest tenant_context connector_id (String c n) expected
                    (Some (String c n))).
  set (flip := mkUpdateConnectorStatusRequest tenant_context connector_id AVAILABLE).
  destruct (emits_bind (job_written_as expected) (update_job_status request)
              (fun _ => update_connector_status flip)) with (o := o) (st := enter o st)
    as (l & Hl & HP).
  { apply (emits_update_job_status request). }
  { intros _. by apply emits_update_connector_status. }
  destruct (bind (update_job_status request) _ o (enter o st)) as [r st'] eqn:Hrun.
  exists r, st', l. split; [reflexivity|]. split; [exact Hl|]. split; [exact HP|].
  intros ->. unfold bind in Hrun.
  destruct (update_job_status request o (enter o st)) as [[[]|e] st1] eqn:Hjob;
    [|discriminate].
  destruct (update_job_status_Return_writes _ _ _ _ Hjob) as (post & l1 & H1 & _).
  destruct (emits_update_connector_status (fun _ => True) flip) with (o := o) (st := st1)
    as (l2 & H2 & _); [done|].
  rewrite Hrun in H2. cbn in H2, Hl. rewrite H1, <- app_assoc in H2. cbn in H2.
  rewrite Hl in H2. apply app_inv_head in H2. subst l.
  eexists (_, _), post. split; [reflexivity|]. apply list_elem_of_here.
Qed.

Lemma process_batch_event_status_mapping_witness :
  let st' := (process_batch_event completion0 quiet (world0 IN_USE STOPPING)).2 in
  Forall (job_written_as STOPPED) (effects st') /\
  exists k post, k.2 = "ccj-1" /\ JobWritten k post ∈ effects st'.
Proof.
  intros st'.
  destruct (process_batch_event_status_mapping completion0 quiet (world0 IN_USE STOPPING)
              "ccj-1" "FAILED" prefix0)
    as (r & st'' & l & Hrun & Hl & HP & Hret).
  - reflexivity.
  - discriminate.
  - reflexivity.
  - right; reflexivity.
  - vm_compute. reflexivity.
  - assert (Hr : (process_batch_event completion0 quiet (world0 IN_USE STOPPING)).1 = Return tt)
      by (vm_compute; reflexivity).
    assert (Hs : st' = st'') by (unfold st'; by rewrite Hrun).
    rewrite Hrun in Hr. cbn in Hr. cbn in Hl. rewrite Hs, Hl.
    split; [exact HP|]. exact (Hret Hr).
Defined.

(** ** The job orchestrator *)

Lemma emits_any_update_job_status request :
  emits (fun _ => True) (update_job_status request).
Proof.
  intros o st. destruct (emits_update_job_status request o st) as (l & Hl & _).
  exists l. split; [done|]. by apply Forall_forall.
Qed.

(** C3 (as amended). For a stream record whose new image carries status
    STARTED the orchestrator does not read the jobs table before it acts:
    whenever the connector lookup succeeds and the job definition is
    registered, the invocation registers a job definition named after the
    job and submits a batch job for it, whatever status is stored for the
    job. *)
Theorem record_handler_started_submits `{UnicodeData}
    (record : DynamoDBRecord) (image : JobImage) (o : Oracle) (st : St)
    (job_id connector_id custom_connector_arn_prefix job_definition_arn : string)
    (tenant_context : TenantContext) :
  new_image record = Some image ->
  img_job_id image = Some job_id -> job_id <> EmptyString ->
  img_connector_id image = Some connector_id -> connector_id <> EmptyString ->
  img_custom_connector_arn_prefix image = Some custom_connector_arn_prefix ->
  match_arn_prefix custom_connector_arn_prefix = Some tenant_context ->
  img_status image = Some "STARTED" ->
  connector_found o st (get_arn_prefix tenant_context, connector_id) ->
  register_response o (1 + tick st) = Some job_definition_arn ->
  exists r st' definition seconds rest,
    record_handler record o st = (r, st') /\
    jd_name definition = job_id /\
    effects st'
    = (effects st
       ++ RegisterJobDefinition definition
       :: SubmitJob job_id job_definition_arn seconds
       :: rest)%list.
Proof.
  intros Himage Hjob Hjne Hconn Hcne Hprefix Hmatch Hstatus Hfound Hreg.
  unfold record_handler. rewrite Himage. cbv zeta. rewrite Hjob, Hconn, Hprefix, Hstatus.
  destruct job_id as [|a1 s1]; [done|]. destruct connector_id as [|a2 s2]; [done|].
  destruct custom_connector_arn_prefix as [|a3 s3]; [done|].
  unfold from_arn_prefix. rewrite Hmatch.
  rewrite (bind_Return (ret tenant_context) _ o st tenant_context st) by reflexivity.
  change (String.eqb "STARTED" (JobStatus_value STARTED)) with true. cbv iota.
  unfold handle_job_start.
  cbn [ctx_job_id ctx_connector_id ctx_custom_connector_arn_prefix ctx_environment
       ctx_tenant_context].
  match goal with |- context [try_except ?body ?handler o st] =>
    set (b := body); set (h := handler)
  end.
  assert (Hbody : exists rb sb definition seconds rest,
            b o st = (rb, sb) /\ jd_name definition = String a1 s1 /\
            effects sb
            = (effects st ++ RegisterJobDefinition definition
               :: SubmitJob (String a1 s1) job_definition_arn seconds :: rest)%list).
  { unfold b. unfold bind at 1. rewrite get_connector_eq.
    destruct Hfound as (Hf & item & props & Hitem & Hprops).
    cbn [gc_tenant_context gc_connector_id]. rewrite Hf, Hitem, Hprops.
    unfold bind at 1, getenv_api_endpoint.
    unfold bind at 1, register_job_definition.
    cbn [tick enter]. cbn in Hreg. rewrite Hreg.
    unfold bind at 1, getenv_job_queue.
    unfold bind at 1, submit_job. cbn [tick enter tables effects].
    destruct (submit_response o (S (S (tick st)))) as [batch_job_id|].
    - match goal with |- context [update_job_status ?q o ?s] =>
        destruct (emits_any_update_job_status q o s) as (l & Hl & _);
        destruct (update_job_status q o s) as [rb sb]
      end.
      cbn in Hl. eexists rb, sb, _, _, l. split; [reflexivity|].
      split; [|rewrite Hl, <- !app_assoc; reflexivity]. reflexivity.
    - eexists _, _, _, _, []. split; [reflexivity|].
      split; [|cbn; rewrite <- !app_assoc; reflexivity]. reflexivity. }
  destruct Hbody as (rb & sb & definition & seconds & rest & Hb & Hname & Heff).
  unfold try_except at 1. rewrite Hb.
  destruct rb as [[]|e].
  - eexists _, _, definition, seconds, rest. by repeat split.
  - assert (Hh : emits (fun _ => True) (h e)).
    { unfold h. apply emits_try_except; [|auto with emits].
      apply emits_bind; [apply emits_any_update_job_status|].
      intros _. by apply emits_update_connector_status. }
    destruct (Hh o sb) as (l & Hl & _).
    destruct (h e o sb) as [r st'].
    cbn in Hl. eexists r, st', definition, seconds, (rest ++ l)%list.
    split; [reflexivity|]. split; [exact Hname|].
    rewrite Hl, Heff, <- app_assoc. reflexivity.
Qed.

Lemma record_handler_started_submits_witness :
  exists definition seconds rest,
    effects (record_handler (record0 "STARTED") quiet (world0 IN_USE STOPPED)).2
    = RegisterJobDefinition definition :: SubmitJob "ccj-1" "arn:jobdef" seconds :: rest.
Proof.
  destruct (record_handler_started_submits (record0 "STARTED")
              (mkJobImage (Some "ccj-1") (Some "cc-1") (Some prefix0) (Some "STARTED") None
                 (Some []))
              quiet (world0 IN_USE STOPPED) "ccj-1" "cc-1" prefix0 "arn:jobdef" tenant0)
    as (r & st' & definition & seconds & rest & Hrun & _ & Heff).
  - reflexivity.
  - reflexivity.
  - discriminate.
  - reflexivity.
  - discriminate.
  - reflexivity.
  - reflexivity.
  - reflexivity.
  - split; [reflexivity|]. exists (with_status connector0 IN_USE), props0. split; reflexivity.
  - reflexivity.
  - exists definition, seconds, rest. rewrite Hrun. exact Heff.
Defined.

(** C3 as stated fails on the code.  The job is stored as RUNNING, or as
    STOPPED, and a record carrying STARTED is delivered again: the
    orchestrator submits a batch job all the same. *)
Lemma record_handler_started_counterexample :
  (j_status <$> jobs (tables (world0 IN_USE RUNNING)) !! (prefix0, "ccj-1") = Some RUNNING /\
   SubmitJob "ccj-1" "arn:jobdef" 3600
   ∈ effects (record_handler (record0 "STARTED") quiet (world0 IN_USE RUNNING)).2) /\
  (j_status <$> jobs (tables (world0 IN_USE STOPPED)) !! (prefix0, "ccj-1") = Some STOPPED /\
   SubmitJob "ccj-1" "arn:jobdef" 3600
   ∈ effects (record_handler (record0 "STARTED") quiet (world0 IN_USE STOPPED)).2).
Proof.
  split; (split; [reflexivity|]); apply list_elem_of_In; vm_compute; tauto.
Qed.

(** ** The sync reconciler *)

Lemma model_dump_json_without_timestamps m :
  model_dump_json m ["last_updated_at"; "created_at"]
  = JObject
      ([("title", JString (title m))]
       ++ field "source_uri" (JString <$> source_uri m)
       ++ [("attributes",
            JObject ((fun kv : string * string => (kv.1, JString kv.2))
                       <$> map_to_list (attributes m)));
           ("access_control_list", JArray (dump_AccessControl <$> access_control_list m))])%list.
Proof.
  unfold model_dump_json, metadata_fields. cbn [flat_map fst snd].
  change (bool_decide ("title" ∈ ["last_updated_at"; "created_at"])) with false.
  change (bool_decide ("source_uri" ∈ ["last_updated_at"; "created_at"])) with false.
  change (bool_decide ("last_updated_at" ∈ ["last_updated_at"; "created_at"])) with true.
  change (bool_decide ("created_at" ∈ ["last_updated_at"; "created_at"])) with true.
  change (bool_decide ("attributes" ∈ ["last_updated_at"; "created_at"])) with false.
  change (bool_decide ("access_control_list" ∈ ["last_updated_at"; "created_at"])) with false.
  reflexivity.
Qed.

Lemma checksums_of_snoc P docs doc :
  checksums_of P (docs ++ [doc]) = <[id doc := get_checksum P doc]> (checksums_of P docs).
Proof. unfold checksums_of. by rewrite fold_left_app. Qed.

Lemma checksums_of_lookup P docs i c :
  checksums_of P docs !! i = Some c ->
  exists doc, doc ∈ docs /\ id doc = i /\ c = get_checksum P doc.
Proof.
  induction docs as [|doc docs IH] using rev_ind; [done|].
  rewrite checksums_of_snoc. destruct (decide (id doc = i)) as [<-|Hne].
  - rewrite lookup_insert_eq. intros [= <-]. exists doc.
    split; [|done]. apply elem_of_app. right. apply list_elem_of_here.
  - rewrite lookup_insert_ne by done. intros H.
    destruct (IH H) as (d & ? & ? & ?). exists d.
    split; [|done]. apply elem_of_app. by left.
Qed.

Lemma checksums_of_is_Some P docs doc :
  doc ∈ docs -> is_Some (checksums_of P docs !! id doc).
Proof.
  induction docs as [|d docs IH] using rev_ind; [by intros ?%elem_of_nil|].
  rewrite checksums_of_snoc. intros [Hin | ->%list_elem_of_singleton]%elem_of_app.
  - destruct (decide (id d = id doc)) as [->|Hne].
    + rewrite lookup_insert_eq. eauto.
    + rewrite lookup_insert_ne by done. auto.
  - rewrite lookup_insert_eq. eauto.
Qed.

(** C8. Two documents with the same id, the same file content and the same
    title, source URI, attributes and access control list have the same
    checksum, whatever their [last_updated_at] and [created_at]; so a
    document whose twin is recorded in the ledger is not selected by the
    filter of [sync]. *)
Theorem get_checksum_ignores_timestamps (P : Platform) (d1 d2 : Document) :
  id d1 = id d2 ->
  read_bytes P (file_path (file d1)) = read_bytes P (file_path (file d2)) ->
  title (metadata d1) = title (metadata d2) ->
  source_uri (metadata d1) = source_uri (metadata d2) ->
  attributes (metadata d1) = attributes (metadata d2) ->
  access_control_list (metadata d1) = access_control_list (metadata d2) ->
  get_checksum P d1 = get_checksum P d2 /\
  forall (ledger : gmap string CCFDocument) (entry : CCFDocument),
    ledger !! id d1 = Some entry -> checksum entry = get_checksum P d1 ->
    docs_to_sync P [d2] ledger = [].
Proof.
  intros Hid Hfile Htitle Huri Hattr Hacl.
  assert (Hsum : get_checksum P d1 = get_checksum P d2).
  { unfold get_checksum. rewrite !model_dump_json_without_timestamps.
    by rewrite Hid, Hfile, Htitle, Huri, Hattr, Hacl. }
  split; [exact Hsum|].
  intros ledger entry Hentry Hc.
  unfold docs_to_sync, checksums_of. cbn.
  rewrite <- Hid, Hentry, lookup_insert_eq, Hc, Hsum.
  by rewrite bool_decide_eq_true_2.
Qed.

Lemma get_checksum_ignores_timestamps_witness :
  last_updated_at (metadata (document0 "a"))
  <> last_updated_at (metadata (document0_touched "a")) /\
  get_checksum platform0 (document0 "a") = get_checksum platform0 (document0_touched "a").
Proof.
  split; [discriminate|].
  apply (get_checksum_ignores_timestamps platform0 (document0 "a") (document0_touched "a"));
    reflexivity.
Defined.

Lemma filter_nil_iff {A} (f : A -> bool) (l : list A) :
  List.filter f l = [] <-> forall x, x ∈ l -> f x = false.
Proof.
  induction l as [|a l IH]; cbn.
  - split; [intros _ x Hx; by apply elem_of_nil in Hx | done].
  - destruct (f a) eqn:Ha.
    + split; [done|]. intros H. specialize (H a (list_elem_of_here _ _)). congruence.
    + rewrite IH. split.
      * intros H x [->|Hx]%elem_of_cons; auto.
      * intros H x Hx. apply H. by apply list_elem_of_further.
Qed.

(** The checksums of the documents a filter on ids keeps. *)
Lemma checksums_of_filter P (g : string -> bool) docs i :
  checksums_of P (List.filter (fun doc => g (id doc)) docs) !! i
  = if g i then checksums_of P docs !! i else None.
Proof.
  induction docs as [|doc docs IH] using rev_ind.
  - cbn. rewrite lookup_empty. by destruct (g i).
  - rewrite List.filter_app, checksums_of_snoc. cbn.
    destruct (g (id doc)) eqn:Hg.
    + rewrite checksums_of_snoc. destruct (decide (id doc = i)) as [<-|Hne].
      * by rewrite !lookup_insert_eq, Hg.
      * by rewrite !lookup_insert_ne.
    + rewrite app_nil_r, IH. destruct (decide (id doc = i)) as [<-|Hne].
      * by rewrite Hg.
      * by rewrite lookup_insert_ne.
Qed.

Lemma range_from_concat {A} (size : nat) (l : list A) fuel i :
  (0 < size)%nat -> (length l - i <= fuel)%nat ->
  concat ((fun i => take size (drop i l)) <$> range_from fuel i (length l) size) = drop i l.
Proof.
  intros Hsize. revert i. induction fuel as [|fuel IH]; intros i Hfuel.
  - cbn. symmetry. apply drop_ge. lia.
  - cbn [range_from]. destruct (Nat.ltb_spec i (length l)) as [Hlt|Hge].
    + rewrite fmap_cons. cbn [concat]. rewrite IH by lia.
      rewrite <- (drop_drop l size i). apply take_drop.
    + cbn. symmetry. apply drop_ge. lia.
Qed.

Lemma range_from_bound fuel i stop step :
  Forall (fun j => (j < stop)%nat) (range_from fuel i stop step).
Proof.
  revert i. induction fuel as [|fuel IH]; intros i; cbn [range_from]; [constructor|].
  destruct (Nat.ltb_spec i stop); [|constructor]. constructor; [done|apply IH].
Qed.

Lemma slices_partition {A} (size : nat) (l : list A) :
  (0 < size)%nat ->
  concat (slices size l) = l /\
  Forall (fun b => (0 < length b <= size)%nat) (slices size l).
Proof.
  intros Hsize. unfold slices, range0. split.
  - rewrite range_from_concat by lia. apply drop_0.
  - apply Forall_fmap. eapply Forall_impl; [apply range_from_bound|].
    intros j Hj. unfold compose. cbn beta in Hj |- *. rewrite length_take, length_drop. lia.
Qed.

Lemma fold_left_concat {A B} (f : A -> B -> A) (ls : list (list B)) (a : A) :
  fold_left (fun a l => fold_left f l a) ls a = fold_left f (concat ls) a.
Proof.
  revert a. induction ls as [|l ls IH]; intros a; cbn; [done|].
  by rewrite fold_left_app, IH.
Qed.

Lemma ccf_batch_delete_documents_lookup_full document_ids ledger i :
  ccf_batch_delete_documents document_ids ledger !! i
  = if bool_decide (i ∈ document_ids) then None else ledger !! i.
Proof.
  unfold ccf_batch_delete_documents, ccf_delete_requests.
  rewrite (fold_left_concat (fun l doc_id => delete doc_id l)).
  rewrite (proj1 (slices_partition BATCH_DELETE_DOCUMENT_MAX_SIZE document_ids
                    ltac:(unfold BATCH_DELETE_DOCUMENT_MAX_SIZE; lia))).
  revert ledger.
  induction document_ids as [|d ids IH]; intros ledger; cbn [fold_left].
  - rewrite bool_decide_eq_false_2; [done|]. apply not_elem_of_nil.
  - rewrite IH. destruct (decide (i = d)) as [->|Hne].
    + rewrite lookup_delete_eq. rewrite (bool_decide_eq_true_2 (d ∈ d :: ids));
        [by destruct (bool_decide _)|apply list_elem_of_here].
    + rewrite lookup_delete_ne by done.
      rewrite (bool_decide_ext (i ∈ d :: ids) (i ∈ ids)); [done|].
      rewrite elem_of_cons. tauto.
Qed.

Lemma ccf_batch_delete_documents_lookup document_ids ledger i :
  i ∉ document_ids ->
  ccf_batch_delete_documents document_ids ledger !! i = ledger !! i.
Proof.
  intros Hi. rewrite ccf_batch_delete_documents_lookup_full.
  by rewrite bool_decide_eq_false_2.
Qed.

Lemma dict_setitem_map (d : list (string * string)) k v :
  (list_to_map (dict_setitem d k v) : gmap string string) = <[k := v]> (list_to_map d).
Proof.
  induction d as [|[k' v'] d IH]; cbn [dict_setitem]; [done|].
  destruct (String.eqb_spec k k') as [<-|Hne]; cbn [list_to_map foldr uncurry fst snd].
  - by rewrite insert_insert_eq.
  - rewrite IH. by apply insert_insert_ne.
Qed.

Lemma dict_setitem_keys (d : list (string * string)) k v x :
  x ∈ (dict_setitem d k v).*1 <-> x = k \/ x ∈ d.*1.
Proof.
  induction d as [|[k' v'] d IH]; cbn [dict_setitem].
  - cbn. rewrite list_elem_of_singleton, elem_of_nil. tauto.
  - destruct (String.eqb_spec k k') as [<-|Hne]; cbn [fmap list_fmap fst].
    + rewrite !elem_of_cons. tauto.
    + rewrite !elem_of_cons. change (list_fmap _ _ fst ?l) with (l.*1). rewrite IH. tauto.
Qed.

Lemma dict_setitem_NoDup (d : list (string * string)) k v :
  NoDup d.*1 -> NoDup (dict_setitem d k v).*1.
Proof.
  induction d as [|[k' v'] d IH]; cbn [dict_setitem]; intros Hnd.
  - cbn. apply NoDup_singleton.
  - cbn [fmap list_fmap fst] in Hnd. apply NoDup_cons in Hnd as [Hk' Hnd].
    destruct (String.eqb_spec k k') as [<-|Hne]; cbn [fmap list_fmap fst].
    + by apply NoDup_cons.
    + apply NoDup_cons. split; [|by apply IH].
      change (list_fmap _ _ fst ?l) with (l.*1). rewrite dict_setitem_keys.
      intros [->|Hin]; [done|]. by apply Hk'.
Qed.

Lemma checksum_items_spec P docs :
  NoDup (checksum_items P docs).*1 /\
  (list_to_map (checksum_items P docs) : gmap string string) = checksums_of P docs.
Proof.
  unfold checksum_items, checksums_of.
  induction docs as [|doc docs [IH1 IH2]] using rev_ind.
  - cbn. split; [apply NoDup_nil_2|done].
  - rewrite !fold_left_app. cbn [fold_left]. split.
    + by apply dict_setitem_NoDup.
    + by rewrite dict_setitem_map, IH2.
Qed.

Lemma dao_batch_put_documents_cons now_iso k c documents ledger :
  dao_batch_put_documents now_iso ((k, c) :: documents) ledger
  = dao_batch_put_documents now_iso documents (<[k := mkCCFDocument k c now_iso now_iso]> ledger).
Proof. reflexivity. Qed.

Lemma dao_batch_put_documents_other now_iso documents ledger i :
  i ∉ documents.*1 -> dao_batch_put_documents now_iso documents ledger !! i = ledger !! i.
Proof.
  revert ledger.
  induction documents as [|[k c] documents IH]; intros ledger Hi; [done|].
  rewrite dao_batch_put_documents_cons. cbn [fmap list_fmap fst] in Hi.
  apply not_elem_of_cons in Hi as [Hne Hi].
  rewrite IH by done. by apply lookup_insert_ne.
Qed.

Lemma dao_batch_put_documents_put now_iso documents ledger i c :
  NoDup documents.*1 -> (i, c) ∈ documents ->
  dao_batch_put_documents now_iso documents ledger !! i
  = Some (mkCCFDocument i c now_iso now_iso).
Proof.
  revert ledger.
  induction documents as [|[k c'] documents IH]; intros ledger Hnd Hin;
    [by apply elem_of_nil in Hin|].
  cbn [fmap list_fmap fst] in Hnd. apply NoDup_cons in Hnd as [Hk Hnd].
  rewrite dao_batch_put_documents_cons. apply elem_of_cons in Hin as [[= -> ->]|Hin].
  - rewrite (dao_batch_put_documents_other now_iso documents _ k Hk).
    apply lookup_insert_eq.
  - by apply IH.
Qed.

Lemma ccf_put_loop_other clock n requests ledger i :
  i ∉ (concat requests).*1 -> ccf_put_loop clock n requests ledger !! i = ledger !! i.
Proof.
  revert n ledger. induction requests as [|batch rest IH]; intros n ledger Hi; [done|].
  cbn [concat] in Hi. rewrite fmap_app in Hi. apply not_elem_of_app in Hi as [Hb Hr].
  cbn [ccf_put_loop]. rewrite IH by done. by apply dao_batch_put_documents_other.
Qed.

Lemma ccf_put_loop_put clock n requests ledger i c :
  NoDup (concat requests).*1 -> (i, c) ∈ concat requests ->
  exists m, (n <= m < n + length requests)%nat /\
            ccf_put_loop clock n requests ledger !! i
            = Some (mkCCFDocument i c (clock m) (clock m)).
Proof.
  revert n ledger. induction requests as [|batch rest IH]; intros n ledger Hnd Hin;
    [by apply elem_of_nil in Hin|].
  cbn [concat] in Hnd, Hin. rewrite fmap_app in Hnd.
  apply NoDup_app in Hnd as (Hb & Hdisj & Hr).
  cbn [ccf_put_loop length]. apply elem_of_app in Hin as [Hin|Hin].
  - exists n. split; [lia|].
    rewrite ccf_put_loop_other.
    + by apply dao_batch_put_documents_put.
    + apply Hdisj. by apply (list_elem_of_fmap_2 fst _ (i, c)).
  - destruct (IH (S n) (dao_batch_put_documents (clock n) batch ledger) Hr Hin)
      as (m & Hm & Hl).
    exists m. split; [lia|exact Hl].
Qed.

Lemma ccf_batch_put_documents_lookup clock P docs ledger i :
  match checksums_of P docs !! i with
  | Some c =>
      exists n,
        (n < length (ccf_put_requests (checksum_items P docs)))%nat /\
        ccf_batch_put_documents clock (checksum_items P docs) ledger !! i
        = Some (mkCCFDocument i c (clock n) (clock n))
  | None => ccf_batch_put_documents clock (checksum_items P docs) ledger !! i = ledger !! i
  end.
Proof.
  destruct (checksum_items_spec P docs) as [Hnd Hmap].
  pose proof (proj1 (slices_partition BATCH_PUT_DOCUMENT_MAX_SIZE (checksum_items P docs)
                       ltac:(unfold BATCH_PUT_DOCUMENT_MAX_SIZE; lia))) as Hcat.
  fold (ccf_put_requests (checksum_items P docs)) in Hcat.
  unfold ccf_batch_put_documents. rewrite <- Hmap.
  destruct (list_to_map (checksum_items P docs) !! i) as [c|] eqn:Hi.
  - apply elem_of_list_to_map in Hi; [|done].
    destruct (ccf_put_loop_put clock 0 (ccf_put_requests (checksum_items P docs)) ledger i c)
      as (m & Hm & Hl); [by rewrite Hcat..|].
    exists m. split; [lia|exact Hl].
  - apply not_elem_of_list_to_map in Hi.
    apply ccf_put_loop_other. by rewrite Hcat.
Qed.

Lemma sync_ledger_finished P clock documents_to_add documents_to_delete ledger :
  (_batch_put_documents P (docs_to_sync P documents_to_add ledger)).2 = true ->
  sync_ledger P clock documents_to_add documents_to_delete ledger
  = let put :=
      match docs_to_sync P documents_to_add ledger with
      | [] => ledger
      | _ => ccf_batch_put_documents clock
               (checksum_items P (docs_to_sync P documents_to_add ledger)) ledger
      end in
    match documents_to_delete with
    | [] => put
    | _ => ccf_batch_delete_documents documents_to_delete put
    end.
Proof.
  intros Hfinished. unfold sync_ledger. cbv zeta.
  destruct (docs_to_sync P documents_to_add ledger) as [|d ds]; [done|].
  by rewrite Hfinished.
Qed.

Lemma sync_ledger_raised P clock documents_to_add documents_to_delete ledger :
  (_batch_put_documents P (docs_to_sync P documents_to_add ledger)).2 = false ->
  sync_ledger P clock documents_to_add documents_to_delete ledger = ledger.
Proof.
  intros Hraised. unfold sync_ledger. cbv zeta.
  destruct (docs_to_sync P documents_to_add ledger) as [|d ds]; [done|].
  by rewrite Hraised.
Qed.

(** C9 (as amended). When the ledger holds, for every document of the set,
    an entry of its id whose checksum is the document's, the filter of
    [sync] selects nothing.  It selects nothing on the ledger a first,
    successful run over the same documents leaves (the upload loop ran to
    its end and every call succeeded), provided that run's delete list
    names none of them. *)
Theorem docs_to_sync_idempotent (P : Platform) (docs : list Document) :
  (forall ledger : gmap string CCFDocument,
     (forall doc, doc ∈ docs ->
        exists entry, ledger !! id doc = Some entry /\ checksum entry = get_checksum P doc) ->
     docs_to_sync P docs ledger = []) /\
  (forall (ledger : gmap string CCFDocument) (clock : nat -> string)
          (documents_to_delete : list string),
     (_batch_put_documents P (docs_to_sync P docs ledger)).2 = true ->
     (forall doc, doc ∈ docs -> id doc ∉ documents_to_delete) ->
     docs_to_sync P docs (sync_ledger P clock docs documents_to_delete ledger) = []).
Proof.
  split.
  - intros ledger Hsynced. unfold docs_to_sync. apply filter_nil_iff.
    intros doc Hdoc.
    destruct (Hsynced doc Hdoc) as (entry & He & Hc).
    destruct (checksums_of_is_Some P docs doc Hdoc) as [c Hl].
    destruct (checksums_of_lookup P docs _ _ Hl) as (doc' & Hdoc' & Hid & ->).
    destruct (Hsynced doc' Hdoc') as (entry' & He' & Hc').
    rewrite Hid, He in He'. injection He' as <-.
    rewrite He, Hl, Hc'. by rewrite bool_decide_eq_true_2.
  - intros ledger clock documents_to_delete Hfinished Hkeep.
    set (g := fun i => match ledger !! i with
                       | None => true
                       | Some entry =>
                           negb (bool_decide (Some (checksum entry) = checksums_of P docs !! i))
                       end).
    assert (Hfirst : forall doc, doc ∈ docs ->
              exists entry,
                sync_ledger P clock docs documents_to_delete ledger !! id doc = Some entry /\
                Some (checksum entry) = checksums_of P docs !! id doc).
    { intros doc Hdoc. rewrite sync_ledger_finished by done. cbv zeta.
      assert (Hput : forall l,
                (match documents_to_delete with
                 | [] => l
                 | _ => ccf_batch_delete_documents documents_to_delete l
                 end) !! id doc = l !! id doc).
      { intros l. destruct documents_to_delete as [|d ds]; [done|].
        apply ccf_batch_delete_documents_lookup. auto. }
      rewrite Hput. unfold docs_to_sync.
      change (List.filter _ docs) with (List.filter (fun d => g (id d)) docs).
      clear Hput.
      destruct (checksums_of_is_Some P docs doc Hdoc) as [c Hc].
      pose proof (ccf_batch_put_documents_lookup clock P
                    (List.filter (fun d => g (id d)) docs) ledger (id doc)) as Hcase.
      rewrite checksums_of_filter in Hcase.
      destruct (g (id doc)) eqn:Hg.
      - rewrite Hc in Hcase. destruct Hcase as (n & _ & Hcase).
        destruct (List.filter (fun d => g (id d)) docs) as [|d0 ds0] eqn:Hf.
        + exfalso. pose proof (proj1 (filter_nil_iff _ _) Hf doc Hdoc) as Hn.
          cbn in Hn. congruence.
        + rewrite Hcase. eexists. split; [reflexivity|]. by rewrite Hc.
      - assert (Hled : exists entry, ledger !! id doc = Some entry /\
                         Some (checksum entry) = checksums_of P docs !! id doc).
        { unfold g in Hg. destruct (ledger !! id doc) as [entry|]; [|done].
          exists entry. split; [done|].
          apply negb_false_iff, bool_decide_eq_true_1 in Hg. exact Hg. }
        destruct (List.filter (fun d => g (id d)) docs) as [|d0 ds0] eqn:Hf; [exact Hled|].
        rewrite Hcase. exact Hled. }
    unfold docs_to_sync. apply filter_nil_iff. intros doc Hdoc.
    destruct (Hfirst doc Hdoc) as (entry & -> & He).
    by rewrite bool_decide_eq_true_2.
Qed.

Lemma docs_to_sync_idempotent_witness :
  let docs := [document0 "a"; document0 "b"] in
  docs_to_sync platform0 docs ∅ = docs /\
  docs_to_sync platform0 docs ledger0 = [] /\
  docs_to_sync platform0 docs
    (sync_ledger platform0 (fun _ => "2025-01-01T00:00:00+00:00") docs ["z"] ∅) = [].
Proof.
  intros docs. split; [vm_compute; reflexivity|]. split.
  - apply (proj1 (docs_to_sync_idempotent platform0 docs)).
    intros doc Hdoc. apply list_elem_of_In in Hdoc. cbn in Hdoc.
    destruct Hdoc as [<-|[<-|[]]]; eexists; split; reflexivity.
  - apply (proj2 (docs_to_sync_idempotent platform0 docs)); [reflexivity|].
    intros doc Hdoc Hin. apply list_elem_of_In in Hdoc, Hin. cbn in Hdoc, Hin.
    destruct Hin as [Hz|[]]. destruct Hdoc as [<-|[<-|[]]]; discriminate Hz.
Defined.

(** C9 as stated fails on the code in its second part.  A run whose delete
    list names a document it also adds puts the checksum and then removes
    it again, the delete coming last; the ledger it leaves has no entry for
    the document, and a second run over the same, unchanged documents
    selects it once more. *)
Lemma docs_to_sync_idempotent_counterexample :
  let docs := [document0 "a"] in
  let first_run := sync_ledger platform0 (fun _ => "2025-01-01T00:00:00+00:00") docs ["a"] ∅ in
  (_batch_put_documents platform0 (docs_to_sync platform0 docs ∅)).2 = true /\
  first_run !! "a" = None /\
  docs_to_sync platform0 docs first_run = docs.
Proof. vm_compute. repeat split. Qed.


(** The two caps of [_batch_put_documents] that hold: a dispatched batch has
    at most [PUT_MAX_DOCS] documents, and every dispatched document was
    prepared from a document of the input whose file is not larger than
    [PUT_MAX_SINGLE_SIZE]. *)
Lemma batch_put_loop_count P documents batch size_accumulator :
  (length batch < 10)%nat ->
  Forall (fun b => (length b <= 10)%nat) (batch_put_loop P documents batch size_accumulator).1.
Proof.
  revert batch size_accumulator.
  induction documents as [|doc rest IH]; intros batch acc Hlen; cbn.
  - destruct batch; [constructor|]. constructor; [lia|constructor].
  - destruct (_prepare_document_for_upload P doc) as [| |q]; [constructor | by apply IH |].
    destruct (_ || _) eqn:Hflush.
    + specialize (IH [] 0 ltac:(cbn; lia)).
      destruct (batch_put_loop P rest [] 0) as [sent finished]. cbn in *.
      constructor; [|done]. rewrite length_app. cbn. lia.
    + apply IH. apply orb_false_iff in Hflush as [Hn _].
      rewrite length_app in *. cbn in *. unfold PUT_MAX_DOCS in Hn.
      apply Z.eqb_neq in Hn. lia.
Qed.

Lemma _prepare_document_for_upload_ceiling P doc q :
  _prepare_document_for_upload P doc = Ready q ->
  get_size P (file doc) <= PUT_MAX_SINGLE_SIZE.
Proof.
  unfold _prepare_document_for_upload.
  destruct (infer_content_type P (file doc)); [|discriminate].
  destruct (PUT_MAX_SINGLE_SIZE <? get_size P (file doc))%Z eqn:Hs; [discriminate|].
  intros _. by apply Z.ltb_ge in Hs.
Qed.

Lemma batch_put_loop_ceiling P documents batch size_accumulator b q :
  b ∈ (batch_put_loop P documents batch size_accumulator).1 -> q ∈ b ->
  q ∈ batch \/
  exists doc, doc ∈ documents /\ _prepare_document_for_upload P doc = Ready q /\
              get_size P (file doc) <= PUT_MAX_SINGLE_SIZE.
Proof.
  revert batch size_accumulator.
  induction documents as [|doc rest IH]; intros batch acc Hb Hq; cbn in Hb.
  - destruct batch; [by apply elem_of_nil in Hb|].
    apply list_elem_of_singleton in Hb as ->. by left.
  - destruct (_prepare_document_for_upload P doc) as [| |p] eqn:Hp.
    + by apply elem_of_nil in Hb.
    + destruct (IH _ _ Hb Hq) as [?|(d & ? & ? & ?)]; [by left|].
      right. exists d. split; [by apply list_elem_of_further|done].
    + assert (Hnew : forall x, x ∈ (batch ++ [p])%list ->
                x ∈ batch \/
                exists d, d ∈ doc :: rest /\ _prepare_document_for_upload P d = Ready x /\
                          get_size P (file d) <= PUT_MAX_SINGLE_SIZE).
      { intros x [Hx | ->%list_elem_of_singleton]%elem_of_app; [by left|].
        right. exists doc. split; [apply list_elem_of_here|].
        split; [done|]. by eapply _prepare_document_for_upload_ceiling. }
      destruct (_ || _).
      * destruct (batch_put_loop P rest [] 0) as [sent finished] eqn:Hrest. cbn in Hb.
        apply elem_of_cons in Hb as [-> | Hb]; [by apply Hnew|].
        destruct (IH [] 0) as [Hnil|(d & ? & ? & ?)]; [by rewrite Hrest | done | |].
        -- by apply elem_of_nil in Hnil.
        -- right. exists d. split; [by apply list_elem_of_further|done].
      * destruct (IH _ _ Hb Hq) as [Hx|(d & ? & ? & ?)]; [by apply Hnew|].
        right. exists d. split; [by apply list_elem_of_further|done].
Qed.

(** C7 fails on the code in its size cap.  Two documents of 6 MiB each are
    sent inline in one batch: after the first the accumulated size has not
    reached [PUT_MAX_TOTAL_SIZE], and the test comes after the second has
    been appended.  The batch carries 12 MiB. *)
Theorem batch_put_exceeds_total_size :
  let sent := (_batch_put_documents platform0 [document0 "a"; document0 "b"]).1 in
  List.map (List.map q_id) sent = [["a"; "b"]] /\
  List.map (payload_size platform0) sent = [12 * 1024 * 1024] /\
  PUT_MAX_TOTAL_SIZE < 12 * 1024 * 1024.
Proof. vm_compute. repeat split. Qed.

(** * Further properties of the code *)

(** ** Tenants *)

Lemma span_append p r s :
  string_forall p r = true ->
  (s = EmptyString \/ exists c s', s = String c s' /\ p c = false) ->
  span p (r +:+ s) = (r, s).
Proof.
  intros Hr Hs. induction r as [|a r IH].
  - change (EmptyString +:+ s) with s.
    destruct Hs as [-> | (c & s' & -> & Hc)]; [done|].
    cbn [span]. by rewrite Hc.
  - cbn [string_forall] in Hr. apply andb_true_iff in Hr as [Ha Hr].
    change (String a r +:+ s) with (String a (r +:+ s)).
    cbn [span]. by rewrite Ha, (IH Hr).
Qed.

Lemma string_append_assoc (a b c : string) : (a +:+ b) +:+ c = a +:+ (b +:+ c).
Proof.
  induction a as [|x a IH]; [done|].
  change (String x a +:+ b) with (String x (a +:+ b)).
  change (String x (a +:+ b) +:+ c) with (String x ((a +:+ b) +:+ c)).
  by rewrite IH.
Qed.

Lemma strip_prefix_append p s : strip_prefix p (p +:+ s) = Some s.
Proof.
  induction p as [|x p IH]; [by destruct s|].
  change (String x p +:+ s) with (String x (p +:+ s)).
  cbn [strip_prefix]. by rewrite Ascii.eqb_refl.
Qed.

Lemma append_String c a b : String c a +:+ b = String c (a +:+ b).
Proof. reflexivity. Qed.

Lemma span_digits_Some `{UnicodeData} s : s = (span_digits s).1 +:+ (span_digits s).2.
Proof.
  remember (String.length s) as n eqn:Hn. revert s Hn.
  induction n as [n IH] using lt_wf_ind. intros s ->.
  assert (Hrec : forall r, (String.length r < String.length s)%nat ->
            forall t k, span_digits r = (t, k) -> r = t +:+ k).
  { intros r Hr t k Hk. rewrite (IH _ Hr r eq_refl) at 1. by rewrite Hk. }
  clear IH.
  destruct s as [|b0 r0]; [done|]. cbn [span_digits]. cbv zeta.
  repeat match goal with
  | |- context [if ?c then _ else _] => destruct c
  | |- context [match ?r with EmptyString => _ | String _ _ => _ end] => destruct r
  end; try reflexivity;
  match goal with
  | |- context [span_digits ?r] =>
      destruct (span_digits r) as [t k] eqn:Hk;
      apply Hrec in Hk; [|cbn; lia]; cbn [fst snd]; rewrite ?append_String; by rewrite <- Hk
  end.
Qed.

Lemma is_ascii_digit_is_digit `{UnicodeData} c :
  is_ascii_digit c = true -> (byte c <? 128)%N = true /\ is_digit (byte c) = true.
Proof.
  destruct c as [[] [] [] [] [] [] [] []]; cbv; (discriminate || by split).
Qed.

Lemma span_digits_append `{UnicodeData} digits rest :
  string_forall is_ascii_digit digits = true ->
  (span_digits rest).1 = EmptyString ->
  span_digits (digits +:+ rest) = (digits, rest).
Proof.
  intros Hd Hrest. induction digits as [|c digits IH].
  - change (EmptyString +:+ rest) with rest.
    pose proof (span_digits_Some rest) as Hs.
    destruct (span_digits rest) as [t k]. cbn in Hrest, Hs. subst t. cbn in Hs. by subst rest.
  - cbn [string_forall] in Hd. apply andb_true_iff in Hd as [Hc Hd].
    rewrite append_String. cbn [span_digits]. cbv zeta.
    destruct (is_ascii_digit_is_digit c Hc) as [-> ->]. by rewrite (IH Hd).
Qed.

(** A tenant with an account id of the digits [0] to [9] is read back from
    its own ARN prefix, and from any ARN that extends the prefix by text
    that does not begin with a decimal digit (a connector ARN, for one):
    [re.match] does not look past the account id.  A decimal digit right
    after the prefix, ASCII or not, would be taken into the account id. *)
Theorem from_arn_prefix_get_arn_prefix `{UnicodeData} (t : TenantContext) (rest : string) :
  well_formed_tenant t ->
  (span_digits rest).1 = EmptyString ->
  match_arn_prefix (get_arn_prefix t +:+ rest) = Some t.
Proof.
  intros (Hrne & Hr & Hane & Ha) Hrest.
  unfold match_arn_prefix, get_arn_prefix.
  rewrite !string_append_assoc, strip_prefix_append.
  rewrite (span_append _ (region t) (":" +:+ account_id t +:+ rest) Hr).
  2:{ right. by exists ":"%char, (account_id t +:+ rest). }
  destruct t as [account reg]. cbn [region account_id] in *.
  destruct reg as [|c r]; [done|].
  change (":" +:+ account +:+ rest) with (String ":" (account +:+ rest)).
  cbv beta iota.
  rewrite (span_digits_append account rest Ha Hrest).
  by destruct account.
Qed.

Lemma from_arn_prefix_get_arn_prefix_witness :
  match_arn_prefix (get_connector_arn tenant0 "cc-1") = Some tenant0.
Proof.
  apply (from_arn_prefix_get_arn_prefix tenant0 ":custom-connector/cc-1").
  - repeat split; (discriminate || reflexivity).
  - reflexivity.
Defined.

Lemma strip_prefix_Some p s r : strip_prefix p s = Some r -> s = p +:+ r.
Proof.
  revert s. induction p as [|x p IH]; intros s; cbn [strip_prefix].
  - by intros [= ->].
  - destruct s as [|y s]; [done|].
    destruct (Ascii.eqb x y) eqn:Hxy; [|done].
    apply Ascii.eqb_eq in Hxy as ->. intros H.
    change (String y p +:+ r) with (String y (p +:+ r)). by rewrite (IH _ H).
Qed.

Lemma span_Some p s a b : span p s = (a, b) -> s = a +:+ b.
Proof.
  revert a b. induction s as [|c s IH]; intros a b; cbn [span].
  - by intros [= <- <-].
  - destruct (p c); [|by intros [= <- <-]].
    destruct (span p s) as [taken remaining]. intros [= <- <-].
    change (String c taken +:+ remaining) with (String c (taken +:+ remaining)).
    by rewrite (IH _ _ eq_refl).
Qed.

Lemma span_stop p s a c b : span p s = (a, String c b) -> p c = false.
Proof.
  revert a. induction s as [|x s IH]; intros a; cbn [span]; [done|].
  destruct (p x) eqn:Hx.
  - destruct (span p s) as [taken remaining]. intros [= <- ->]. by eapply IH.
  - by intros [= <- <- <-].
Qed.

(** Whatever [from_arn_prefix] accepts starts with the ARN prefix of the
    tenant it returns, whatever digits of Unicode the account id is written
    in; the rest of the input is not looked at. *)
Theorem match_arn_prefix_sound `{UnicodeData} (arn_prefix : string) (t : TenantContext) :
  match_arn_prefix arn_prefix = Some t ->
  exists rest, arn_prefix = get_arn_prefix t +:+ rest.
Proof.
  unfold match_arn_prefix.
  destruct (strip_prefix _ arn_prefix) as [rest|] eqn:Hp; [|done].
  apply strip_prefix_Some in Hp.
  destruct (span _ rest) as [reg after] eqn:Hreg.
  pose proof Hreg as Hsplit1. apply span_Some in Hsplit1.
  destruct reg as [|c r]; [done|]. destruct after as [|colon after]; [done|].
  apply span_stop in Hreg. apply negb_false_iff, Ascii.eqb_eq in Hreg as ->.
  pose proof (span_digits_Some after) as Hacct.
  destruct (span_digits after) as [acct tail]. cbn [fst snd] in Hacct.
  destruct acct as [|d a]; [done|]. intros [= <-].
  exists tail. unfold get_arn_prefix. cbn [region account_id].
  rewrite Hp, Hsplit1, Hacct. rewrite !string_append_assoc. reflexivity.
Qed.

Lemma match_arn_prefix_sound_witness :
  exists rest, "arn:aws:ccf:eu-west-1:42/extra" = get_arn_prefix (mkTenant "42" "eu-west-1") +:+ rest.
Proof.
  apply (match_arn_prefix_sound "arn:aws:ccf:eu-west-1:42/extra" (mkTenant "42" "eu-west-1")).
  reflexivity.
Defined.

(** The account id goes on through decimal digits that are not ASCII: the
    two bytes after [12] encode U+0663, ARABIC-INDIC DIGIT THREE, and the
    account id read is [12] followed by that digit. *)
Lemma match_arn_prefix_unicode_digit :
  let three := String (ascii_of_nat 217) (String (ascii_of_nat 163) EmptyString) in
  match_arn_prefix ("arn:aws:ccf:eu-west-1:12" +:+ three +:+ "/extra")
  = Some (mkTenant ("12" +:+ three) "eu-west-1").
Proof. reflexivity. Qed.

(** ** More of the connectors DAO *)

Lemma model_validate_model_dump p :
  0 <= timeout p -> model_validate (model_dump p) = Some p.
Proof.
  intros Ht. unfold model_validate, model_dump. cbn.
  rewrite (proj2 (Z.leb_le 0 (timeout p)) Ht).
  by destruct p as [? ? ? [? ?] ?].
Qed.

(** [create_connector] never replaces a stored connector.  When it returns,
    the key was free and now holds a connector that is AVAILABLE, at version
    1, without a checkpoint, under the id of the response; when the key is
    taken the call ends in a conflict, and whenever it raises nothing is
    written. *)
Theorem create_connector_cases (request : CreateConnectorRequest) (o : Oracle) (st : St) :
  let connector_id := "cc-" +:+ uuid4 o (tick st) in
  let k := (get_arn_prefix (cr_tenant_context request), connector_id) in
  let found := interfere o (tick st) (tables st) in
  match create_connector request o st with
  | (Return response, st') =>
      connectors found !! k = None /\
      crr_connector_id response = connector_id /\
      crr_status response = AVAILABLE /\ crr_version response = 1 /\
      exists item,
        effects st' = (effects st ++ [ConnectorWritten k item])%list /\
        tables st' = mkTables (<[k := item]> (connectors found)) (jobs found) /\
        c_status item = AVAILABLE /\ c_version item = Some 1 /\ c_checkpoint item = None /\
        c_name item = cr_name request /\
        c_container_properties item = model_dump (cr_container_properties request)
  | (Raise e, st') =>
      effects st' = effects st /\ tables st' = found /\
      (fault o (tick st) = None ->
       e = ConnectorDaoConflictError /\ is_Some (connectors found !! k))
  end.
Proof.
  intros connector_id k found.
  unfold create_connector, bind, now, fresh_uuid, except_ClientError, try_except,
    connectors_put_new_item. cbn.
  destruct (fault o (tick st)) as [code|]; cbn.
  { destruct (String.eqb code _); cbn; by repeat split. }
  fold connector_id k found.
  destruct (connectors found !! k) as [old|]; cbn.
  - repeat split; eauto.
  - do 4 (split; [done|]). eexists. by repeat split.
Qed.

(** A connector that [create_connector] has stored is read back by
    [get_connector] as it was requested, provided the request's timeout is
    not negative (the request model's [ge=0]) and nothing happens in
    between. *)
Theorem create_connector_get_connector
    (request : CreateConnectorRequest) (o : Oracle) (st st' : St)
    (response : CreateConnectorResponse) :
  0 <= timeout (cr_container_properties request) ->
  create_connector request o st = (Return response, st') ->
  fault o (tick st') = None ->
  interfere o (tick st') (tables st') = tables st' ->
  exists got,
    get_connector (mkGetConnectorRequest (cr_tenant_context request) (crr_connector_id response))
      o st' = (Return got, enter o st') /\
    r_name got = cr_name request /\ r_description got = cr_description request /\
    r_container_properties got = cr_container_properties request /\
    r_status got = AVAILABLE /\ r_version got = 1 /\ r_checkpoint got = None /\
    r_arn got = crr_arn response.
Proof.
  intros Ht Hrun Hf Hq.
  rewrite get_connector_eq, Hf, Hq. cbn [gc_tenant_context gc_connector_id].
  revert Hrun.
  unfold create_connector, bind, now, fresh_uuid, except_ClientError, try_except,
    connectors_put_new_item. cbn.
  destruct (fault o (tick st)) as [code|]; cbn.
  { destruct (String.eqb code _); cbn; discriminate. }
  destruct (connectors _ !! _) as [old|]; cbn; [discriminate|].
  intros [= <- <-]. cbn [crr_connector_id tables connectors set_connectors].
  rewrite lookup_insert_eq. cbn [c_container_properties].
  rewrite (model_validate_model_dump _ Ht). eexists. by repeat split.
Qed.

Lemma create_connector_get_connector_witness :
  exists got st1,
    get_connector (mkGetConnectorRequest tenant0 "cc-0123456789ab") quiet
      (create_connector create0 quiet empty_world).2 = (Return got, st1) /\
    r_container_properties got = props0 /\ r_version got = 1.
Proof.
  destruct (create_connector create0 quiet empty_world) as [r st'] eqn:Hrun.
  assert (Hr : r = Return (mkCreateConnectorResponse "cc-0123456789ab"
                             (get_connector_arn tenant0 "cc-0123456789ab") "test"
                             "2025-01-01T00:00:00+00:00" "2025-01-01T00:00:00+00:00"
                             AVAILABLE 1)).
  { replace r with (create_connector create0 quiet empty_world).1 by (by rewrite Hrun).
    vm_compute. reflexivity. }
  subst r.
  destruct (create_connector_get_connector create0 quiet empty_world st' _ ltac:(done) Hrun)
    as (got & Hget & _ & _ & Hp & _ & Hv & _).
  - reflexivity.
  - reflexivity.
  - exists got, (enter quiet st'). cbn [snd]. split; [exact Hget|]. by split.
Defined.

(** [delete_connector] removes the connector only when the delete finds it
    and finds it not IN_USE.  A connector found IN_USE stays; the call then
    ends in a conflict when the read that follows finds the connector, and in
    not-found when the connector has gone by then. *)
Theorem delete_connector_cases (request : DeleteConnectorRequest) (o : Oracle) (st : St) :
  let k := (get_arn_prefix (del_tenant_context request), del_connector_id request) in
  let at_delete := seen o (tick st) 1 (tables st) in
  let at_read := seen o (tick st) 2 (tables st) in
  match delete_connector request o st with
  | (Return _, st') =>
      (exists item, connectors at_delete !! k = Some item /\ c_status item <> IN_USE) /\
      tables st' = mkTables (delete k (connectors at_delete)) (jobs at_delete) /\
      effects st' = effects st
  | (Raise e, st') =>
      effects st' = effects st /\
      tables st' = seen o (tick st) (tick st' - tick st) (tables st) /\
      (fault o (tick st) = None -> fault o (S (tick st)) = None ->
       (forall item, connectors at_delete !! k = Some item -> c_status item = IN_USE) /\
       match connectors at_read !! k with
       | None => e = ConnectorDaoNotFoundError
       | Some item =>
           is_Some (model_validate (c_container_properties item)) ->
           e = ConnectorDaoConflictError
       end)
  end.
Proof.
  intros k at_delete at_read. cbn in at_delete, at_read.
  unfold delete_connector, except_ClientError, try_except at 1, connectors_delete_item.
  cbn. fold k at_delete.
  destruct (fault o (tick st)) as [code|] eqn:Hf; cbn.
  { destruct (String.eqb code ConditionalCheckFailedException) eqn:Hcode; cbn.
    - unfold try_except, bind. rewrite get_connector_eq. cbn. fold k.
      destruct (fault o (S (tick st))); cbn;
        [replace (S (S (tick st)) - tick st)%nat with 2%nat by lia; by repeat split|].
      destruct (connectors _ !! k) as [item|]; cbn;
        [|replace (S (S (tick st)) - tick st)%nat with 2%nat by lia; by repeat split].
      destruct (model_validate _); cbn;
        replace (S (S (tick st)) - tick st)%nat with 2%nat by lia; by repeat split.
    - replace (S (tick st) - tick st)%nat with 1%nat by lia. by repeat split. }
  assert (Hafter :
    let r := @try_except unit
               (get_connector
                  (mkGetConnectorRequest (del_tenant_context request) (del_connector_id request));;;
                raise ConnectorDaoConflictError)
               (fun e => match e with
                         | ConnectorDaoNotFoundError => raise ConnectorDaoNotFoundError
                         | _ => raise e
                         end) o (enter o st) in
    exists e, r = (Raise e, enter o (enter o st)) /\
      (fault o (S (tick st)) = None ->
       match connectors at_read !! k with
       | None => e = ConnectorDaoNotFoundError
       | Some item =>
           is_Some (model_validate (c_container_properties item)) ->
           e = ConnectorDaoConflictError
       end)).
  { cbn. unfold try_except, bind. rewrite get_connector_eq. cbn. fold k.
    unfold at_read, at_delete.
    destruct (fault o (S (tick st))); cbn; [eexists; split; [reflexivity|done]|].
    destruct (connectors _ !! k) as [item|]; cbn;
      [|eexists; split; [reflexivity|done]].
    destruct (model_validate _); cbn; eexists; (split; [reflexivity|]); intros _ [? ?]; done. }
  cbn in Hafter. destruct Hafter as (e & Hrun & He).
  destruct (connectors at_delete !! k) as [stored|] eqn:Hk; cbn.
  - case_bool_decide as Hs; cbn.
    + rewrite Hrun. cbn.
      replace (S (S (tick st)) - tick st)%nat with 2%nat by lia. cbn.
      split; [done|]. split; [done|]. intros _ Hf2. split; [|by apply He].
      by intros ? [= <-].
    + split; [eauto|]. by split.
  - rewrite Hrun. cbn.
    replace (S (S (tick st)) - tick st)%nat with 2%nat by lia. cbn.
    split; [done|]. split; [done|]. intros _ Hf2. split; [done|]. by apply He.
Qed.

Lemma get_checkpoint_eq request o st :
  get_checkpoint request o st
  = (match fault o (tick st) with
     | Some _ => Raise ConnectorDaoInternalError
     | None =>
         match connectors (interfere o (tick st) (tables st))
               !! (get_arn_prefix (gcp_tenant_context request), gcp_connector_id request) with
         | None => Raise ConnectorDaoNotFoundError
         | Some item =>
             match c_checkpoint item with
             | None => Raise ConnectorDaoNotFoundError
             | Some cp => Return cp
             end
         end
     end, enter o st).
Proof.
  unfold get_checkpoint, bind, except_ClientError, try_except, connectors_get_item. cbn.
  destruct (fault o (tick st)); cbn; [done|].
  destruct (connectors _ !! _) as [item|]; cbn; [|done].
  by destruct (c_checkpoint item) as [[]|].
Qed.

(** What [put_checkpoint] has stored, [get_checkpoint] returns, when nothing
    happens in between: the data of the request, with both timestamps of the
    checkpoint set to the time of the put, whether or not there was a
    checkpoint before. *)
Theorem put_checkpoint_get_checkpoint
    (request : PutCheckpointRequest) (o : Oracle) (st st' : St) :
  put_checkpoint request o st = (Return tt, st') ->
  fault o (tick st') = None ->
  interfere o (tick st') (tables st') = tables st' ->
  let now_iso := isoformat (clock o (tick st)) in
  get_checkpoint (mkGetCheckpointRequest (pc_tenant_context request) (pc_connector_id request))
    o st'
  = (Return (mkCheckpoint (pc_checkpoint_data request) now_iso now_iso), enter o st').
Proof.
  intros Hrun Hf Hq now_iso.
  rewrite get_checkpoint_eq, Hf, Hq. cbn [gcp_tenant_context gcp_connector_id].
  revert Hrun.
  unfold put_checkpoint, bind, now, except_ClientError, try_except, connectors_get_item,
    connectors_write_item. cbn.
  destruct (fault o (tick st)) as [code|]; cbn.
  { unfold conflict_or_internal. destruct (String.eqb code _); cbn; discriminate. }
  destruct (connectors _ !! _) as [item|]; cbn; [|discriminate].
  destruct (fault o (S (tick st))) as [code|]; cbn.
  { unfold conflict_or_internal. destruct (String.eqb code _); cbn; discriminate. }
  destruct (connectors _ !! _) as [stored|]; cbn; [|discriminate].
  destruct (version_is _ stored); cbn; [|discriminate].
  intros [= <-]. cbn. by rewrite lookup_insert_eq.
Qed.

Lemma put_checkpoint_get_checkpoint_witness :
  (get_checkpoint (mkGetCheckpointRequest tenant0 "cc-1") quiet
     (put_checkpoint (mkPutCheckpointRequest tenant0 "cc-1" "page=7") quiet
        (world0 AVAILABLE STARTED)).2).1
  = Return (mkCheckpoint "page=7" "2025-01-01T00:00:00+00:00" "2025-01-01T00:00:00+00:00").
Proof.
  destruct (put_checkpoint (mkPutCheckpointRequest tenant0 "cc-1" "page=7") quiet
              (world0 AVAILABLE STARTED)) as [r st'] eqn:Hrun.
  assert (r = Return tt) as ->.
  { replace r with (put_checkpoint (mkPutCheckpointRequest tenant0 "cc-1" "page=7") quiet
                      (world0 AVAILABLE STARTED)).1 by (by rewrite Hrun).
    vm_compute. reflexivity. }
  cbn [snd].
  pose proof (put_checkpoint_get_checkpoint _ quiet _ st' Hrun) as Hget.
  cbn [pc_tenant_context pc_connector_id pc_checkpoint_data] in Hget.
  rewrite Hget; reflexivity.
Defined.

(** [delete_checkpoint] on a connector without a checkpoint ends in
    not-found and writes nothing, so the version stays; when it returns, the
    checkpoint is gone: a [get_checkpoint] that follows undisturbed ends in
    not-found. *)
Theorem delete_checkpoint_cases (request : DeleteCheckpointRequest) (o : Oracle) (st : St) :
  let k := (get_arn_prefix (dc_tenant_context request), dc_connector_id request) in
  let at_read := seen o (tick st) 1 (tables st) in
  (forall item,
     fault o (tick st) = None ->
     connectors at_read !! k = Some item -> c_checkpoint item = None ->
     delete_checkpoint request o st = (Raise ConnectorDaoNotFoundError, enter o st)) /\
  (forall st',
     delete_checkpoint request o st = (Return tt, st') ->
     fault o (tick st') = None ->
     interfere o (tick st') (tables st') = tables st' ->
     get_checkpoint (mkGetCheckpointRequest (dc_tenant_context request) (dc_connector_id request))
       o st'
     = (Raise ConnectorDaoNotFoundError, enter o st')).
Proof.
  intros k at_read. cbn in at_read. split.
  - intros item Hf Hk Hcp.
    unfold delete_checkpoint, bind, now, except_ClientError, try_except, connectors_get_item.
    cbn. rewrite Hf. cbn. fold k at_read. rewrite Hk, Hcp. reflexivity.
  - intros st' Hrun Hf Hq.
    rewrite get_checkpoint_eq, Hf, Hq. cbn [gcp_tenant_context gcp_connector_id].
    revert Hrun.
    unfold delete_checkpoint, bind, now, except_ClientError, try_except, connectors_get_item,
      connectors_write_item. cbn.
    destruct (fault o (tick st)) as [code|]; cbn.
    { unfold conflict_or_internal. destruct (String.eqb code _); cbn; discriminate. }
    destruct (connectors _ !! _) as [item|]; cbn; [|discriminate].
    destruct (c_checkpoint item); cbn; [|discriminate].
    destruct (fault o (S (tick st))) as [code|]; cbn.
    { unfold conflict_or_internal. destruct (String.eqb code _); cbn; discriminate. }
    destruct (connectors _ !! _) as [stored|]; cbn; [|discriminate].
    destruct (version_is _ stored); cbn; [|discriminate].
    intros [= <-]. cbn. by rewrite lookup_insert_eq.
Qed.

Lemma delete_checkpoint_cases_witness :
  delete_checkpoint (mkDeleteCheckpointRequest tenant0 "cc-1") quiet (world0 AVAILABLE STARTED)
  = (Raise ConnectorDaoNotFoundError, enter quiet (world0 AVAILABLE STARTED)).
Proof.
  apply (proj1 (delete_checkpoint_cases (mkDeleteCheckpointRequest tenant0 "cc-1") quiet
                  (world0 AVAILABLE STARTED)) (with_status connector0 AVAILABLE));
    reflexivity.
Defined.

(** [update_connector] changes what the request carries and nothing else: a
    call that returns has written the item it read with [name],
    [description] and [container_properties] replaced where the request has
    them, [updated_at] and [version] renewed, and status, ARN, creation time
    and checkpoint as read.  An absent field keeps the stored value, so a
    description cannot be cleared. *)
Theorem update_connector_frame
    (request : UpdateConnectorRequest) (o : Oracle) (st st' : St)
    (response : UpdateConnectorResponse) :
  let k := (get_arn_prefix (uc_tenant_context request), uc_connector_id request) in
  update_connector request o st = (Return response, st') ->
  exists item written,
    connectors (seen o (tick st) 1 (tables st)) !! k = Some item /\
    effects st' = (effects st ++ [ConnectorWritten k written])%list /\
    connectors (tables st') !! k = Some written /\
    c_name written = default (c_name item) (uc_name request) /\
    c_description written
    = match uc_description request with Some d => Some d | None => c_description item end /\
    c_container_properties written
    = default (c_container_properties item) (uc_container_properties request) /\
    c_status written = c_status item /\ c_arn written = c_arn item /\
    c_created_at written = c_created_at item /\ c_checkpoint written = c_checkpoint item /\
    c_updated_at written = isoformat (clock o (tick st)) /\
    c_version written = Some (default 1 (c_version item) + 1) /\
    ur_version response = default 1 (c_version item) + 1 /\
    ur_name response = c_name written /\ ur_status response = c_status item.
Proof.
  intros k. cbn.
  unfold update_connector, bind, now, except_ClientError, try_except, connectors_get_item,
    connectors_write_item. cbn. fold k.
  destruct (fault o (tick st)) as [code|]; cbn; [discriminate|].
  destruct (connectors _ !! k) as [item|]; cbn; [|discriminate].
  destruct (fault o (S (tick st))) as [code|]; cbn.
  { unfold conflict_or_internal. destruct (String.eqb code _); cbn; discriminate. }
  destruct (connectors _ !! k) as [stored|]; cbn.
  2:{ discriminate. }
  destruct (version_is _ stored); cbn; [|discriminate].
  intros [= <- <-]. cbn. eexists item, _. split; [reflexivity|]. split; [reflexivity|].
  rewrite lookup_insert_eq. split; [reflexivity|].
  destruct (uc_name request), (uc_description request), (uc_container_properties request);
    by repeat split.
Qed.

Lemma update_connector_frame_witness :
  let request := mkUpdateConnectorRequest tenant0 "cc-1" (Some "renamed") None None in
  exists written,
    connectors (tables (update_connector request quiet (world0 IN_USE RUNNING)).2)
      !! (prefix0, "cc-1") = Some written /\
    c_name written = "renamed" /\ c_status written = IN_USE /\
    c_container_properties written = model_dump props0.
Proof.
  intros request.
  destruct (update_connector request quiet (world0 IN_USE RUNNING)) as [r st'] eqn:Hrun.
  assert (exists response, r = Return response) as [response ->].
  { replace r with (update_connector request quiet (world0 IN_USE RUNNING)).1
      by (by rewrite Hrun).
    vm_compute. eauto. }
  destruct (update_connector_frame request quiet _ st' response Hrun)
    as (item & written & Hitem & _ & Hw & Hn & _ & Hp & Hs & _).
  injection Hitem as <-.
  exists written. cbn [snd]. split; [exact Hw|]. by repeat split.
Defined.

(** ** More of the jobs DAO *)

Lemma update_connector_status_tick request o s s' :
  update_connector_status request o s = (Return tt, s') -> tick s' = S (S (tick s)).
Proof.
  unfold update_connector_status, bind, now, except_ClientError, try_except,
    connectors_get_item, connectors_write_item. cbn.
  destruct (fault o (tick s)) as [code|]; cbn.
  { unfold conflict_or_internal. destruct (String.eqb code _); cbn; discriminate. }
  destruct (connectors _ !! _) as [item|]; cbn; [|discriminate].
  destruct (fault o (S (tick s))) as [code|]; cbn.
  { unfold conflict_or_internal. destruct (String.eqb code _); cbn; discriminate. }
  destruct (connectors _ !! _) as [stored|]; cbn; [|discriminate].
  destruct (version_is _ stored); cbn; [|discriminate].
  by intros [= <-].
Qed.

(** A [start_job] that returns has found the connector AVAILABLE, has
    written it IN_USE and has then inserted one job: STARTED, for that
    connector, with the environment of the request, without batch handle or
    TTL, under the id of the response ([ccj-] and twelve hex digits).  These
    are its only writes. *)
Theorem start_job_returns
    (request : StartJobRequest) (o : Oracle) (st st' : St) (response : StartJobResponse) :
  let prefix := get_arn_prefix (sj_tenant_context request) in
  let ck := (prefix, sj_connector_id request) in
  start_job request o st = (Return response, st') ->
  exists found flipped now_iso,
    connectors (seen o (tick st) 1 (tables st)) !! ck = Some found /\
    c_status found = AVAILABLE /\
    c_status flipped = IN_USE /\
    sr_job_id response = "ccj-" +:+ uuid4 o (3 + tick st) /\
    sr_connector_id response = sj_connector_id request /\
    sr_status response = STARTED /\
    effects st'
    = (effects st
       ++ [ConnectorWritten ck flipped;
           JobWritten (prefix, sr_job_id response)
             (mkJobItem (sj_connector_id request) STARTED (sj_environment request)
                now_iso now_iso None None)])%list.
Proof.
  intros prefix ck. cbn.
  unfold start_job. unfold bind at 1, try_except at 1. rewrite get_connector_eq. cbn.
  fold prefix ck.
  destruct (fault o (tick st)) as [code|]; cbn; [discriminate|].
  destruct (connectors _ !! ck) as [found|] eqn:Hfound; cbn; [|discriminate].
  destruct (model_validate _) as [props|]; cbn; [|discriminate].
  case_bool_decide as Hs; cbn; [|discriminate].
  unfold bind at 1, try_except at 1.
  pose proof (update_connector_status_cases
                (mkUpdateConnectorStatusRequest (sj_tenant_context request)
                   (sj_connector_id request) IN_USE) o (enter o st)) as Hflip.
  cbv zeta in Hflip.
  cbn [ucs_tenant_context ucs_connector_id ucs_status tick tables effects enter] in Hflip.
  fold prefix ck in Hflip.
  destruct (update_connector_status _ o (enter o st)) as [[[]|e] st2] eqn:Hrun2.
  2:{ destruct e; cbn; discriminate. }
  destruct Hflip as (_ & _ & _ & _ & stored & _ & Heff & _).
  unfold bind, now, fresh_uuid, except_ClientError at 1, try_except at 1, jobs_put_item. cbn.
  rewrite !(update_connector_status_tick _ _ _ _ Hrun2). cbn [enter tick]. clear Hrun2.
  destruct (fault o (S (S (S (tick st))))) as [code|]; cbn.
  { unfold try_except.
    destruct (update_connector_status _ o _) as [[[]|e] s4]; cbn; discriminate. }
  intros [= <- <-]. cbn.
  rewrite Heff, <- app_assoc.
  eexists found, _, _. split; [done|]. split; [done|].
  split; [|split; [done|split; [done|split; [done|reflexivity]]]].
  reflexivity.
Qed.

Lemma start_job_returns_witness :
  exists flipped now_iso,
    effects (start_job (mkStartJobRequest tenant0 "cc-1" [("DEPTH", "2")]) quiet
               (world0 AVAILABLE SUCCEEDED)).2
    = [ConnectorWritten (prefix0, "cc-1") flipped;
       JobWritten (prefix0, "ccj-0123456789ab")
         (mkJobItem "cc-1" STARTED [("DEPTH", "2")] now_iso now_iso None None)] /\
    c_status flipped = IN_USE.
Proof.
  destruct (start_job (mkStartJobRequest tenant0 "cc-1" [("DEPTH", "2")]) quiet
              (world0 AVAILABLE SUCCEEDED)) as [r st'] eqn:Hrun.
  assert (exists response, r = Return response /\ sr_job_id response = "ccj-0123456789ab")
    as (response & -> & Hid).
  { replace r with (start_job (mkStartJobRequest tenant0 "cc-1" [("DEPTH", "2")]) quiet
                      (world0 AVAILABLE SUCCEEDED)).1 by (by rewrite Hrun).
    vm_compute. eauto. }
  destruct (start_job_returns _ quiet _ st' response Hrun)
    as (found & flipped & now_iso & _ & _ & Hflipped & _ & _ & _ & Heff).
  rewrite Hid in Heff. exists flipped, now_iso. split; [exact Heff|exact Hflipped].
Defined.

(** When the insert of the job fails after the connector has been marked
    IN_USE, [start_job] ends in [DaoInternalError] whatever becomes of the
    rollback, it has written no job, and when the rollback's write goes
    through it leaves the connector AVAILABLE. *)
Theorem start_job_insert_fails
    (request : StartJobRequest) (o : Oracle) (st st2 : St) (found : ConnectorItem)
    (code : string) :
  let ck := (get_arn_prefix (sj_tenant_context request), sj_connector_id request) in
  let flip s := mkUpdateConnectorStatusRequest (sj_tenant_context request)
                  (sj_connector_id request) s in
  connector_found o st ck ->
  connectors (seen o (tick st) 1 (tables st)) !! ck = Some found ->
  c_status found = AVAILABLE ->
  update_connector_status (flip IN_USE) o (enter o st) = (Return tt, st2) ->
  fault o (tick st2) = Some code ->
  exists st' l,
    start_job request o st = (Raise DaoInternalError, st') /\
    effects st' = (effects st2 ++ l)%list /\ Forall not_a_job_write l /\
    forall st4,
      update_connector_status (flip AVAILABLE) o (enter o st2) = (Return tt, st4) ->
      st' = st4 /\ c_status <$> connectors (tables st') !! ck = Some AVAILABLE.
Proof.
  intros ck flip (Hf & item & props & Hitem & Hprops) Hfound Hs Hflip Hfault.
  subst flip. cbv beta in *. cbn in Hfound.
  rewrite Hfound in Hitem. injection Hitem as <-.
  set (rollback := update_connector_status
                     (mkUpdateConnectorStatusRequest (sj_tenant_context request)
                        (sj_connector_id request) AVAILABLE)).
  assert (Hrun : start_job request o st
                 = (Raise DaoInternalError,
                    (try_except rollback (fun _ => ret tt) o (enter o st2)).2)).
  { unfold start_job. unfold bind at 1, try_except at 1. rewrite get_connector_eq. cbn.
    fold ck. rewrite Hf, Hfound, Hprops. cbn [r_status].
    rewrite (bool_decide_eq_true_2 _ Hs). cbn [negb].
    unfold bind at 1, try_except at 1. rewrite Hflip.
    unfold bind, now, fresh_uuid, except_ClientError at 1, try_except at 1, jobs_put_item.
    cbn. rewrite Hfault. cbn. fold rollback.
    unfold try_except. by destruct (rollback o (enter o st2)) as [[[]|e] s4]. }
  destruct (emits_try_except not_a_job_write rollback (fun _ => ret tt))
    with (o := o) (st := enter o st2) as (l & Hl & HP).
  { by apply emits_update_connector_status. }
  { intros e. apply emits_ret. }
  eexists _, l. split; [exact Hrun|]. split; [exact Hl|]. split; [exact HP|].
  intros st4 Hback. unfold try_except. rewrite Hback. cbn. split; [done|].
  pose proof (update_connector_status_cases
                (mkUpdateConnectorStatusRequest (sj_tenant_context request)
                   (sj_connector_id request) AVAILABLE) o (enter o st2)) as Hcases.
  fold rollback in Hcases. rewrite Hback in Hcases.
  cbv zeta in Hcases. cbn [ucs_tenant_context ucs_connector_id ucs_status] in Hcases.
  fold ck in Hcases.
  destruct Hcases as (_ & _ & _ & _ & stored & _ & _ & ->). cbn.
  by rewrite lookup_insert_eq.
Qed.

Lemma start_job_insert_fails_witness :
  let run := start_job (mkStartJobRequest tenant0 "cc-1" []) (failing_at 3)
               (world0 AVAILABLE SUCCEEDED) in
  run.1 = Raise DaoInternalError /\
  c_status <$> connectors (tables run.2) !! (prefix0, "cc-1") = Some AVAILABLE.
Proof.
  intros run.
  set (st := world0 AVAILABLE SUCCEEDED).
  set (flip := mkUpdateConnectorStatusRequest tenant0 "cc-1").
  destruct (start_job_insert_fails (mkStartJobRequest tenant0 "cc-1" []) (failing_at 3) st
              (update_connector_status (flip IN_USE) (failing_at 3) (enter (failing_at 3) st)).2
              (with_status connector0 AVAILABLE) "ProvisionedThroughputExceededException")
    as (st' & l & Hrun & _ & _ & Hback).
  - split; [reflexivity|]. exists (with_status connector0 AVAILABLE), props0.
    split; reflexivity.
  - reflexivity.
  - reflexivity.
  - vm_compute. reflexivity.
  - vm_compute. reflexivity.
  - unfold run. fold st. rewrite Hrun. split; [reflexivity|].
    match type of Hback with
    | forall st4, ?m = _ -> _ =>
        apply (Hback m.2); apply injective_projections; [vm_compute; reflexivity|reflexivity]
    end.
Defined.

(** [update_job_status] for a connector or a job that is not there ends in
    the jobs DAO's not-found error and writes nothing. *)
Theorem update_job_status_not_found
    (request : UpdateJobStatusRequest) (o : Oracle) (st : St) :
  let key := (get_arn_prefix (uj_tenant_context request), uj_job_id request) in
  let ckey := (get_arn_prefix (uj_tenant_context request), uj_connector_id request) in
  (fault o (tick st) = None ->
   connectors (seen o (tick st) 1 (tables st)) !! ckey = None ->
   update_job_status request o st = (Raise DaoResourceNotFoundError, enter o st)) /\
  (connector_found o st ckey ->
   fault o (S (tick st)) = None ->
   jobs (seen o (tick st) 2 (tables st)) !! key = None ->
   update_job_status request o st = (Raise DaoResourceNotFoundError, enter o (enter o st))).
Proof.
  intros key ckey. cbn. split.
  - intros Hf Hk.
    unfold update_job_status, bind at 1, _verify_connector_exists, try_except, bind.
    rewrite get_connector_eq. cbn. fold ckey. by rewrite Hf, Hk.
  - intros Hfound Hf2 Hjob.
    unfold update_job_status. unfold bind at 1.
    pose proof (_verify_connector_exists_spec (uj_tenant_context request)
                  (uj_connector_id request) o st) as Hv.
    destruct (_verify_connector_exists _ _ o st) as [[[]|e] st1].
    2:{ by destruct Hv as [_ Hn]. }
    destruct Hv as [-> _].
    unfold bind at 1, except_ClientError at 1, try_except at 1. rewrite jobs_get_item_eq.
    cbn. fold key. by rewrite Hf2, Hjob.
Qed.

Lemma update_job_status_not_found_witness :
  (update_job_status (mkUpdateJobStatusRequest tenant0 "cc-1" "ccj-9" STOPPING None) quiet
     (world0 IN_USE RUNNING)).1 = Raise DaoResourceNotFoundError /\
  (update_job_status (mkUpdateJobStatusRequest tenant0 "cc-1" "ccj-1" STOPPING None) quiet
     (orphan0 RUNNING)).1 = Raise DaoResourceNotFoundError.
Proof.
  split.
  - rewrite (proj2 (update_job_status_not_found
                      (mkUpdateJobStatusRequest tenant0 "cc-1" "ccj-9" STOPPING None) quiet
                      (world0 IN_USE RUNNING))); [reflexivity| |reflexivity|reflexivity].
    split; [reflexivity|]. exists (with_status connector0 IN_USE), props0. split; reflexivity.
  - rewrite (proj1 (update_job_status_not_found
                      (mkUpdateJobStatusRequest tenant0 "cc-1" "ccj-1" STOPPING None) quiet
                      (orphan0 RUNNING))); reflexivity.
Defined.

(** ** The handlers' error paths *)

Lemma emits_connectors_write_item_upd (P : Effect -> Prop) k cond upd :
  (forall stored, P (ConnectorWritten k (upd stored))) ->
  emits P (connectors_write_item k cond upd).
Proof.
  intros HP o st. unfold connectors_write_item.
  destruct (fault o (tick st)); cbn; [exists []; by rewrite app_nil_r|].
  destruct (connectors _ !! k) as [stored|]; cbn; [|exists []; by rewrite app_nil_r].
  destruct (cond stored); cbn; [|exists []; by rewrite app_nil_r].
  eexists [_]. split; [reflexivity|]. by repeat constructor.
Qed.

Lemma emits_update_connector_status_as (P : Effect -> Prop) request :
  (forall k post, c_status post = ucs_status request -> P (ConnectorWritten k post)) ->
  emits P (update_connector_status request).
Proof.
  intros HP. unfold update_connector_status.
  apply emits_bind; [apply emits_now|]. intros now_dt.
  apply emits_except_ClientError; [|intros c; apply emits_conflict_or_internal].
  apply emits_bind; [apply emits_connectors_get_item|].
  intros [item|]; [|apply emits_raise].
  apply emits_connectors_write_item_upd. intros stored. by apply HP.
Qed.

Lemma emits_update_job_status_as (P : Effect -> Prop) request :
  (forall k post, j_status post = uj_status request -> P (JobWritten k post)) ->
  (forall k post, c_status post = AVAILABLE -> P (ConnectorWritten k post)) ->
  emits P (update_job_status request).
Proof.
  intros HJ HC. unfold update_job_status.
  apply emits_bind; [apply emits__verify_connector_exists|]. intros _.
  apply emits_bind.
  { apply emits_except_ClientError; [apply emits_jobs_get_item|]. intros c. apply emits_raise. }
  intros [item|]; [|apply emits_raise].
  destruct (_ || _); [apply emits_raise|].
  apply emits_bind; [apply emits_now|]. intros now_dt.
  destruct (match uj_status request with
            | STOPPED | FAILED | SUCCEEDED => _
            | _ => _
            end) as [ttl mark_available].
  apply emits_bind.
  - apply emits_except_ClientError.
    + apply emits_jobs_update_item. intros stored. by apply HJ.
    + intros c. destruct (String.eqb c _); apply emits_raise.
  - intros _. destruct mark_available; [|apply emits_ret].
    apply emits_try_except.
    + apply emits_update_connector_status_as. intros k post Hpost. by apply HC.
    + intros []; first [apply emits_ret | apply emits_raise].
Qed.

(** The compensation both handlers run after a failure: it ends normally
    whatever happens in it, and leaves nothing behind but the job written as
    FAILED and the connector written as AVAILABLE. *)
Lemma compensation_spec tenant_context connector_id job_id batch_job_id o s :
  exists st' l,
    try_except
      (update_job_status
         (mkUpdateJobStatusRequest tenant_context connector_id job_id FAILED batch_job_id) ;;;
       update_connector_status
         (mkUpdateConnectorStatusRequest tenant_context connector_id AVAILABLE))
      (fun _ => ret tt) o s
    = (Return tt, st') /\
    effects st' = (effects s ++ l)%list /\ Forall compensation_write l.
Proof.
  match goal with |- context [try_except ?m _ o s] =>
    assert (Hm : emits compensation_write m)
  end.
  { apply emits_bind.
    - apply emits_update_job_status_as; intros k post Hpost; exact Hpost.
    - intros _. apply emits_update_connector_status_as. intros k post Hpost. exact Hpost. }
  destruct (Hm o s) as (l & Hl & HP). unfold try_except.
  match goal with |- context [match ?m o s with _ => _ end] =>
    destruct (m o s) as [[[]|e] s1]
  end; cbn in *; eauto.
Qed.

(** [handle_job_stop] never raises.  Without a batch job id (missing or
    empty) it does nothing at all.  With one it asks the batch service once
    to cancel that job; when the service accepts, that is all it does, and
    when the service refuses, what follows is only the compensation: the
    job written as FAILED, the connector as AVAILABLE. *)
Theorem handle_job_stop_cases
    (job_id connector_id : string) (batch_job_id : option string)
    (tenant_context : TenantContext) (o : Oracle) (st : St) :
  exists st',
    handle_job_stop job_id connector_id batch_job_id tenant_context o st = (Return tt, st') /\
    match batch_job_id with
    | None | Some EmptyString => st' = st
    | Some id =>
        exists l,
          effects st' = (effects st ++ CancelJob id :: l)%list /\
          Forall compensation_write l /\
          (cancel_response o (tick st) = true ->
           l = [] /\ tables st' = interfere o (tick st) (tables st))
    end.
Proof.
  unfold handle_job_stop. destruct batch_job_id as [[|c b]|]; [by exists st| |by exists st].
  unfold try_except at 1, cancel_job.
  destruct (cancel_response o (tick st)) eqn:Hc.
  - eexists. split; [reflexivity|]. exists []. cbn. by repeat split.
  - match goal with |- context [try_except _ _ o ?s] =>
      destruct (compensation_spec tenant_context connector_id job_id (Some (String c b)) o s)
        as (st' & l & Hrun & Hl & HP)
    end.
    exists st'. split; [exact Hrun|]. exists l. cbn in Hl.
    rewrite Hl, <- app_assoc. by repeat split.
Qed.

Lemma handle_job_stop_cases_witness :
  (handle_job_stop "ccj-1" "cc-1" None tenant0 quiet (world0 IN_USE STOPPING)).2
  = world0 IN_USE STOPPING /\
  effects (handle_job_stop "ccj-1" "cc-1" (Some "batch-1") tenant0 quiet
             (world0 IN_USE STOPPING)).2
  = [CancelJob "batch-1"] /\
  exists l,
    effects (handle_job_stop "ccj-1" "cc-1" (Some "batch-1") tenant0 batch_down
               (world0 IN_USE STOPPING)).2
    = CancelJob "batch-1" :: l /\ Forall compensation_write l.
Proof.
  split; [|split].
  - destruct (handle_job_stop_cases "ccj-1" "cc-1" None tenant0 quiet (world0 IN_USE STOPPING))
      as (st' & Hrun & ->). by rewrite Hrun.
  - destruct (handle_job_stop_cases "ccj-1" "cc-1" (Some "batch-1") tenant0 quiet
                (world0 IN_USE STOPPING)) as (st' & Hrun & l & Hl & _ & Hok).
    destruct (Hok eq_refl) as [-> _]. by rewrite Hrun.
  - destruct (handle_job_stop_cases "ccj-1" "cc-1" (Some "batch-1") tenant0 batch_down
                (world0 IN_USE STOPPING)) as (st' & Hrun & l & Hl & HF & _).
    exists l. by rewrite Hrun.
Defined.

(** [handle_job_start] never raises.  When the connector lookup fails no
    call of the batch service is made; when the lookup succeeds and the
    registration of the job definition fails, the registration is the only
    call of the batch service, and no job is submitted.  What else the
    invocation leaves behind is in both cases only the compensation. *)
Theorem handle_job_start_cases (context : JobStartContext) (o : Oracle) (st : St) :
  let ck := (get_arn_prefix (ctx_tenant_context context), ctx_connector_id context) in
  exists st' l,
    handle_job_start context o st = (Return tt, st') /\
    effects st' = (effects st ++ l)%list /\
    (~ connector_found o st ck -> Forall compensation_write l) /\
    (connector_found o st ck -> register_response o (S (tick st)) = None ->
     exists definition l',
       l = RegisterJobDefinition definition :: l' /\
       jd_name definition = ctx_job_id context /\
       Forall compensation_write l').
Proof.
  intros ck. unfold handle_job_start.
  match goal with |- context [try_except ?body ?handler o st] =>
    set (b := body); set (h := handler)
  end.
  assert (Hh : forall e s, exists st' l,
             h e o s = (Return tt, st') /\ effects st' = (effects s ++ l)%list /\
             Forall compensation_write l).
  { intros e s. apply compensation_spec. }
  assert (Hb : emits (fun _ => True) b).
  { unfold b. apply emits_bind; [apply emits_get_connector|]. intros connector.
    apply emits_bind; [by intros ? s; exists []; rewrite app_nil_r|]. intros api_endpoint.
    apply emits_bind.
    { intros o' s. unfold register_job_definition.
      destruct (register_response o' (tick s));
        (eexists [_]; split; [reflexivity|by repeat constructor]). }
    intros arn. apply emits_bind; [by intros ? s; exists []; rewrite app_nil_r|]. intros queue.
    apply emits_bind.
    { intros o' s. unfold submit_job.
      destruct (submit_response o' (tick s));
        (eexists [_]; split; [reflexivity|by repeat constructor]). }
    intros batch_job_id. apply emits_any_update_job_status. }
  assert (Hlookup : ~ connector_found o st ck ->
            exists e, b o st = (Raise e, enter o st)).
  { intros Hnot. unfold b, bind at 1. rewrite get_connector_eq.
    cbn [gc_tenant_context gc_connector_id]. fold ck.
    destruct (fault o (tick st)) eqn:Hf; [by eexists|].
    destruct (connectors _ !! ck) as [item|] eqn:Hitem; [|by eexists].
    destruct (model_validate _) as [props|] eqn:Hprops; [|by eexists].
    destruct Hnot. split; [done|]. by exists item, props. }
  assert (Hregister : connector_found o st ck -> register_response o (S (tick st)) = None ->
            exists definition s,
              b o st = (Raise BatchError, s) /\ jd_name definition = ctx_job_id context /\
              effects s = (effects st ++ [RegisterJobDefinition definition])%list).
  { intros (Hf & item & props & Hitem & Hprops) Hreg.
    unfold b, bind at 1. rewrite get_connector_eq.
    cbn [gc_tenant_context gc_connector_id]. fold ck. rewrite Hf, Hitem, Hprops.
    unfold bind at 1, getenv_api_endpoint.
    unfold bind at 1, register_job_definition.
    cbn [tick enter]. rewrite Hreg. eexists _, _. split; [reflexivity|]. split; [|cbn; reflexivity]. reflexivity. }
  unfold try_except at 1.
  destruct (Hb o st) as (lb & Hlb & _).
  destruct (b o st) as [[[]|e] sb] eqn:Hrun.
  - exists sb, lb. split; [done|]. split; [done|]. split.
    + intros Hnot. by destruct (Hlookup Hnot).
    + intros Hfound Hreg. by destruct (Hregister Hfound Hreg) as (? & ? & ? & _).
  - destruct (Hh e sb) as (st' & l & Hrun' & Hl & HP).
    exists st', (lb ++ l)%list. split; [done|]. cbn in Hlb.
    split; [by rewrite Hl, Hlb, app_assoc|]. split.
    + intros Hnot. destruct (Hlookup Hnot) as (e' & [= _ ->]).
      cbn in Hlb. rewrite <- (app_nil_r (effects st)) in Hlb at 1.
      apply app_inv_head in Hlb. by subst lb.
    + intros Hfound Hreg. destruct (Hregister Hfound Hreg) as (d & s & [= _ <-] & Hname & Hs).
      rewrite Hs in Hlb. apply app_inv_head in Hlb. subst lb.
      by exists d, l.
Qed.

Lemma handle_job_start_cases_witness :
  exists definition l',
    effects (handle_job_start context0 batch_down (world0 IN_USE STARTED)).2
    = RegisterJobDefinition definition :: l' /\
    jd_name definition = "ccj-1" /\ Forall compensation_write l'.
Proof.
  destruct (handle_job_start_cases context0 batch_down (world0 IN_USE STARTED))
    as (st' & l & Hrun & Hl & _ & Hreg).
  destruct Hreg as (definition & l' & -> & Hname & HF).
  - split; [reflexivity|]. exists (with_status connector0 IN_USE), props0. split; reflexivity.
  - reflexivity.
  - exists definition, l'. rewrite Hrun. split; [exact Hl|]. split; [exact Hname|exact HF].
Defined.

(** A stream record the orchestrator does not act on (no new image, a
    required field missing or empty, or a status other than STARTED and
    STOPPING) changes nothing: no table is read or written and no call of
    the batch service is made. *)
Theorem record_handler_skips `{UnicodeData} (record : DynamoDBRecord) (o : Oracle) (st : St) :
  (forall image, new_image record = Some image -> actionable image = false) ->
  (record_handler record o st).2 = st.
Proof.
  intros Hskip. unfold record_handler.
  destruct (new_image record) as [image|]; [|done].
  specialize (Hskip image eq_refl). unfold actionable, present in Hskip. cbv zeta.
  destruct (img_job_id image) as [[|a1 s1]|]; [done| |done].
  destruct (img_connector_id image) as [[|a2 s2]|]; [done| |done].
  destruct (img_custom_connector_arn_prefix image) as [[|a3 s3]|]; [done| |done].
  destruct (img_status image) as [[|a4 s4]|]; [done| |done].
  cbn in Hskip. apply orb_false_iff in Hskip as [H1 H2].
  apply bool_decide_eq_false in H1, H2.
  unfold bind, from_arn_prefix.
  destruct (match_arn_prefix _) as [tenant_context|]; [|done].
  unfold ret. cbv beta iota zeta.
  destruct (String.eqb_spec (String a4 s4) (JobStatus_value STARTED)) as [Heq|_].
  { destruct H1. by rewrite Heq. }
  destruct (String.eqb_spec (String a4 s4) (JobStatus_value STOPPING)) as [Heq|_].
  { destruct H2. by rewrite Heq. }
  done.
Qed.

Lemma record_handler_skips_witness :
  (record_handler (record0 "RUNNING") quiet (world0 IN_USE RUNNING)).2 = world0 IN_USE RUNNING.
Proof.
  apply record_handler_skips. intros image [= <-]. reflexivity.
Defined.

(** A notification of the batch service that names no job, or whose status
    is neither SUCCEEDED nor FAILED, is ignored: the handler returns and
    nothing is read or written. *)
Theorem process_batch_event_ignores `{UnicodeData} (event_detail : BatchEventDetail) (o : Oracle) (st : St) :
  present (ev_jobName event_detail) = false \/
  (ev_status event_detail <> Some "SUCCEEDED" /\ ev_status event_detail <> Some "FAILED") ->
  process_batch_event event_detail o st = (Return tt, st).
Proof.
  intros Hignore. unfold process_batch_event.
  destruct (ev_jobName event_detail) as [[|c n]|]; [done| |done].
  destruct (ev_status event_detail) as [status|]; [|done].
  destruct Hignore as [Hname|[H1 H2]]; [done|].
  destruct (String.eqb_spec status "SUCCEEDED") as [->|_]; [done|].
  destruct (String.eqb_spec status "FAILED") as [->|_]; [done|].
  done.
Qed.

Lemma process_batch_event_ignores_witness :
  process_batch_event (mkBatchEventDetail (Some "ccj-1") (Some "RUNNING") []) quiet
    (world0 IN_USE RUNNING)
  = (Return tt, world0 IN_USE RUNNING).
Proof.
  apply process_batch_event_ignores. right. split; discriminate.
Defined.

(** ** Batching in the builder kit *)

Lemma batch_delete_loop_spec document_ids batch :
  (length batch < 10)%nat ->
  concat (batch_delete_loop document_ids batch) = (batch ++ document_ids)%list /\
  Forall (fun b => (0 < length b <= 10)%nat) (batch_delete_loop document_ids batch).
Proof.
  revert batch. induction document_ids as [|doc_id rest IH]; intros batch Hlen.
  - cbn. destruct batch as [|x batch]; [done|].
    cbn. rewrite !app_nil_r. split; [done|]. constructor; [cbn in *; lia|constructor].
  - cbn [batch_delete_loop]. cbv zeta.
    assert (Hsnoc : length (batch ++ [doc_id]) = S (length batch))
      by (rewrite length_app; cbn; lia).
    unfold DELETE_MAX_DOCS. destruct (Z.eqb_spec (Z.of_nat (length (batch ++ [doc_id]))) 10) as [Heq|Hne].
    + destruct (IH [] ltac:(cbn; lia)) as [Hc HF]. cbn in Hc.
      split.
      * cbn. rewrite Hc, <- app_assoc. reflexivity.
      * constructor; [lia|exact HF].
    + destruct (IH (batch ++ [doc_id])%list ltac:(lia)) as [Hc HF].
      split; [|exact HF]. rewrite Hc, <- app_assoc. reflexivity.
Qed.

(** [_batch_delete_documents] hands every id of its input to the delete
    call exactly once and in order, in batches that are never empty and
    never hold more than [DELETE_MAX_DOCS] ids. *)
Theorem _batch_delete_documents_partition (document_ids : list string) :
  concat (_batch_delete_documents document_ids) = document_ids /\
  Forall (fun b => 0 < Z.of_nat (length b) <= DELETE_MAX_DOCS)
    (_batch_delete_documents document_ids).
Proof.
  destruct (batch_delete_loop_spec document_ids [] ltac:(cbn; lia)) as [Hc HF].
  split; [exact Hc|].
  eapply Forall_impl; [exact HF|]. intros b Hb. unfold DELETE_MAX_DOCS. cbn beta in Hb. lia.
Qed.

(** The requests of [CCFClient.batch_put_documents] and of
    [CCFClient.batch_delete_documents] carry every entry of the input
    exactly once and in order; no request is empty and none has more than
    ten entries. *)
Theorem ccf_client_requests_partition
    (document_checksums : list (string * string)) (document_ids : list string) :
  (concat (ccf_put_requests document_checksums) = document_checksums /\
   Forall (fun b => (0 < length b <= BATCH_PUT_DOCUMENT_MAX_SIZE)%nat)
     (ccf_put_requests document_checksums)) /\
  (concat (ccf_delete_requests document_ids) = document_ids /\
   Forall (fun b => (0 < length b <= BATCH_DELETE_DOCUMENT_MAX_SIZE)%nat)
     (ccf_delete_requests document_ids)).
Proof.
  split; apply slices_partition; unfold BATCH_PUT_DOCUMENT_MAX_SIZE,
    BATCH_DELETE_DOCUMENT_MAX_SIZE; lia.
Qed.

(** ** Uploads *)

Lemma _prepare_document_for_upload_Ready
    (P : Platform) (doc : Document) (prepared_doc : QBusinessDocument (Bytes P)) :
  _prepare_document_for_upload P doc = Ready prepared_doc ->
  q_id prepared_doc = id doc /\ q_title prepared_doc = title (metadata doc) /\
  infer_content_type P (file doc) = Some (q_contentType prepared_doc) /\
  match q_content prepared_doc with
  | Blob blob =>
      get_size P (file doc) <= PUT_MAX_TOTAL_SIZE /\ get_size P (file doc) <> 0 /\
      blob = read_bytes P (file_path (file doc))
  | S3 bucket key =>
      PUT_MAX_TOTAL_SIZE < get_size P (file doc) <= PUT_MAX_SINGLE_SIZE /\
      s3_bucket P = Some bucket /\
      key = "qbusiness-docs/" +:+ id doc +:+ suffix P (file_path (file doc)) /\
      s3_put_object P key = true
  end.
Proof.
  unfold _prepare_document_for_upload.
  destruct (infer_content_type P (file doc)) as [content_type|]; [|done].
  cbv zeta.
  destruct (Z.ltb_spec PUT_MAX_SINGLE_SIZE (get_size P (file doc))) as [|Hsingle]; [done|].
  destruct (Z.ltb_spec PUT_MAX_TOTAL_SIZE (get_size P (file doc))) as [Hlarge|Hsmall].
  - unfold _handle_large_document.
    destruct (s3_bucket P) as [bucket|]; [|done]. cbv zeta.
    destruct (s3_put_object P _) eqn:Hput; [|done].
    intros [= <-]. cbn. by repeat split.
  - fold (get_size P (file doc)).
    destruct (Z.eqb_spec (get_size P (file doc)) 0) as [|Hne]; [done|].
    intros [= <-]. cbn. by repeat split.
Qed.

(** What [_prepare_document_for_upload] returns carries the id and title of
    the document.  Its content is the file itself only when the file is not
    empty and not larger than [PUT_MAX_TOTAL_SIZE]; a larger file, up to
    [PUT_MAX_SINGLE_SIZE], is referred to by the S3 object the preparation
    has stored under [qbusiness-docs/], named after the id and the file's
    suffix.  An empty file of a known content type is not prepared: the
    preparation raises. *)
Theorem _prepare_document_for_upload_content
    (P : Platform) (doc : Document) :
  (forall prepared_doc : QBusinessDocument (Bytes P),
     _prepare_document_for_upload P doc = Ready prepared_doc ->
     q_id prepared_doc = id doc /\ q_title prepared_doc = title (metadata doc) /\
     infer_content_type P (file doc) = Some (q_contentType prepared_doc) /\
     match q_content prepared_doc with
     | Blob blob =>
         get_size P (file doc) <= PUT_MAX_TOTAL_SIZE /\ get_size P (file doc) <> 0 /\
         blob = read_bytes P (file_path (file doc))
     | S3 bucket key =>
         PUT_MAX_TOTAL_SIZE < get_size P (file doc) <= PUT_MAX_SINGLE_SIZE /\
         s3_bucket P = Some bucket /\
         key = "qbusiness-docs/" +:+ id doc +:+ suffix P (file_path (file doc)) /\
         s3_put_object P key = true
     end) /\
  (get_size P (file doc) = 0 -> _prepare_document_for_upload P doc = Raised).
Proof.
  split; [apply _prepare_document_for_upload_Ready|].
  intros Hempty. unfold _prepare_document_for_upload.
  destruct (infer_content_type P (file doc)) as [content_type|]; [|done].
  cbv zeta. rewrite Hempty. cbn. fold (get_size P (file doc)). by rewrite Hempty.
Qed.

Lemma _prepare_document_for_upload_content_witness :
  (match _prepare_document_for_upload platform0 (document0 "a") with
   | Ready prepared_doc =>
       q_id prepared_doc = "a" /\ q_content prepared_doc = Blob (6 * 1024 * 1024)
   | _ => False
   end) /\
  _prepare_document_for_upload platform_empty (document0 "a") = Raised.
Proof.
  split.
  - destruct (_prepare_document_for_upload platform0 (document0 "a")) as [| |q] eqn:Hq;
      [discriminate Hq|discriminate Hq|].
    destruct (proj1 (_prepare_document_for_upload_content platform0 (document0 "a")) q Hq)
      as (Hid & _ & _ & Hcontent).
    split; [exact Hid|].
    injection Hq as <-. reflexivity.
  - apply (proj2 (_prepare_document_for_upload_content platform_empty (document0 "a"))).
    reflexivity.
Defined.

Lemma prepared_of_cons P doc rest :
  prepared_of P (doc :: rest)
  = match _prepare_document_for_upload P doc with
    | Ready prepared_doc => prepared_doc :: prepared_of P rest
    | _ => prepared_of P rest
    end.
Proof.
  unfold prepared_of. cbn. by destruct (_prepare_document_for_upload P doc).
Qed.

Lemma batch_put_loop_partition P documents batch size_accumulator :
  let r := batch_put_loop P documents batch size_accumulator in
  concat r.1 `prefix_of` (batch ++ prepared_of P documents)%list /\
  (r.2 = true -> concat r.1 = (batch ++ prepared_of P documents)%list) /\
  (r.2 = true <->
   Forall (fun doc => _prepare_document_for_upload P doc <> Raised) documents) /\
  Forall (fun b => b <> []) r.1.
Proof.
  revert batch size_accumulator.
  induction documents as [|doc rest IH]; intros batch size_accumulator.
  - cbn. rewrite app_nil_r. destruct batch as [|x batch]; cbn.
    + repeat split; by auto.
    + rewrite app_nil_r. repeat split; auto; by constructor.
  - cbn [batch_put_loop]. rewrite prepared_of_cons.
    destruct (_prepare_document_for_upload P doc) as [| |q] eqn:Hq.
    + cbn. repeat split; auto using prefix_nil; try done.
      intros HF. apply Forall_cons in HF as [Hne _]. done.
    + specialize (IH batch size_accumulator). cbv zeta in IH.
      destruct IH as (Hp & He & Hf & Hn). repeat split; auto.
      * intros Hfin. constructor; [by rewrite Hq|by apply Hf].
      * intros HF. apply Forall_cons in HF as [_ HF]. by apply Hf.
    + cbv zeta.
      destruct (_ || _).
      * specialize (IH [] 0). cbv zeta in IH. cbn [app] in IH.
        destruct (batch_put_loop P rest [] 0) as [sent finished].
        destruct IH as (Hp & He & Hf & Hn). cbn [fst snd concat] in *.
        replace (batch ++ q :: prepared_of P rest)%list
          with ((batch ++ [q]) ++ prepared_of P rest)%list by by rewrite <- app_assoc.
        repeat split.
        -- by apply prefix_app.
        -- intros Hfin. by rewrite He.
        -- intros Hfin. constructor; [by rewrite Hq|by apply Hf].
        -- intros HF. apply Forall_cons in HF as [_ HF]. by apply Hf.
        -- constructor; [by destruct batch|done].
      * specialize (IH (batch ++ [q])%list (size_accumulator + get_size P (file doc))).
        cbv zeta in IH. rewrite <- app_assoc in IH. cbn [app] in IH.
        destruct IH as (Hp & He & Hf & Hn). repeat split; auto.
        -- intros Hfin. constructor; [by rewrite Hq|by apply Hf].
        -- intros HF. apply Forall_cons in HF as [_ HF]. by apply Hf.
Qed.

(** [_batch_put_documents] loses and repeats nothing as long as no
    preparation raises: the batches it sends are, together and in order,
    the documents that could be prepared, and no batch is empty.  It runs to
    its end exactly when no preparation raises; when one does (an unknown
    content type, an empty file), what has been sent is an initial part of
    the prepared documents, and the batch being filled is not sent. *)
Theorem _batch_put_documents_partition (P : Platform) (documents : list Document) :
  let sent := (_batch_put_documents P documents).1 in
  let finished := (_batch_put_documents P documents).2 in
  concat sent `prefix_of` prepared_of P documents /\
  (finished = true -> concat sent = prepared_of P documents) /\
  (finished = true <->
   Forall (fun doc => _prepare_document_for_upload P doc <> Raised) documents) /\
  Forall (fun b => b <> []) sent.
Proof. apply (batch_put_loop_partition P documents [] 0). Qed.

Lemma _batch_put_documents_partition_witness :
  let run := _batch_put_documents platform_mixed [document0 "a"; document0 "b"] in
  run.2 <> true /\ run.1 = [] /\
  concat run.1 `prefix_of` prepared_of platform_mixed [document0 "a"; document0 "b"].
Proof.
  intros run.
  destruct (_batch_put_documents_partition platform_mixed [document0 "a"; document0 "b"])
    as (Hprefix & _ & Hfinished & _).
  split; [|split; [reflexivity|exact Hprefix]].
  intros Htrue. apply Hfinished in Htrue.
  apply Forall_cons in Htrue as [_ Htrue]. apply Forall_cons in Htrue as [Hb _].
  by apply Hb.
Defined.

Lemma payload_size_app P b1 b2 :
  payload_size P (b1 ++ b2) = payload_size P b1 + payload_size P b2.
Proof.
  unfold payload_size. induction b1 as [|q b1 IH]; cbn [app fold_right]; [lia|].
  rewrite IH. destruct (q_content q); lia.
Qed.

Lemma _prepare_document_for_upload_payload P doc q :
  _prepare_document_for_upload P doc = Ready q ->
  0 <= get_size P (file doc) ->
  payload_size P [q] <= get_size P (file doc) /\ payload_size P [q] <= PUT_MAX_TOTAL_SIZE.
Proof.
  intros Hq Hsize.
  destruct (_prepare_document_for_upload_Ready P doc q Hq) as (_ & _ & _ & Hcontent).
  cbn. destruct (q_content q) as [blob|bucket key].
  - destruct Hcontent as (Hle & _ & ->). fold (get_size P (file doc)). lia.
  - unfold PUT_MAX_TOTAL_SIZE. lia.
Qed.

Lemma batch_put_loop_payload P documents batch size_accumulator :
  Forall (fun doc => 0 <= get_size P (file doc)) documents ->
  payload_size P batch <= size_accumulator -> size_accumulator < PUT_MAX_TOTAL_SIZE ->
  Forall (fun b => payload_size P b < 2 * PUT_MAX_TOTAL_SIZE)
    (batch_put_loop P documents batch size_accumulator).1.
Proof.
  intros Hsizes. revert batch size_accumulator.
  induction Hsizes as [|doc rest Hsize Hrest IH]; intros batch size_accumulator Hpay Hacc.
  - cbn. destruct batch; constructor; [|constructor].
    unfold PUT_MAX_TOTAL_SIZE in *. lia.
  - cbn [batch_put_loop].
    destruct (_prepare_document_for_upload P doc) as [| |q] eqn:Hq.
    + constructor.
    + by apply IH.
    + cbv zeta.
      destruct (_prepare_document_for_upload_payload P doc q Hq Hsize) as [Hq1 Hq2].
      pose proof (payload_size_app P batch [q]) as Happ.
      destruct (_ || _) eqn:Hsend.
      * specialize (IH [] 0). destruct (batch_put_loop P rest [] 0) as [sent finished].
        cbn [fst]. constructor.
        -- unfold PUT_MAX_TOTAL_SIZE in *. lia.
        -- apply IH; [cbn; lia|unfold PUT_MAX_TOTAL_SIZE; lia].
      * apply orb_false_iff in Hsend as [_ Hsend]. apply Z.leb_gt in Hsend.
        apply IH; lia.
Qed.

(** The inline payload of a batch [_batch_put_documents] sends stays below
    twice [PUT_MAX_TOTAL_SIZE]: the batch being filled is below the limit
    when a document is added, and a document sent inline is not larger than
    the limit. *)
Theorem _batch_put_documents_payload_bound (P : Platform) (documents : list Document) :
  Forall (fun doc => 0 <= get_size P (file doc)) documents ->
  Forall (fun b => payload_size P b < 2 * PUT_MAX_TOTAL_SIZE) (_batch_put_documents P documents).1.
Proof.
  intros Hsizes. apply batch_put_loop_payload; [exact Hsizes|cbn; lia|unfold PUT_MAX_TOTAL_SIZE; lia].
Qed.

Lemma _batch_put_documents_payload_bound_witness :
  Forall (fun b => payload_size platform0 b < 2 * PUT_MAX_TOTAL_SIZE)
    (_batch_put_documents platform0 [document0 "a"; document0 "b"; document0 "c"]).1.
Proof.
  apply _batch_put_documents_payload_bound.
  repeat constructor; vm_compute; discriminate.
Defined.

(** ** The filter of [sync] and the ledger *)

Lemma NoDup_fmap_eq {A B} (f : A -> B) (l : list A) x y :
  NoDup (f <$> l) -> x ∈ l -> y ∈ l -> f x = f y -> x = y.
Proof.
  induction l as [|a l IH]; intros Hnd Hx Hy Hf; [by apply elem_of_nil in Hx|].
  rewrite fmap_cons in Hnd. apply NoDup_cons in Hnd as [Hnotin Hnd].
  apply elem_of_cons in Hx as [->|Hx]; apply elem_of_cons in Hy as [->|Hy]; auto.
  - destruct Hnotin. rewrite Hf. by apply list_elem_of_fmap_2.
  - destruct Hnotin. rewrite <- Hf. by apply list_elem_of_fmap_2.
Qed.

Lemma checksums_of_NoDup P docs doc :
  NoDup (id <$> docs) -> doc ∈ docs ->
  checksums_of P docs !! id doc = Some (get_checksum P doc).
Proof.
  intros Hnd Hin. destruct (checksums_of_is_Some P docs doc Hin) as [c Hc].
  rewrite Hc. destruct (checksums_of_lookup P docs (id doc) c Hc) as (doc' & Hin' & Hid & ->).
  by rewrite (NoDup_fmap_eq id docs doc' doc Hnd Hin' Hin Hid).
Qed.

(** When no two documents of the input share an id, the filter of [sync]
    keeps, in order, exactly the documents the ledger does not record with
    their present checksum: the new ones and the changed ones. *)
Theorem docs_to_sync_new_or_changed
    (P : Platform) (current_docs : list Document) (ccf_docs : gmap string CCFDocument) :
  NoDup (id <$> current_docs) ->
  docs_to_sync P current_docs ccf_docs
  = List.filter (fun doc => negb (recorded P ccf_docs doc)) current_docs.
Proof.
  intros Hnd. unfold docs_to_sync. apply filter_ext_in. intros doc Hin.
  apply list_elem_of_In in Hin. rewrite (checksums_of_NoDup P _ doc Hnd Hin).
  unfold recorded. destruct (ccf_docs !! id doc) as [entry|]; cbn; [|done].
  reflexivity.
Qed.

Lemma docs_to_sync_new_or_changed_witness :
  docs_to_sync platform0 [document0 "a"; document0 "c"] ledger0 = [document0 "c"].
Proof.
  rewrite docs_to_sync_new_or_changed.
  - vm_compute. reflexivity.
  - cbn. repeat constructor; rewrite ?elem_of_cons, ?elem_of_nil; intros H;
      repeat destruct H as [H|H]; try discriminate H; exact H.
Defined.

(** The ledger after a run of [sync] in which every call of a service
    succeeds, entry by entry.  When the upload loop ran to its end: an id of
    the delete list has no entry, also when a document of that id was put in
    the same run; any other id that the filter selected carries the
    checksum of the last selected document of that id, and as both its
    timestamps the time at which one of the put requests was served (there
    is one request for every ten selected ids); every other entry is as it
    was.  When a preparation raised, the ledger is as it was. *)
Theorem sync_ledger_lookup
    (P : Platform) (clock : nat -> string) (documents_to_add : list Document)
    (documents_to_delete : list string) (ledger : gmap string CCFDocument) (i : string) :
  let selected := docs_to_sync P documents_to_add ledger in
  let after := sync_ledger P clock documents_to_add documents_to_delete ledger in
  if (_batch_put_documents P selected).2
  then
    if bool_decide (i ∈ documents_to_delete) then after !! i = None
    else match checksums_of P selected !! i with
         | Some c =>
             exists n,
               (n < length (ccf_put_requests (checksum_items P selected)))%nat /\
               after !! i = Some (mkCCFDocument i c (clock n) (clock n))
         | None => after !! i = ledger !! i
         end
  else after = ledger.
Proof.
  cbv zeta.
  destruct ((_batch_put_documents P (docs_to_sync P documents_to_add ledger)).2) eqn:Hfinished.
  2:{ by apply sync_ledger_raised. }
  rewrite sync_ledger_finished by done. cbv zeta.
  set (selected := docs_to_sync P documents_to_add ledger).
  set (put := match selected with
              | [] => ledger
              | _ => _
              end).
  assert (Hput : match checksums_of P selected !! i with
                 | Some c =>
                     exists n,
                       (n < length (ccf_put_requests (checksum_items P selected)))%nat /\
                       put !! i = Some (mkCCFDocument i c (clock n) (clock n))
                 | None => put !! i = ledger !! i
                 end).
  { unfold put. destruct selected as [|d ds] eqn:Hds.
    - unfold checksums_of. cbn [fold_left]. by rewrite lookup_empty.
    - apply ccf_batch_put_documents_lookup. }
  assert (Hdel : (match documents_to_delete with
                  | [] => put
                  | _ => ccf_batch_delete_documents documents_to_delete put
                  end) !! i
                 = if bool_decide (i ∈ documents_to_delete) then None else put !! i).
  { destruct documents_to_delete as [|d ds].
    - rewrite bool_decide_eq_false_2; [done|]. apply not_elem_of_nil.
    - apply ccf_batch_delete_documents_lookup_full. }
  rewrite Hdel. case_bool_decide; [done|].
  destruct (checksums_of P selected !! i) as [c|]; exact Hput.
Qed.

Lemma sync_ledger_lookup_witness :
  let clock := fun n => if Nat.eqb n 0 then "t0" else "t1" in
  let after := sync_ledger platform0 clock [document0 "a"; document0 "b"] ["b"] ∅ in
  after !! "b" = None /\
  (exists n, after !! "a" = Some (mkCCFDocument "a" "a+{}+f" (clock n) (clock n))) /\
  after !! "z" = None /\
  sync_ledger platform_mixed clock [document0 "a"; document0 "b"] ["z"] ∅ = ∅.
Proof.
  intros clock after.
  pose proof (sync_ledger_lookup platform0 clock [document0 "a"; document0 "b"] ["b"] ∅) as H.
  cbv zeta in H. fold after in H.
  replace ((_batch_put_documents platform0
              (docs_to_sync platform0 [document0 "a"; document0 "b"] ∅)).2)
    with true in H by (vm_compute; reflexivity).
  split; [|split; [|split]].
  - specialize (H "b"). rewrite bool_decide_eq_true_2 in H by apply list_elem_of_here.
    exact H.
  - specialize (H "a").
    rewrite bool_decide_eq_false_2 in H
      by (intros Hin; apply list_elem_of_In in Hin; cbn in Hin;
          destruct Hin as [Hin|[]]; discriminate Hin).
    replace (checksums_of platform0 (docs_to_sync platform0 [document0 "a"; document0 "b"] ∅)
             !! "a") with (Some "a+{}+f") in H by (vm_compute; reflexivity).
    destruct H as (n & _ & Hn). by exists n.
  - specialize (H "z").
    rewrite bool_decide_eq_false_2 in H
      by (intros Hin; apply list_elem_of_In in Hin; cbn in Hin;
          destruct Hin as [Hin|[]]; discriminate Hin).
    replace (checksums_of platform0 (docs_to_sync platform0 [document0 "a"; document0 "b"] ∅)
             !! "z") with (@None string) in H by (vm_compute; reflexivity).
    rewrite H. apply lookup_empty.
  - pose proof (sync_ledger_lookup platform_mixed clock [document0 "a"; document0 "b"] ["z"]
                  ∅ "a") as Hraised.
    cbv zeta in Hraised.
    replace ((_batch_put_documents platform_mixed
                (docs_to_sync platform_mixed [document0 "a"; document0 "b"] ∅)).2)
      with false in Hraised by (vm_compute; reflexivity).
    exact Hraised.
Defined.

(** ** Content types *)

Lemma lower_ascii_idem c : lower_ascii (lower_ascii c) = lower_ascii c.
Proof. destruct c as [[] [] [] [] [] [] [] []]; reflexivity. Qed.

Lemma lower_ascii_dot c : Ascii.eqb (lower_ascii c) "." = Ascii.eqb c ".".
Proof. destruct c as [[] [] [] [] [] [] [] []]; reflexivity. Qed.

Lemma lower_idem s : lower (lower s) = lower s.
Proof. induction s as [|c s IH]; cbn; [done|]. by rewrite lower_ascii_idem, IH. Qed.

Lemma lstrip_dot_lower s : lstrip_dot (lower s) = lower (lstrip_dot s).
Proof.
  induction s as [|c s IH]; cbn [lower lstrip_dot]; [done|].
  rewrite lower_ascii_dot. by destruct (Ascii.eqb c ".").
Qed.

Lemma lstrip_dot_idem s : lstrip_dot (lstrip_dot s) = lstrip_dot s.
Proof.
  induction s as [|c s IH]; cbn [lstrip_dot]; [done|].
  destruct (Ascii.eqb c ".") eqn:Hc; [done|]. cbn [lstrip_dot]. by rewrite Hc.
Qed.

(** Normalising an extension twice is normalising it once. *)
Lemma get_content_type_from_extension_normalised extension :
  DocumentTypeMapper.get_content_type_from_extension (lstrip_dot (lower extension))
  = DocumentTypeMapper.get_content_type_from_extension extension.
Proof.
  unfold DocumentTypeMapper.get_content_type_from_extension.
  by rewrite (lstrip_dot_lower extension), lower_idem, lstrip_dot_lower, lstrip_dot_idem.
Qed.

(** The two tables of [DocumentTypeMapper] cover their enumerations, so the
    [KeyError] never happens: a lookup fails only for a string that, put in
    lower case (and stripped of leading dots, for an extension), is not the
    value of a member.  Every content type is the image of some extension
    and of some MIME type. *)
Theorem DocumentTypeMapper_tables_total :
  (forall extension,
     DocumentTypeMapper.get_content_type_from_extension extension = None <->
     FileExtension.of_value (lstrip_dot (lower extension)) = None) /\
  (forall mime_type,
     DocumentTypeMapper.get_content_type_from_mime mime_type = None <->
     MimeType.of_value (lower mime_type) = None) /\
  (forall content_type, exists file_ext mime,
     DocumentTypeMapper.get_content_type_from_extension (FileExtension.value file_ext)
     = Some content_type /\
     DocumentTypeMapper.get_content_type_from_mime (MimeType.value mime) = Some content_type).
Proof.
  split; [|split].
  - intros extension. unfold DocumentTypeMapper.get_content_type_from_extension.
    destruct (FileExtension.of_value _) as [file_ext|]; [|done].
    split; [|done]. by destruct file_ext.
  - intros mime_type. unfold DocumentTypeMapper.get_content_type_from_mime.
    destruct (MimeType.of_value _) as [mime|]; [|done].
    split; [|done]. by destruct mime.
  - intros [].
    + by exists FileExtension.PDF, MimeType.PDF.
    + by exists FileExtension.HTM, MimeType.HTML_APP.
    + by exists FileExtension.XML, MimeType.XML_APP.
    + by exists FileExtension.XSL, MimeType.XSLT.
    + by exists FileExtension.MARKDOWN, MimeType.MARKDOWN_X.
    + by exists FileExtension.CSV, MimeType.CSV_APP.
    + by exists FileExtension.XLSX, MimeType.EXCEL_OPENXML.
    + by exists FileExtension.JSON, MimeType.JSON.
    + by exists FileExtension.RTF, MimeType.RTF_TEXT.
    + by exists FileExtension.PPTX, MimeType.POWERPOINT_OPENXML.
    + by exists FileExtension.DOCX, MimeType.WORD_OPENXML.
    + by exists FileExtension.TXT, MimeType.PLAIN_TEXT.
Qed.

(** [infer_content_type] never fails on a file whose suffix is a supported
    extension, whatever the content sniffing and [mimetypes] say.  A
    supported MIME type found in the content decides, whatever the suffix;
    without content kind and without a guess of [mimetypes] the suffix
    alone decides. *)
Theorem infer_content_type_cases
    (kind guess_type : option string) (path_suffix : string) :
  let by_extension := DocumentTypeMapper.get_content_type_from_extension path_suffix in
  (is_Some by_extension ->
   is_Some (DocumentFile_infer_content_type kind guess_type path_suffix)) /\
  (forall mime_type content_type,
     kind = Some mime_type ->
     DocumentTypeMapper.get_content_type_from_mime mime_type = Some content_type ->
     DocumentFile_infer_content_type kind guess_type path_suffix = Some content_type) /\
  (kind = None -> guess_type = None ->
   DocumentFile_infer_content_type kind guess_type path_suffix = by_extension).
Proof.
  cbv zeta. unfold DocumentFile_infer_content_type.
  rewrite get_content_type_from_extension_normalised.
  split; [|split].
  - intros Hext. destruct kind as [mime_type|].
    + by destruct (DocumentTypeMapper.get_content_type_from_mime mime_type).
    + destruct guess_type as [[|c rest]|]; try done.
      by destruct (DocumentTypeMapper.get_content_type_from_mime _).
  - intros mime_type content_type -> Hmime. by rewrite Hmime.
  - by intros -> ->.
Qed.

Lemma infer_content_type_cases_witness :
  DocumentFile_infer_content_type None (Some "application/octet-stream") ".MD"
  = Some ContentType.MD /\
  DocumentFile_infer_content_type (Some "application/pdf") None ".txt" = Some ContentType.PDF.
Proof.
  destruct (infer_content_type_cases None (Some "application/octet-stream") ".MD")
    as (Hext & _ & _).
  destruct (infer_content_type_cases (Some "application/pdf") None ".txt") as (_ & Hmime & _).
  split.
  - destruct (Hext ltac:(by eexists)) as [c Hc]. rewrite Hc. vm_compute in Hc. symmetry. exact Hc.
  - apply (Hmime "application/pdf"); reflexivity.
Defined.

(** ** [JsonSerializer] *)

Lemma map_id_Forall {A} (f : A -> A) (l : list A) :
  Forall (fun x => f x = x) l -> List.map f l = l.
Proof. induction 1 as [|x l Hx _ IH]; cbn; [done|]. by rewrite Hx, IH. Qed.

Lemma forallb_map_Forall {A} (p : A -> bool) (f : A -> A) (l : list A) :
  Forall (fun x => p (f x) = true) l -> forallb p (List.map f l) = true.
Proof. induction 1 as [|x l Hx _ IH]; cbn; [done|]. by rewrite Hx, IH. Qed.

Lemma Forall_forallb_impl {A} (p : A -> bool) (Q : A -> Prop) (l : list A) :
  Forall (fun x => p x = true -> Q x) l -> forallb p l = true -> Forall Q l.
Proof.
  induction 1 as [|x l Hx _ IH]; cbn; [constructor|].
  intros [Hp Hl]%andb_true_iff. constructor; auto.
Qed.

Lemma _convert_enum_to_str_enum_free {Leaf} (value : pyvalue Leaf) :
  enum_free value = true -> _convert_enum_to_str value = value.
Proof.
  induction value as [member_value IH|items IH|items IH|leaf] using pyvalue_induction;
    cbn [enum_free _convert_enum_to_str]; intros Hfree.
  - discriminate.
  - f_equal. apply map_id_Forall. by apply (Forall_forallb_impl enum_free).
  - f_equal. apply map_id_Forall.
    apply (Forall_forallb_impl (fun kv => let '(_, val) := kv in enum_free val)); [|done].
    eapply Forall_impl; [exact IH|]. intros [key val] Hval Hv. cbn in *. by rewrite Hval.
  - done.
Qed.

Lemma _convert_enum_to_str_plain {Leaf} (value : pyvalue Leaf) :
  plain_enums value = true -> enum_free (_convert_enum_to_str value) = true.
Proof.
  induction value as [member_value IH|items IH|items IH|leaf] using pyvalue_induction;
    cbn [plain_enums enum_free _convert_enum_to_str]; intros Hplain.
  - done.
  - apply forallb_map_Forall. by apply (Forall_forallb_impl plain_enums).
  - apply forallb_map_Forall.
    apply (Forall_forallb_impl (fun kv => let '(_, val) := kv in plain_enums val)); [|done].
    eapply Forall_impl; [exact IH|]. intros [key val] Hval Hv. cbn in *. by apply Hval.
  - done.
Qed.

(** [_convert_enum_to_str] leaves a value without enumeration members as it
    is.  When the members that occur have plain values, as those of a
    [class E(str, Enum)] have, nothing of an enumeration is left in the
    result, and converting again changes nothing.  [serialize] keeps the
    keys of a dict, in order. *)
Theorem _convert_enum_to_str_spec {Leaf} (value : pyvalue Leaf) :
  (enum_free value = true -> _convert_enum_to_str value = value) /\
  (plain_enums value = true ->
   enum_free (_convert_enum_to_str value) = true /\
   _convert_enum_to_str (_convert_enum_to_str value) = _convert_enum_to_str value) /\
  (forall items, value = PyDict items -> (serialize value).*1 = items.*1).
Proof.
  split; [apply _convert_enum_to_str_enum_free|]. split.
  - intros Hplain. pose proof (_convert_enum_to_str_plain value Hplain) as Hfree.
    split; [exact Hfree|]. by apply _convert_enum_to_str_enum_free.
  - intros items ->. unfold serialize. cbn [_convert_enum_to_str].
    induction items as [|[key val] items IH]; cbn; [done|]. by f_equal.
Qed.

Lemma _convert_enum_to_str_spec_witness :
  let request :=
    PyDict [ ("applicationId", PyOther "app");
             ("documents",
              PyList [ PyDict [ ("id", PyOther "a"); ("contentType", PyEnum (PyOther "PDF")) ] ]) ] in
  _convert_enum_to_str request
  = PyDict [ ("applicationId", PyOther "app");
             ("documents",
              PyList [ PyDict [ ("id", PyOther "a"); ("contentType", PyOther "PDF") ] ]) ] /\
  enum_free (_convert_enum_to_str request) = true.
Proof.
  intros request. split; [reflexivity|].
  by apply (_convert_enum_to_str_spec request).
Defined.
